(** * Verification of the state-synchronisation core of CrowderSoup/todo-app

    The development embeds, as executable Rocq definitions,

    - the snapshot model of [database/models.go] ([Column], [Task],
      [KanbanData]);
    - the merge engine [mergeKanbanData], once as written in
      [handlers/data.go] (package [handlers]) and once as written in
      [handlers.go] (package [main]);
    - the connection hub of [services] / package [main] ([Hub.Broadcast] and
      the event loop [Hub.Run]) over an explicit store of clients and their
      bounded outbound channels;
    - the request handler [SyncData].

    Go's [map] iteration order is unspecified; every loop that ranges over a
    map takes the enumeration as a parameter that is only known to list the
    entries of the map exactly once each. *)

From Stdlib Require Import ZArith Strings.Ascii Strings.String Strings.Byte.
From stdpp Require Import base strings gmap list.

Local Open Scope string_scope.
Local Open Scope list_scope.
Local Open Scope stdpp_scope.

#[local] Set Warnings "-clear-no-such-hyp".

(** ** Snapshot model ([database/models.go]) *)

Module Column.
Record t : Type := mk {
  ID : string;
  Title : string;
  Order : Z;
  Deleted : bool;
  Hidden : bool
}.
End Column.

Module Task.
Record t : Type := mk {
  ID : string;
  Title : string;
  Description : string;
  DueDate : string;
  Priority : option string;   (* *string *)
  ColumnID : option string;   (* *string, [None] is the nil pointer *)
  Deleted : bool;
  Hidden : bool
}.

(** [task.ColumnID = v] on a struct value. *)
Definition setColumnID (v : option string) (task : t) : t :=
  mk (ID task) (Title task) (Description task) (DueDate task)
     (Priority task) v (Deleted task) (Hidden task).
End Task.

Record KanbanData : Type := mkKanbanData {
  Columns : list Column.t;
  Tasks : list Task.t;
  UnassignedTasks : list Task.t;   (* legacy list, kept for compatibility *)
  UnassignedCollapsed : bool
}.

(** Reading a [map[string]bool] at a key that may be missing yields the zero
    value [false]. *)
Definition readFlag (m : gmap string bool) (k : string) : bool :=
  default false (m !! k).

(** The five loops of the merge that the two packages share verbatim. *)

(** [for _, col := range cols { m[col.ID] = col }] *)
Definition populateColumns (cols : list Column.t) : gmap string Column.t :=
  foldl (λ m col, <[Column.ID col := col]> m) ∅ cols.

(** [for _, task := range tasks { ids[task.ID] = true }] *)
Definition recordTaskIDs (ids : gmap string bool) (tasks : list Task.t)
  : gmap string bool :=
  foldl (λ m task, <[Task.ID task := true]> m) ids tasks.

(** The guarded rewrite of an empty-string column id found in the loops over
    the main task lists. *)
Definition fixEmptyColumnID (task : Task.t) : Task.t :=
  match Task.ColumnID task with
  | Some columnIDVal =>
      if String.eqb columnIDVal "" then Task.setColumnID None task else task
  | None => task
  end.

(** Loop "First, add all client tasks". *)
Definition addClientTasks (acc : list Task.t) (tasks : list Task.t) : list Task.t :=
  foldl (λ acc task, let task := fixEmptyColumnID task in acc ++ [task]) acc tasks.

(** Loop "If client still uses unassignedTasks array, add those too". *)
Definition addClientUnassigned (acc : list Task.t) (tasks : list Task.t) : list Task.t :=
  foldl (λ acc task, let task := Task.setColumnID None task in acc ++ [task]) acc tasks.

(** Loop "Then add server tasks that don't exist in the client at all". *)
Definition addServerTasks (allClientTaskIDs : gmap string bool)
    (acc : list Task.t) (tasks : list Task.t) : list Task.t :=
  foldl (λ acc task,
           if negb (readFlag allClientTaskIDs (Task.ID task))
           then let task := fixEmptyColumnID task in acc ++ [task]
           else acc) acc tasks.

(** Loop "If server still uses unassignedTasks array, add those too". *)
Definition addServerUnassigned (allClientTaskIDs : gmap string bool)
    (acc : list Task.t) (tasks : list Task.t) : list Task.t :=
  foldl (λ acc task,
           if negb (readFlag allClientTaskIDs (Task.ID task))
           then let task := Task.setColumnID None task in acc ++ [task]
           else acc) acc tasks.

(** "Final verification pass": [for i, task := range result.Tasks] with the
    in-place write [result.Tasks[i].ColumnID = nil].  The range expression is
    evaluated once and element [i] is copied before it is overwritten, so the
    loop reads the entries of the list it started from. *)
Definition finalPass (tasks : list Task.t) : list Task.t :=
  foldl (λ acc it,
           let '(i, task) := it in
           match Task.ColumnID task with
           | Some columnIDVal =>
               if String.eqb columnIDVal "" || String.eqb columnIDVal "unassigned"
               then alter (Task.setColumnID None) i acc
               else acc
           | None => acc
           end) tasks (imap pair tasks).

(** Loop "Add server columns that don't exist in client", over an enumeration
    of the server-column map. *)
Definition addServerColumns (clientColumns : gmap string Column.t)
    (acc : list Column.t) (entries : list (string * Column.t)) : list Column.t :=
  foldl (λ acc it,
           let '(id, col) := it in
           match clientColumns !! id with
           | Some _ => acc
           | None => acc ++ [col]
           end) acc entries.

(** ** The connection hub (package [services]; the same code, with unexported
    field names, is in package [main]) *)

Module Hub.

(** [interface{}] payload of a message: a board built by the server, or
    whatever generic value the JSON decoder produced. *)
Inductive any : Type :=
| AnyKanban (data : KanbanData)
| AnyJSON (raw : list byte).

Record WebSocketMessage : Type := mkMessage {
  Type_ : string;
  Data : any;
  User : string
}.

Definition setUser (user : string) (message : WebSocketMessage) : WebSocketMessage :=
  mkMessage (Type_ message) (Data message) user.

(** A buffered channel of byte slices: [make(chan []byte, cap)]. *)
Record chan : Type := mkChan {
  buf : list (list byte);
  cap : nat;
  closed : bool
}.

(** What a goroutine gets out of a primitive that may panic. *)
Inductive outcome (A : Type) : Type :=
| Done (a : A)
| Panic.
Arguments Done {A} a.
Arguments Panic {A}.

Definition bind {A B : Type} (o : outcome A) (k : A → outcome B) : outcome B :=
  match o with
  | Done a => k a
  | Panic => Panic
  end.

(** The send case of a [select]: it can proceed when the buffer has room, it
    panics on a closed channel, otherwise it is not ready. *)
Inductive sendCase : Type :=
| Sent (c : chan)
| NotReady
| SendPanics.

Definition trySend (message : list byte) (c : chan) : sendCase :=
  if closed c then SendPanics
  else if (length (buf c) <? cap c)%nat
       then Sent (mkChan (buf c ++ [message]) (cap c) false)
       else NotReady.

(** [close(c)]: closing a closed channel panics. *)
Definition close (c : chan) : outcome chan :=
  if closed c then Panic else Done (mkChan (buf c) (cap c) true).

(** A [*Client] is an address in the store of client objects.  Of a client
    the hub only touches [Email] and [Send]; every client owns its channel. *)
Definition ptr : Type := positive.

Record Client : Type := mkClient {
  Email : string;
  Send : chan
}.

Definition setSend (c : chan) (client : Client) : Client :=
  mkClient (Email client) c.

(** The hub's live set [Clients map[*Client]bool] together with the objects
    its keys point to. *)
Record t : Type := mk {
  Clients : gmap ptr bool;
  store : gmap ptr Client
}.

(** What [Run] can receive on its three channels. *)
Inductive event : Type :=
| OnRegister (client : ptr)
| OnUnregister (client : ptr)
| OnBroadcast (message : list byte).

Definition NewHub (store : gmap ptr Client) : t := mk ∅ store.

Section hub.
(** [encoding/json]: [json.Marshal] of a message and the decoder used by
    [Run]. *)
Variable marshal : WebSocketMessage → option (list byte).
Variable decode : list byte → option WebSocketMessage.
(** Order in which [range h.Clients] yields the live clients. *)
Variable range_clients : gmap ptr bool → list ptr.

(** [Hub.Broadcast]: the bytes put on [h.broadcast], if marshalling works. *)
Definition Broadcast (message : WebSocketMessage) (excludeEmail : string)
  : option (list byte) :=
  let message := setUser excludeEmail message in
  match marshal message with
  | None => None          (* logged, nothing is sent *)
  | Some jsonMessage => Some jsonMessage
  end.

(** Body of the loop [for client := range h.Clients] in the broadcast case. *)
Definition offer (excludeEmail : string) (message : list byte)
    (h : t) (client : ptr) : outcome t :=
  match store h !! client with
  | None => Panic         (* nil or dangling pointer *)
  | Some c =>
      if negb (String.eqb excludeEmail "") && String.eqb (Email c) excludeEmail
      then Done h           (* Skipping sender *)
      else
        match trySend message (Send c) with
        | Sent ch =>
            Done (mk (Clients h) (<[client := setSend ch c]> (store h)))
        | SendPanics => Panic
        | NotReady =>
            (* default: send buffer full, assume disconnected *)
            bind (close (Send c)) (λ ch,
              Done (mk (delete client (Clients h))
                       (<[client := setSend ch c]> (store h))))
        end
  end.

Fixpoint forEach (body : t → ptr → outcome t) (l : list ptr) (h : t) : outcome t :=
  match l with
  | [] => Done h
  | client :: l => bind (body h client) (forEach body l)
  end.

(** One turn of the [select] in [Hub.Run]. *)
Definition Run_step (ev : event) (h : t) : outcome t :=
  match ev with
  | OnRegister client =>
      (* h.Clients[client] = true; the log line then reads client.Email *)
      match store h !! client with
      | None => Panic       (* nil pointer dereference *)
      | Some _ => Done (mk (<[client := true]> (Clients h)) (store h))
      end
  | OnUnregister client =>
      match Clients h !! client with
      | Some _ =>
          match store h !! client with
          | None => Panic
          | Some c =>
              bind (close (Send c)) (λ ch,
                Done (mk (delete client (Clients h))
                         (<[client := setSend ch c]> (store h))))
          end
      | None => Done h
      end
  | OnBroadcast message =>
      match decode message with
      | None => Done h      (* Error decoding message: continue *)
      | Some wsMessage =>
          let excludeEmail := User wsMessage in
          forEach (offer excludeEmail message) (range_clients (Clients h)) h
      end
  end.

(** A call of [Broadcast] followed by the turn of [Run] that receives what it
    sent on the unbuffered channel [h.broadcast]. *)
Definition processBroadcast (message : WebSocketMessage) (excludeEmail : string)
    (h : t) : outcome t :=
  match Broadcast message excludeEmail with
  | None => Done h
  | Some jsonMessage => Run_step (OnBroadcast jsonMessage) h
  end.

End hub.

(** Every live session is an allocated client whose queue is still open. *)
Definition live_open (h : t) : Prop :=
  ∀ client flag, Clients h !! client = Some flag →
    ∃ c, store h !! client = Some c ∧ closed (Send c) = false.

Definition full (c : chan) : bool := negb (length (buf c) <? cap c)%nat.

Definition excluded (excludeEmail : string) (c : Client) : bool :=
  negb (String.eqb excludeEmail "") && String.eqb (Email c) excludeEmail.

(** A client after a message was put on its queue, and after its queue was
    closed. *)
Definition enqueue (message : list byte) (c : Client) : Client :=
  setSend (mkChan (buf (Send c) ++ [message]) (cap (Send c)) false) c.

Definition closeQueue (c : Client) : Client :=
  setSend (mkChan (buf (Send c)) (cap (Send c)) true) c.

(** What one broadcast does to a live client with an open queue. *)
Definition afterOffer (excludeEmail : string) (message : list byte) (c : Client)
  : Client :=
  if excluded excludeEmail c then c
  else if full (Send c) then closeQueue c
  else enqueue message c.

Definition dropped (excludeEmail : string) (c : Client) : bool :=
  negb (excluded excludeEmail c) && full (Send c).

(** The decoder reads back the [user] field that [json.Marshal] wrote. *)
Definition codec_ok (marshal : WebSocketMessage → option (list byte))
    (decode : list byte → option WebSocketMessage) : Prop :=
  ∀ message jsonMessage, marshal message = Some jsonMessage →
    ∃ wsMessage, decode jsonMessage = Some wsMessage
                 ∧ User wsMessage = User message.

(** [range h.Clients] yields every live client exactly once. *)
Definition enumerates_clients (range_clients : gmap ptr bool → list ptr) : Prop :=
  ∀ m, range_clients m ≡ₚ (map_to_list m).*1.

(** A codec that carries the [user] field only, and the enumeration of the
    live set in the order of [map_to_list]. *)
Definition userMarshal (message : WebSocketMessage) : option (list byte) :=
  Some (list_byte_of_string (User message)).

Definition userDecode (jsonMessage : list byte) : option WebSocketMessage :=
  Some (mkMessage "" (AnyJSON jsonMessage) (string_of_list_byte jsonMessage)).

Definition keyOrder (m : gmap ptr bool) : list ptr := (map_to_list m).*1.

(** Sessions A, B and C of three users, with queues of capacity 2; in
    [hubFull] the queue of B is filled to capacity. *)
Definition session (email : string) (queued : list (list byte)) : Client :=
  mkClient email (mkChan queued 2 false).

Definition hubABC : t :=
  mk {[1%positive := true; 2%positive := true; 3%positive := true]}
     {[1%positive := session "a@example.org" [];
       2%positive := session "b@example.org" [];
       3%positive := session "c@example.org" []]}.

Definition hubFull : t :=
  mk {[1%positive := true; 2%positive := true; 3%positive := true]}
     {[1%positive := session "a@example.org" [];
       2%positive := session "b@example.org" [[x00]; [x01]];
       3%positive := session "c@example.org" []]}.

Definition pingAll : WebSocketMessage := mkMessage "sync" (AnyJSON []) "".

End Hub.

(** ** Request handling around the merge *)

(** What a handler writes to its [http.ResponseWriter]. *)
Inductive response : Type :=
| HttpError (msg : string) (code : nat)
| HttpSuccess (data : KanbanData).   (* 200 {"status":"success","data":data} *)

Definition statusCode (r : response) : nat :=
  match r with
  | HttpError _ code => code
  | HttpSuccess _ => 200%nat
  end.

Definition StatusBadRequest : nat := 400.
Definition StatusUnauthorized : nat := 401.
Definition StatusInternalServerError : nat := 500.

(** The state a handler acts on: the database behind [DataService] and the
    messages it has put on the hub's [broadcast] channel. *)
Record world (Store : Type) : Type := mkWorld {
  db : Store;
  broadcast : list (list byte)
}.
Arguments mkWorld {Store} db broadcast.
Arguments db {Store} w.
Arguments broadcast {Store} w.

(** ** The merge engine of package [handlers] ([handlers/data.go]) *)

Module Handlers.
Section merge.
(** Order in which [range serverColumns] yields the entries of the map. *)
Variable range_order : gmap string Column.t → list (string * Column.t).

Definition mergeKanbanData (serverData clientData : KanbanData) : KanbanData :=
  let resultColumns : list Column.t := [] in
  let resultTasks : list Task.t := [] in
  let resultCollapsed := UnassignedCollapsed clientData in
  (* Create maps for faster lookups *)
  let serverColumns := populateColumns (Columns serverData) in
  let clientColumns := populateColumns (Columns clientData) in
  (* Track all task IDs across both client and server *)
  let allServerTaskIDs := recordTaskIDs ∅ (Tasks serverData) in
  let allServerTaskIDs :=
    if (0 <? length (UnassignedTasks serverData))%nat
    then recordTaskIDs allServerTaskIDs (UnassignedTasks serverData)
    else allServerTaskIDs in
  let allClientTaskIDs := recordTaskIDs ∅ (Tasks clientData) in
  let allClientTaskIDs :=
    if (0 <? length (UnassignedTasks clientData))%nat
    then recordTaskIDs allClientTaskIDs (UnassignedTasks clientData)
    else allClientTaskIDs in
  (* Merge columns - prioritize client columns *)
  let resultColumns := resultColumns ++ Columns clientData in
  let resultColumns :=
    addServerColumns clientColumns resultColumns (range_order serverColumns) in
  (* Tasks *)
  let resultTasks := addClientTasks resultTasks (Tasks clientData) in
  let resultTasks := addClientUnassigned resultTasks (UnassignedTasks clientData) in
  let resultTasks := addServerTasks allClientTaskIDs resultTasks (Tasks serverData) in
  let resultTasks :=
    addServerUnassigned allClientTaskIDs resultTasks (UnassignedTasks serverData) in
  let resultTasks := finalPass resultTasks in
  mkKanbanData resultColumns resultTasks [] resultCollapsed.

(** [SyncData].  The request, the database and [encoding/json] are the
    handler's environment. *)
Variable marshal : Hub.WebSocketMessage → option (list byte).
Variables Request Store error : Type.
(** [r.Context().Value(emailContextKey).(string)] *)
Variable contextEmail : Request → option string.
(** [json.NewDecoder(r.Body).Decode(&clientData)] *)
Variable decodeBody : Request → option KanbanData.
Variable GetUserData : Store → string → error + KanbanData.
Variable SaveUserData : Store → string → KanbanData → Store * option error.

Definition SyncData (r : Request) (w : world Store) : world Store * response :=
  match contextEmail r with
  | None => (w, HttpError "user not found" StatusUnauthorized)
  | Some email =>
      (* Parse request body *)
      match decodeBody r with
      | None => (w, HttpError "Invalid request format" StatusBadRequest)
      | Some clientData =>
          (* Get server data *)
          match GetUserData (db w) email with
          | inl _ => (w, HttpError "Server error" StatusInternalServerError)
          | inr serverData =>
              (* Merge client and server data *)
              let mergedData := mergeKanbanData serverData clientData in
              (* Save merged data to server *)
              match SaveUserData (db w) email mergedData with
              | (db', Some _) =>
                  (mkWorld db' (broadcast w),
                   HttpError "Failed to save data" StatusInternalServerError)
              | (db', None) =>
                  (* Broadcast merged data to ALL connected clients *)
                  let message := Hub.mkMessage "sync" (Hub.AnyKanban mergedData) "" in
                  let sent :=
                    match Hub.Broadcast marshal message "" with
                    | Some jsonMessage => broadcast w ++ [jsonMessage]
                    | None => broadcast w
                    end in
                  (mkWorld db' sent, HttpSuccess mergedData)
              end
          end
      end
  end.

End merge.
Arguments SyncData range_order marshal {Request Store error}
  contextEmail decodeBody GetUserData SaveUserData r w.
End Handlers.

(** [strings.Split(s, " ")]: the pieces between the spaces of [s]. *)
Fixpoint Split (s : string) : list string :=
  match s with
  | EmptyString => [EmptyString]
  | String c rest =>
      if Ascii.eqb c " "%char then EmptyString :: Split rest
      else
        match Split rest with
        | [] => [String c EmptyString]
        | piece :: pieces => String c piece :: pieces
        end
  end.

(** ** The merge engine of package [main] ([handlers.go]) *)

Module Main.
Section merge.
Variable range_order : gmap string Column.t → list (string * Column.t).

(** In this package the loops that record the ids of a legacy list first
    clear the column id of the loop variable, a copy of the element. *)
Definition recordUnassignedIDs (ids : gmap string bool) (tasks : list Task.t)
  : gmap string bool :=
  foldl (λ m task,
           let task := Task.setColumnID None task in
           <[Task.ID task := true]> m) ids tasks.

Definition mergeKanbanData (serverData clientData : KanbanData) : KanbanData :=
  let resultColumns : list Column.t := [] in
  let resultTasks : list Task.t := [] in
  let resultCollapsed := UnassignedCollapsed clientData in
  let serverColumns := populateColumns (Columns serverData) in
  let clientColumns := populateColumns (Columns clientData) in
  let allServerTaskIDs := recordTaskIDs ∅ (Tasks serverData) in
  let allServerTaskIDs :=
    if (0 <? length (UnassignedTasks serverData))%nat
    then recordUnassignedIDs allServerTaskIDs (UnassignedTasks serverData)
    else allServerTaskIDs in
  let allClientTaskIDs := recordTaskIDs ∅ (Tasks clientData) in
  let allClientTaskIDs :=
    if (0 <? length (UnassignedTasks clientData))%nat
    then recordUnassignedIDs allClientTaskIDs (UnassignedTasks clientData)
    else allClientTaskIDs in
  (* Add client columns first, one append per column *)
  let resultColumns :=
    foldl (λ acc col, acc ++ [col]) resultColumns (Columns clientData) in
  let resultColumns :=
    addServerColumns clientColumns resultColumns (range_order serverColumns) in
  let resultTasks := addClientTasks resultTasks (Tasks clientData) in
  let resultTasks := addClientUnassigned resultTasks (UnassignedTasks clientData) in
  let resultTasks := addServerTasks allClientTaskIDs resultTasks (Tasks serverData) in
  let resultTasks :=
    addServerUnassigned allClientTaskIDs resultTasks (UnassignedTasks serverData) in
  let resultTasks := finalPass resultTasks in
  mkKanbanData resultColumns resultTasks [] resultCollapsed.

Variable marshal : Hub.WebSocketMessage → option (list byte).
Variables Request Store error : Type.
(** [r.Header.Get("Authorization")] *)
Variable authorization : Request → string.
(** [err.Error()] *)
Variable errorText : error → string.
Variable VerifyJWT : string → error + string.
Variable decodeBody : Request → option KanbanData.
Variable GetUserData : Store → string → error + KanbanData.
Variable SaveUserData : Store → string → KanbanData → Store * option error.

(** [DataHandler.authenticate]: the email of the bearer, or the text of the
    error. *)
Definition authenticate (r : Request) : string + string :=
  let authHeader := authorization r in
  if String.eqb authHeader "" then inl "missing authorization header"
  else
    match Split authHeader with
    | [scheme; tokenString] =>
        if negb (String.eqb scheme "Bearer") then inl "invalid authorization format"
        else
          match VerifyJWT tokenString with
          | inl err => inl ("invalid token: " ++ errorText err)%string
          | inr email => inr email
          end
    | _ => inl "invalid authorization format"
    end.

Definition SyncData (r : Request) (w : world Store) : world Store * response :=
  (* Authenticate request *)
  match authenticate r with
  | inl errText => (w, HttpError errText StatusUnauthorized)
  | inr email =>
      match decodeBody r with
      | None => (w, HttpError "Invalid request format" StatusBadRequest)
      | Some clientData =>
          match GetUserData (db w) email with
          | inl _ => (w, HttpError "Server error" StatusInternalServerError)
          | inr serverData =>
              let mergedData := mergeKanbanData serverData clientData in
              match SaveUserData (db w) email mergedData with
              | (db', Some _) =>
                  (mkWorld db' (broadcast w),
                   HttpError "Failed to save data" StatusInternalServerError)
              | (db', None) =>
                  let message := Hub.mkMessage "sync" (Hub.AnyKanban mergedData) "" in
                  let sent :=
                    match Hub.Broadcast marshal message "" with
                    | Some jsonMessage => broadcast w ++ [jsonMessage]
                    | None => broadcast w
                    end in
                  (mkWorld db' sent, HttpSuccess mergedData)
              end
          end
      end
  end.

End merge.
Arguments authenticate {Request error} authorization errorText VerifyJWT r.
Arguments SyncData range_order marshal {Request Store error}
  authorization errorText VerifyJWT decodeBody GetUserData SaveUserData r w.
End Main.

(** ** Vocabulary of the statements *)

(** The unassigned normalisation: a column id that is the empty string or the
    token ["unassigned"] becomes absent. *)
Definition normalizeTask (task : Task.t) : Task.t :=
  match Task.ColumnID task with
  | Some columnIDVal =>
      if String.eqb columnIDVal "" || String.eqb columnIDVal "unassigned"
      then Task.setColumnID None task
      else task
  | None => task
  end.

(** A snapshot with the normalisation applied to its task list. *)
Definition normalizeData (data : KanbanData) : KanbanData :=
  mkKanbanData (Columns data) (map normalizeTask (Tasks data))
               (UnassignedTasks data) (UnassignedCollapsed data).

(** Equality of snapshots modulo the normalisation. *)
Definition equalModuloNormalization (a b : KanbanData) : Prop :=
  normalizeData a = normalizeData b.

(** Ids of the tasks a snapshot carries in its main and legacy lists. *)
Definition taskIDs (data : KanbanData) : list string :=
  map Task.ID (Tasks data) ++ map Task.ID (UnassignedTasks data).

Definition columnIDs (data : KanbanData) : list string :=
  map Column.ID (Columns data).

(** The last column of a list that carries a given id. *)
Definition lastWithID (id : string) (cols : list Column.t) : option Column.t :=
  last (filter (λ col, Column.ID col = id) cols).

(** The two packages that carry a copy of the merge engine. *)
Inductive package : Type :=
| PkgHandlers   (* handlers/data.go *)
| PkgMain.      (* handlers.go *)

Definition mergeKanbanData (pkg : package)
    (range_order : gmap string Column.t → list (string * Column.t))
    (serverData clientData : KanbanData) : KanbanData :=
  match pkg with
  | PkgHandlers => Handlers.mergeKanbanData range_order serverData clientData
  | PkgMain => Main.mergeKanbanData range_order serverData clientData
  end.

(** An enumeration of a map lists each of its entries exactly once. *)
Definition enumerates {V : Type}
    (range_order : gmap string V → list (string * V)) : Prop :=
  ∀ m, range_order m ≡ₚ map_to_list m.

(** The enumeration of a map in the order of stdpp's [map_to_list]. *)
Definition mapOrder {V : Type} (m : gmap string V) : list (string * V) :=
  map_to_list m.

(** The columns a merge takes over from the server. *)
Definition serverOnlyColumns
    (range_order : gmap string Column.t → list (string * Column.t))
    (serverData clientData : KanbanData) : list Column.t :=
  map snd (filter (λ it, it.1 ∉ columnIDs clientData)
             (range_order (populateColumns (Columns serverData)))).

(** Sample data. *)
Definition sampleTask (id : string) (columnID : option string) (deleted : bool) : Task.t :=
  Task.mk id "title" "" "" None columnID deleted deleted.

Definition sampleColumn (id title : string) (deleted : bool) : Column.t :=
  Column.mk id title 0 deleted deleted.

Definition board (columns : list Column.t) (tasks unassigned : list Task.t) : KanbanData :=
  mkKanbanData columns tasks unassigned false.

(** A snapshot that still carries a legacy list. *)
Definition legacySnapshot : KanbanData :=
  board [] [] [sampleTask "t1" None false].

(** A snapshot without legacy list, one task of which has an empty column id. *)
Definition tidySnapshot : KanbanData :=
  board [sampleColumn "c1" "Todo" false]
        [sampleTask "t1" (Some "c1") false; sampleTask "t2" (Some "") false] [].

(** Scenario A: the server knows [t1], the client does not. *)
Definition serverA : KanbanData := board [] [sampleTask "t1" (Some "c1") false] [].
Definition clientA : KanbanData := board [] [sampleTask "t9" None false] [].

(** Scenario A with [t1] in the server's legacy list instead. *)
Definition legacyServerA : KanbanData :=
  board [] [] [sampleTask "t1" (Some "c1") false].

(** Scenario B on a task the server also has. *)
Definition serverB : KanbanData :=
  board [sampleColumn "c1" "Server" false] [sampleTask "t2" (Some "c1") false] [].
Definition clientB : KanbanData :=
  board [sampleColumn "c1" "Client" false] [sampleTask "t2" (Some "") false] [].

(** A tombstone on the server, a stale live copy on the client. *)
Definition serverD : KanbanData := board [] [sampleTask "t1" (Some "c1") true] [].
Definition clientD : KanbanData := board [] [sampleTask "t1" (Some "c1") false] [].

(** The other way round: the client deletes a task the server holds live. *)
Definition staleServerD : KanbanData := clientD.
Definition deletingClientD : KanbanData := serverD.

(** Two server columns under one id. *)
Definition serverE : KanbanData :=
  board [sampleColumn "a" "first" false; sampleColumn "a" "second" false] [] [].
Definition clientE : KanbanData := board [] [] [].

(** A small environment for [SyncData]: requests that carry the caller's
    email as context value and the decoded body; a database that is a map from emails to boards, with a save
    operation that fails and one that works. *)
Definition sampleRequest : Type := option string * option KanbanData.

Definition sampleGet (store : gmap string KanbanData) (email : string)
  : unit + KanbanData :=
  inr (default (mkKanbanData [] [] [] true) (store !! email)).

Definition failingSave (store : gmap string KanbanData) (email : string)
    (data : KanbanData) : gmap string KanbanData * option unit :=
  (store, Some tt).

Definition workingSave (store : gmap string KanbanData) (email : string)
    (data : KanbanData) : gmap string KanbanData * option unit :=
  (<[email := data]> store, None).

Definition sampleWorld : world (gmap string KanbanData) :=
  mkWorld {["a@example.org" := serverA]} [].

(** ** Connections: [HandleWebSocket] and the pumps of a client
    ([handlers/data.go], [services] websocket file) *)

Module Conn.
Import Hub.

(** [make(chan []byte, 256)] *)
Definition sendBuffer : nat := 256.

(** The [Client] that [HandleWebSocket] builds for an upgraded connection. *)
Definition newClient (email : string) : Client :=
  mkClient email (mkChan [] sendBuffer false).

(** How a call of [HandleWebSocket] ends. *)
Inductive served : Type :=
| Refused (r : response)                 (* no email in the request context *)
| NotUpgraded                            (* [upgrader.Upgrade] failed *)
| Serving (client : ptr) (o : outcome t). (* registered, pumps started *)

Section conn.
Variable unmarshal : list byte → option WebSocketMessage.   (* json.Unmarshal *)
Variable marshal : WebSocketMessage → option (list byte).
Variable decode : list byte → option WebSocketMessage.
Variable range_clients : gmap ptr bool → list ptr.

(** [HandleWebSocket] of package [handlers]: [&services.Client{...}] is a
    new address; [h.hub.Register(client)] returns when [Run] has taken the
    client from the [register] channel. *)
Definition HandleWebSocket (contextEmail : option string) (upgraded : bool) (h : t)
  : served :=
  match contextEmail with
  | None => Refused (HttpError "user not found" StatusUnauthorized)
  | Some email =>
      if upgraded then
        let client := fresh (dom (store h)) in
        let h := mk (Clients h) (<[client := newClient email]> (store h)) in
        Serving client (Run_step decode range_clients (OnRegister client) h)
      else NotUpgraded
  end.

(** What [ReadMessage] hands to the read pump. *)
Inductive inbound : Type :=
| ReadError
| Message (message : list byte).

(** How one turn of a pump's loop ends. *)
Inductive pumped : Type :=
| Continue (h : t)
| Return (h : t)
| Blocks
| Panics.

Definition afterHub (o : outcome t) : pumped :=
  match o with
  | Done h => Continue h
  | Panic => Panics
  end.

(** One turn of the loop of [ReadPump] for the client at address [client];
    [now] is [time.Now().Format(time.RFC3339)] and [timestamp] builds the
    pong payload [map[string]string{"timestamp": now}]. *)
Definition ReadPump_step (now : string) (timestamp : string → any)
    (client : ptr) (input : inbound) (h : t) : pumped :=
  match store h !! client with
  | None => Panics
  | Some c =>
      match input with
      | ReadError =>
          (* break; deferred: c.Hub.Unregister(c); c.Conn.Close() *)
          match Run_step decode range_clients (OnUnregister client) h with
          | Done h => Return h
          | Panic => Panics
          end
      | Message message =>
          match unmarshal message with
          | None => Continue h        (* logged *)
          | Some wsMessage =>
              (* Set the user field to the client's email *)
              let wsMessage := setUser (Email c) wsMessage in
              if String.eqb (Type_ wsMessage) "ping" then
                let pongMessage := mkMessage "pong" (timestamp now) "" in
                match marshal pongMessage with
                | Some pongJSON =>
                    (* c.Send <- pongJSON *)
                    match trySend pongJSON (Send c) with
                    | Sent ch =>
                        Continue (mk (Clients h) (<[client := setSend ch c]> (store h)))
                    | NotReady => Blocks
                    | SendPanics => Panics
                    end
                | None => Continue h
                end
              else
                match marshal wsMessage with
                | None => Continue h    (* logged *)
                | Some jsonMessage =>
                    (* c.Hub.broadcast <- jsonMessage *)
                    afterHub (Run_step decode range_clients (OnBroadcast jsonMessage) h)
                end
          end
      end
  end.

End conn.

(** Frames the write pump puts on the connection. *)
Inductive frame : Type :=
| TextMessage (payload : list byte)
| CloseMessage
| PingMessage.

(** The cases of the [select] in [WritePump]. *)
Inductive wake : Type :=
| FromSend      (* <-c.Send *)
| FromTicker.   (* <-ticker.C *)

Record written : Type := mkWritten {
  frames : list frame;
  queue : chan;
  running : bool      (* [false]: the pump returned *)
}.

Definition newline : byte := x0a.

(** [w.Write(message)] followed, for each further queued message, by
    [w.Write("\n")] and [w.Write(<-c.Send)]. *)
Definition batch (message : list byte) (queued : list (list byte)) : list byte :=
  foldl (λ w next, w ++ [newline] ++ next) message queued.

(** One turn of the loop of [WritePump] on the queue [c]; [nextWriterOk],
    [closeOk] and [pingOk] say whether the connection accepts the writes.
    [None]: the chosen case of the [select] is not ready. *)
Definition WritePump_step (nextWriterOk closeOk pingOk : bool)
    (case : wake) (c : chan) : option written :=
  match case with
  | FromSend =>
      match buf c with
      | [] =>
          if closed c
          then Some (mkWritten [CloseMessage] c false)  (* the hub closed the channel *)
          else None
      | message :: queued =>
          if negb nextWriterOk
          then Some (mkWritten [] (mkChan queued (cap c) (closed c)) false)
          else
            (* n := len(c.Send): the messages queued at this moment *)
            let payload := batch message queued in
            let c := mkChan [] (cap c) (closed c) in
            if closeOk
            then Some (mkWritten [TextMessage payload] c true)
            else Some (mkWritten [] c false)
      end
  | FromTicker =>
      if pingOk
      then Some (mkWritten [PingMessage] c true)
      else Some (mkWritten [] c false)
  end.

(** The pieces of a payload between its newlines. *)
Fixpoint lines (payload : list byte) : list (list byte) :=
  match payload with
  | [] => [[]]
  | b :: rest =>
      if Byte.eqb b newline then [] :: lines rest
      else
        match lines rest with
        | [] => [[b]]
        | line :: more => (b :: line) :: more
        end
  end.

(** The hub with its sessions, as it evolves: connections come in through
    [HandleWebSocket], [Run] takes unregistrations and broadcasts, write pumps
    take messages off their queue and read pumps put pongs on it. *)
Inductive evolves (decode : list byte → option WebSocketMessage)
    (range_clients : gmap ptr bool → list ptr) : t → t → Prop :=
| evolves_connect email h client h' :
    HandleWebSocket decode range_clients (Some email) true h
    = Serving client (Done h') →
    evolves decode range_clients h h'
| evolves_unregister client h h' :
    Run_step decode range_clients (OnUnregister client) h = Done h' →
    evolves decode range_clients h h'
| evolves_broadcast message h h' :
    Run_step decode range_clients (OnBroadcast message) h = Done h' →
    evolves decode range_clients h h'
| evolves_write client c ok1 ok2 ok3 case w h :
    store h !! client = Some c →
    WritePump_step ok1 ok2 ok3 case (Send c) = Some w →
    evolves decode range_clients h
      (mk (Clients h) (<[client := setSend (queue w) c]> (store h)))
| evolves_read unmarshal marshal now timestamp client input h h' :
    ReadPump_step unmarshal marshal decode range_clients now timestamp
      client input h = Continue h' →
    evolves decode range_clients h h'
| evolves_read_exit unmarshal marshal now timestamp client input h h' :
    ReadPump_step unmarshal marshal decode range_clients now timestamp
      client input h = Return h' →
    evolves decode range_clients h h'.

(** The states the hub can be in after it was created by [NewHub]. *)
Definition reachable (decode : list byte → option WebSocketMessage)
    (range_clients : gmap ptr bool → list ptr) (h : t) : Prop :=
  rtc (evolves decode range_clients) (NewHub ∅) h.

(** The queue of every client holds at most [sendBuffer] messages. *)
Definition bounded (h : t) : Prop :=
  ∀ client c, store h !! client = Some c →
    cap (Send c) = sendBuffer ∧ (length (buf (Send c)) ≤ sendBuffer)%nat.

(** What a turn of [Run] does to the queue of a client: nothing, or it
    closes it, or it appends one message where there is room. *)
Definition queue_moves (c c' : Client) : Prop :=
  Email c' = Email c ∧ cap (Send c') = cap (Send c)
  ∧ (c' = c
     ∨ (closed (Send c) = false ∧ Send c' = mkChan (buf (Send c)) (cap (Send c)) true)
     ∨ (closed (Send c) = false ∧ (length (buf (Send c)) < cap (Send c))%nat
        ∧ ∃ message, Send c' = mkChan (buf (Send c) ++ [message]) (cap (Send c)) false)).

(** Successive broadcast turns of [Run], with nothing else in between. *)
Fixpoint Run_broadcasts (decode : list byte → option WebSocketMessage)
    (range_clients : gmap ptr bool → list ptr)
    (messages : list (list byte)) (h : t) : outcome t :=
  match messages with
  | [] => Done h
  | message :: messages =>
      bind (Run_step decode range_clients (OnBroadcast message) h)
           (Run_broadcasts decode range_clients messages)
  end.

End Conn.

(** A hub with one session, as [HandleWebSocket] leaves it. *)
Definition hubOne : Hub.t :=
  Hub.mk {[1%positive := true]} {[1%positive := Conn.newClient "a@example.org"]}.

(** An unmarshaller that reads every payload as a ping, and a pong payload
    that is the bare timestamp. *)
Definition readAsPing (message : list byte) : option Hub.WebSocketMessage :=
  Some (Hub.mkMessage "ping" (Hub.AnyJSON message) "").

Definition stamp (now : string) : Hub.any := Hub.AnyJSON (list_byte_of_string now).

(** The board [GetUserData] returns for a user without stored data, and the
    board of a client that has nothing yet. *)
Definition emptyData : KanbanData := mkKanbanData [] [] [] true.

Definition blankClient (collapsed : bool) : KanbanData :=
  mkKanbanData [] [] [] collapsed.

(** A server board with a legacy list and a client board that shares one task
    with it. *)
Definition serverM : KanbanData :=
  board [sampleColumn "c1" "Todo" false; sampleColumn "c2" "Done" false]
        [sampleTask "t1" (Some "c1") false; sampleTask "t2" (Some "unassigned") false]
        [sampleTask "t3" (Some "c2") true].
Definition clientM : KanbanData :=
  board [sampleColumn "c1" "To do" false]
        [sampleTask "t1" (Some "") false; sampleTask "t4" (Some "c1") false] [].

(** ** Authentication ([services] auth file, [AuthHandler], [AuthMiddleware]) *)

(** [strings.Contains(s, sub)] and [strings.Join(pieces, " ")]. *)
Fixpoint Contains (s sub : string) : bool :=
  match s with
  | EmptyString => String.prefix sub EmptyString
  | String c rest => String.prefix sub s || Contains rest sub
  end.

Fixpoint Join (pieces : list string) : string :=
  match pieces with
  | [] => EmptyString
  | [piece] => piece
  | piece :: pieces => (piece ++ " " ++ Join pieces)%string
  end.

Definition lineFeed : string := String (ascii_of_nat 10) EmptyString.

Module AuthService.

Record SMTPConfig : Type := mkSMTP {
  Host : string;
  Port : string;
  Username : string;
  Password : string;
  From : string
}.

(** The service's state: the pending magic-link tokens and the mail
    settings.  The JWT secret is only used inside the JWT library calls. *)
Record t : Type := mk {
  tokens : gmap string string;     (* token -> email *)
  smtpConfig : SMTPConfig
}.

(** The arguments of [smtp.SendMail]. *)
Record mail : Type := mkMail {
  addr : string;
  from : string;
  to : string;
  message : string
}.

Inductive mailed : Type :=
| NotConfigured                (* "SMTP not fully configured" *)
| SendFailed (m : mail)        (* "failed to send email: ..." *)
| Delivered (m : mail).

Section service.
(** [crypto/rand] and [net/smtp]: the token drawn by [generateSecureToken]
    (or the text of its error), and whether [smtp.SendMail] accepts a mail. *)
Variable sendMail : mail → bool.

Definition sendMagicLinkEmail (s : t) (to magicLink : string) : mailed :=
  let cfg := smtpConfig s in
  if String.eqb (Host cfg) "" || String.eqb (Port cfg) ""
     || String.eqb (Username cfg) "" || String.eqb (Password cfg) ""
  then NotConfigured
  else
    let from := if String.eqb (From cfg) "" then Username cfg else From cfg in
    let subject := "Your Login Link for Todo App" in
    let body :=
      ("Click the link below to log in to your Todo App:" ++ lineFeed ++ lineFeed
       ++ magicLink ++ lineFeed ++ lineFeed
       ++ "If you didn't request this link, you can safely ignore this email.")%string in
    let message :=
      ("From: " ++ from ++ lineFeed ++ "To: " ++ to ++ lineFeed
       ++ "Subject: " ++ subject ++ lineFeed ++ lineFeed ++ body)%string in
    let addr := (Host cfg ++ ":" ++ Port cfg)%string in
    let m := mkMail addr from to message in
    if sendMail m then Delivered m else SendFailed m.

(** [GenerateMagicLink]: the new state, the link or the error text, and what
    became of the mail if one was attempted. *)
Definition GenerateMagicLink (drawn : string + string) (s : t)
    (email baseURL : string) : t * (string + string) * option mailed :=
  match drawn with
  | inl err => (s, inl ("failed to generate token: " ++ err)%string, None)
  | inr token =>
      (* Store the token -> email mapping *)
      let s := mk (<[token := email]> (tokens s)) (smtpConfig s) in
      let magicLink := (baseURL ++ "/api/auth/magic-link?token=" ++ token)%string in
      let sent :=
        if negb (String.eqb (Host (smtpConfig s)) "")
        then Some (sendMagicLinkEmail s email magicLink)   (* an error is only logged *)
        else None in
      (s, inr magicLink, sent)
  end.

End service.

(** [VerifyMagicLinkToken]: one-time use. *)
Definition VerifyMagicLinkToken (token : string) (s : t) : t * (string + string) :=
  match tokens s !! token with
  | None => (s, inl "invalid or expired token")
  | Some email => (mk (delete token (tokens s)) (smtpConfig s), inr email)
  end.

End AuthService.

Module AuthHandler.

(** What the authentication endpoints answer. *)
Inductive reply : Type :=
| Error (msg : string) (code : nat)       (* http.Error *)
| LoginLink (magicLink : string)          (* 200, "Magic link has been sent" *)
| Redirect (url : string) (code : nat)    (* http.Redirect *)
| TokenValid (email : string).            (* 200, {"email":..,"status":"valid"} *)

Definition StatusFound : nat := 302.

Section handlers.
Variable sendMail : AuthService.mail → bool.
Variable error : Type.
Variable CreateJWT : string → error + string.
Variable VerifyJWT : string → error + string.

(** [Login]: [body] is the [email] field of the decoded request, [tls] is
    [r.TLS != nil] and [host] is [r.Host]. *)
Definition Login (drawn : string + string) (body : option string) (tls : bool)
    (host : string) (s : AuthService.t)
  : AuthService.t * reply * option AuthService.mailed :=
  match body with
  | None => (s, Error "Invalid request format" StatusBadRequest, None)
  | Some email =>
      (* Validate email *)
      if String.eqb email "" || negb (Contains email "@")
      then (s, Error "Invalid email address" StatusBadRequest, None)
      else
        let scheme := if tls then "https" else "http" in
        let baseURL := (scheme ++ "://" ++ host)%string in
        match AuthService.GenerateMagicLink sendMail drawn s email baseURL with
        | (s, inl _, sent) =>
            (s, Error "Failed to generate login link" StatusInternalServerError, sent)
        | (s, inr magicLink, sent) => (s, LoginLink magicLink, sent)
        end
  end.

(** [HandleMagicLink]: [token] is [r.URL.Query().Get("token")]. *)
Definition HandleMagicLink (token : string) (s : AuthService.t)
  : AuthService.t * reply :=
  if String.eqb token "" then (s, Error "Missing token" StatusBadRequest)
  else
    match AuthService.VerifyMagicLinkToken token s with
    | (s, inl _) => (s, Error "Invalid or expired token" StatusBadRequest)
    | (s, inr email) =>
        match CreateJWT email with
        | inl _ => (s, Error "Authentication error" StatusInternalServerError)
        | inr jwtToken =>
            let redirectURL := ("/?token=" ++ jwtToken ++ "&email=" ++ email)%string in
            (s, Redirect redirectURL StatusFound)
        end
    end.

(** [VerifyToken]: [authHeader] is [r.Header.Get("Authorization")]. *)
Definition VerifyToken (authHeader : string) : reply :=
  if String.eqb authHeader "" then Error "Missing authorization header" StatusUnauthorized
  else
    match Split authHeader with
    | [scheme; tokenString] =>
        if negb (String.eqb scheme "Bearer")
        then Error "Invalid authorization format" StatusUnauthorized
        else
          match VerifyJWT tokenString with
          | inl _ => Error "Invalid token" StatusUnauthorized
          | inr email => TokenValid email
          end
    | _ => Error "Invalid authorization format" StatusUnauthorized
    end.

(** [AuthMiddleware.Auth]: either the answer it writes itself, or the email
    it puts into the context of the request it passes on to [next].
    [badVerb] is what [fmt.Sprintf] makes of an error under the verb [%w]. *)
Definition Auth (badVerb : error → string) (authHeader : string) : reply + string :=
  if String.eqb authHeader "" then inl (Error "missing authorization header" StatusUnauthorized)
  else
    match Split authHeader with
    | [scheme; tokenString] =>
        if negb (String.eqb scheme "Bearer")
        then inl (Error "invalid authorization format" StatusUnauthorized)
        else
          match VerifyJWT tokenString with
          | inl err =>
              inl (Error ("invalid token: " ++ badVerb err)%string StatusUnauthorized)
          | inr email => inr email
          end
    | _ => inl (Error "invalid authorization format" StatusUnauthorized)
    end.

End handlers.
End AuthHandler.

(** A string without a space. *)
Definition spaceless (s : string) : Prop := Contains s " " = false.

(** Sample mail settings and service state. *)
Definition sampleSMTP : AuthService.SMTPConfig :=
  AuthService.mkSMTP "smtp.example.org" "587" "mailer" "secret" "".

Definition sampleAuth : AuthService.t := AuthService.mk ∅ sampleSMTP.

(** ** Storage ([database] package) and the read endpoint *)

Module DataService.

(** The two tables of [todo.db]: [users] (primary key [email]) and
    [user_data] (primary key [email], column [data]). *)
Record t : Type := mk {
  users : gset string;
  user_data : gmap string string
}.

(** The statements the service sends to the database. *)
Inductive stmt : Type :=
| SelectData      (* SELECT data FROM user_data WHERE email = ? *)
| Begin
| SelectUser      (* SELECT email FROM users WHERE email = ? *)
| InsertUser
| UpsertData
| Commit.

(** The errors of the service, by the place that wraps them. *)
Inductive failure : Type :=
| FailedToQueryUserData
| FailedToUnmarshalUserData
| FailedToMarshalUserData
| FailedToBeginTransaction
| FailedToQueryUser
| FailedToInsertUser
| FailedToUpsertUserData
| FailedToCommitTransaction.

Section service.
(** [encoding/json] on boards, and the statements the driver fails. *)
Variable marshal : KanbanData → option string.
Variable unmarshal : string → option KanbanData.
Variable fails : stmt → bool.

Definition GetUserData (d : t) (email : string) : failure + KanbanData :=
  if fails SelectData then inl FailedToQueryUserData
  else
    match user_data d !! email with
    | None =>
        (* sql.ErrNoRows: return empty data if user has no data yet *)
        inr (mkKanbanData [] [] [] true)
    | Some dataStr =>
        match unmarshal dataStr with
        | None => inl FailedToUnmarshalUserData
        | Some data => inr data
        end
    end.

(** [SaveUserData]: everything after [Begin] happens in a transaction that
    the deferred [tx.Rollback()] undoes unless [Commit] went through. *)
Definition SaveUserData (d : t) (email : string) (data : KanbanData)
  : t * option failure :=
  match marshal data with
  | None => (d, Some FailedToMarshalUserData)
  | Some dataJSON =>
      if fails Begin then (d, Some FailedToBeginTransaction)
      else if fails SelectUser then (d, Some FailedToQueryUser)
      else
        let known := bool_decide (email ∈ users d) in
        if negb known && fails InsertUser then (d, Some FailedToInsertUser)
        else
          let tx_users := if known then users d else {[email]} ∪ users d in
          if fails UpsertData then (d, Some FailedToUpsertUserData)
          else
            let tx_data := <[email := dataJSON]> (user_data d) in
            if fails Commit then (d, Some FailedToCommitTransaction)
            else (mk tx_users tx_data, None)
  end.

End service.

(** The foreign key of [user_data]: every stored board belongs to a row of
    [users]. *)
Definition foreign_key (d : t) : Prop :=
  ∀ email, is_Some (user_data d !! email) → email ∈ users d.

(** [json.Unmarshal] reads back what [json.Marshal] wrote. *)
Definition json_ok (marshal : KanbanData → option string)
    (unmarshal : string → option KanbanData) : Prop :=
  ∀ data dataJSON, marshal data = Some dataJSON → unmarshal dataJSON = Some data.

Definition noFault (s : stmt) : bool := false.

End DataService.

Module DataHandler.
Section handler.
Variables Request Store error : Type.
Variable contextEmail : Request → option string.
Variable GetUserData : Store → string → error + KanbanData.

(** [GetData] of package [handlers]: retrieves user data without saving
    client data. *)
Definition GetData (r : Request) (w : world Store) : world Store * response :=
  match contextEmail r with
  | None => (w, HttpError "user not found" StatusUnauthorized)
  | Some email =>
      match GetUserData (db w) email with
      | inl _ => (w, HttpError "Server error" StatusInternalServerError)
      | inr serverData => (w, HttpSuccess serverData)
      end
  end.

End handler.
Arguments GetData {Request Store error} contextEmail GetUserData r w.
End DataHandler.

#[global] Instance Column_eq_dec : EqDecision Column.t.
Proof. solve_decision. Defined.

#[global] Instance Task_eq_dec : EqDecision Task.t.
Proof. solve_decision. Defined.

#[global] Instance KanbanData_eq_dec : EqDecision KanbanData.
Proof. solve_decision. Defined.

(** A board codec for the samples: it can only write the merged board of
    Scenario A, as the text ["A"]. *)
Definition boardA : KanbanData :=
  Handlers.mergeKanbanData mapOrder serverA clientA.

Definition sampleBoardText (data : KanbanData) : option string :=
  if bool_decide (data = boardA) then Some "A" else None.

Definition sampleBoardRead (dataStr : string) : option KanbanData :=
  if String.eqb dataStr "A" then Some boardA else None.

(** ** Loops as list operations *)

Section loops.
Context {A B : Type}.

Lemma foldl_snoc_map (f : A → B) (l : list A) (acc : list B) :
  foldl (λ acc x, acc ++ [f x]) acc l = acc ++ map f l.
Proof.
  revert acc. induction l as [|x l IH]; intros acc; simpl.
  - by rewrite app_nil_r.
  - by rewrite IH, <- app_assoc.
Qed.

Lemma foldl_snoc_filter_map (p : A → bool) (f : A → B) (l : list A) (acc : list B) :
  foldl (λ acc x, if p x then acc ++ [f x] else acc) acc l
  = acc ++ map f (filter (λ x, p x = true) l).
Proof.
  revert acc. induction l as [|x l IH]; intros acc; simpl.
  - by rewrite app_nil_r.
  - rewrite IH, filter_cons. destruct (p x) eqn:Hp.
    + rewrite decide_True by done. simpl. by rewrite <- app_assoc.
    + rewrite decide_False by congruence. done.
Qed.
End loops.

Lemma addClientTasks_map acc tasks :
  addClientTasks acc tasks = acc ++ map fixEmptyColumnID tasks.
Proof. apply (foldl_snoc_map fixEmptyColumnID). Qed.

Lemma addClientUnassigned_map acc tasks :
  addClientUnassigned acc tasks = acc ++ map (Task.setColumnID None) tasks.
Proof. apply (foldl_snoc_map (Task.setColumnID None)). Qed.

Lemma addServerTasks_map ids acc tasks :
  addServerTasks ids acc tasks
  = acc ++ map fixEmptyColumnID
             (filter (λ task, negb (readFlag ids (Task.ID task)) = true) tasks).
Proof.
  apply (foldl_snoc_filter_map (λ task, negb (readFlag ids (Task.ID task)))).
Qed.

Lemma addServerUnassigned_map ids acc tasks :
  addServerUnassigned ids acc tasks
  = acc ++ map (Task.setColumnID None)
             (filter (λ task, negb (readFlag ids (Task.ID task)) = true) tasks).
Proof.
  apply (foldl_snoc_filter_map (λ task, negb (readFlag ids (Task.ID task)))).
Qed.

Lemma addServerColumns_map clientColumns acc entries :
  addServerColumns clientColumns acc entries
  = acc ++ map snd (filter (λ it, clientColumns !! it.1 = None) entries).
Proof.
  unfold addServerColumns. revert acc.
  induction entries as [|[id col] l IH]; intros acc; simpl.
  - by rewrite app_nil_r.
  - rewrite filter_cons. simpl. destruct (clientColumns !! id) eqn:Hc.
    + rewrite decide_False by congruence. apply IH.
    + rewrite decide_True by done. rewrite IH. simpl. by rewrite <- app_assoc.
Qed.

(** The in-place final pass rewrites every entry by [normalizeTask]. *)
Lemma finalPass_from (pre l : list Task.t) :
  foldl (λ acc it,
           let '(i, task) := it in
           match Task.ColumnID task with
           | Some columnIDVal =>
               if String.eqb columnIDVal "" || String.eqb columnIDVal "unassigned"
               then alter (Task.setColumnID None) i acc
               else acc
           | None => acc
           end) (pre ++ l) (imap (λ i, pair (length pre + i)) l)
  = pre ++ map normalizeTask l.
Proof.
  revert pre. induction l as [|task l IH]; intros pre; [done|].
  simpl. rewrite Nat.add_0_r.
  assert (Hstep :
    match Task.ColumnID task with
    | Some columnIDVal =>
        if String.eqb columnIDVal "" || String.eqb columnIDVal "unassigned"
        then alter (Task.setColumnID None) (length pre) (pre ++ task :: l)
        else pre ++ task :: l
    | None => pre ++ task :: l
    end = (pre ++ [normalizeTask task]) ++ l).
  { unfold normalizeTask. rewrite <- app_assoc. simpl.
    destruct (Task.ColumnID task) as [v|]; [|done].
    destruct (String.eqb v "" || String.eqb v "unassigned"); [|done].
    replace (length pre) with (length pre + 0)%nat at 1 by lia.
    by rewrite alter_app_r. }
  rewrite Hstep.
  rewrite (imap_ext _ (λ i, pair (length (pre ++ [normalizeTask task]) + i)%nat)).
  - rewrite IH. by rewrite <- app_assoc.
  - intros i x _. simpl. rewrite length_app. simpl. f_equal. lia.
Qed.

Lemma finalPass_map tasks : finalPass tasks = map normalizeTask tasks.
Proof. apply (finalPass_from [] tasks). Qed.

(** ** The lookup maps *)

Lemma readFlag_recordTaskIDs (tasks : list Task.t) (ids : gmap string bool) (id : string) :
  readFlag (recordTaskIDs ids tasks) id = true
  ↔ readFlag ids id = true ∨ id ∈ map Task.ID tasks.
Proof.
  unfold recordTaskIDs. revert ids.
  induction tasks as [|task tasks IH]; intros ids; simpl.
  - rewrite elem_of_nil. tauto.
  - rewrite IH, elem_of_cons. unfold readFlag.
    destruct (decide (Task.ID task = id)) as [->|Hne].
    + rewrite lookup_insert_eq. simpl. tauto.
    + rewrite lookup_insert_ne by done. split; [|intros [?|[?|?]]]; try tauto.
      congruence.
Qed.

Lemma readFlag_empty id : readFlag ∅ id = false.
Proof. unfold readFlag. by rewrite lookup_empty. Qed.

(** The id set [allClientTaskIDs] (or [allServerTaskIDs]) of a snapshot: the
    ids of the main list, then those of the legacy list when it is not
    empty. *)
Lemma readFlag_allTaskIDs (data : KanbanData) (id : string) :
  readFlag (if (0 <? length (UnassignedTasks data))%nat
            then recordTaskIDs (recordTaskIDs ∅ (Tasks data)) (UnassignedTasks data)
            else recordTaskIDs ∅ (Tasks data)) id = true
  ↔ id ∈ taskIDs data.
Proof.
  unfold taskIDs. rewrite elem_of_app.
  assert (Hguard :
    (if (0 <? length (UnassignedTasks data))%nat
     then recordTaskIDs (recordTaskIDs ∅ (Tasks data)) (UnassignedTasks data)
     else recordTaskIDs ∅ (Tasks data))
    = recordTaskIDs (recordTaskIDs ∅ (Tasks data)) (UnassignedTasks data)).
  { by destruct (UnassignedTasks data). }
  rewrite Hguard, !readFlag_recordTaskIDs, readFlag_empty.
  intuition congruence.
Qed.

Lemma Main_recordUnassignedIDs ids tasks :
  Main.recordUnassignedIDs ids tasks = recordTaskIDs ids tasks.
Proof. reflexivity. Qed.

Lemma last_filter_snoc (id : string) (cols : list Column.t) (col : Column.t) :
  lastWithID id (cols ++ [col])
  = if decide (Column.ID col = id) then Some col else lastWithID id cols.
Proof.
  unfold lastWithID. rewrite filter_app, filter_cons, filter_nil.
  case_decide; [by rewrite last_snoc | by rewrite app_nil_r].
Qed.

(** The column map holds, under each id, the last column of the list with
    that id. *)
Lemma populateColumns_lookup (cols : list Column.t) (id : string) :
  populateColumns cols !! id = lastWithID id cols.
Proof.
  unfold populateColumns.
  induction cols as [|col cols IH] using rev_ind; [apply lookup_empty|].
  rewrite foldl_app, last_filter_snoc. simpl.
  rewrite lookup_insert. case_decide; [done | apply IH].
Qed.

Lemma lastWithID_Some_inv (id : string) (cols : list Column.t) (col : Column.t) :
  lastWithID id cols = Some col → col ∈ cols ∧ Column.ID col = id.
Proof.
  unfold lastWithID. intros H.
  assert (Hin : col ∈ filter (λ c, Column.ID c = id) cols).
  { destruct (filter _ cols) as [|x l] using rev_ind; [done|].
    rewrite last_snoc in H. injection H as ->. set_solver. }
  apply list_elem_of_filter in Hin. tauto.
Qed.

Lemma lastWithID_None (id : string) (cols : list Column.t) :
  lastWithID id cols = None ↔ id ∉ map Column.ID cols.
Proof.
  unfold lastWithID. rewrite last_None. split.
  - intros Hnil Hin. apply list_elem_of_fmap in Hin as (col & -> & Hin).
    assert (col ∈ filter (λ c, Column.ID c = Column.ID col) cols) as Hf
      by (apply list_elem_of_filter; done).
    rewrite Hnil in Hf. by apply elem_of_nil in Hf.
  - intros Hnot. destruct (filter _ cols) as [|x l] eqn:Hf; [done|].
    exfalso. apply Hnot.
    assert (x ∈ filter (λ c, Column.ID c = id) cols) as Hx by (rewrite Hf; left).
    apply list_elem_of_filter in Hx as [<- Hx].
    apply list_elem_of_fmap. eauto.
Qed.

Lemma lastWithID_NoDup (cols : list Column.t) (col : Column.t) :
  NoDup (map Column.ID cols) → col ∈ cols → lastWithID (Column.ID col) cols = Some col.
Proof.
  intros Hnd Hin. unfold lastWithID.
  induction cols as [|c cols IH]; [by apply elem_of_nil in Hin|].
  simpl in Hnd. apply NoDup_cons in Hnd as [Hc Hnd].
  rewrite filter_cons. apply elem_of_cons in Hin as [->|Hin].
  - rewrite decide_True by done.
    assert (filter (λ c0, Column.ID c0 = Column.ID c) cols = []) as ->; [|done].
    apply (proj1 (last_None _)). apply lastWithID_None. exact Hc.
  - rewrite decide_False.
    + by apply IH.
    + intros Heq. apply Hc. rewrite Heq. apply list_elem_of_fmap. eauto.
Qed.

(** ** The merged snapshot in closed form *)

Section merge_facts.
Variable range_order : gmap string Column.t → list (string * Column.t).

Lemma Main_merge_Handlers serverData clientData :
  Main.mergeKanbanData range_order serverData clientData
  = Handlers.mergeKanbanData range_order serverData clientData.
Proof.
  unfold Main.mergeKanbanData, Handlers.mergeKanbanData.
  rewrite !Main_recordUnassignedIDs.
  rewrite (foldl_snoc_map (λ col : Column.t, col)), map_id.
  reflexivity.
Qed.

Lemma merge_package pkg serverData clientData :
  mergeKanbanData pkg range_order serverData clientData
  = Handlers.mergeKanbanData range_order serverData clientData.
Proof. destruct pkg; [done | apply Main_merge_Handlers]. Qed.

Lemma normalizeTask_fixEmpty task :
  normalizeTask (fixEmptyColumnID task) = normalizeTask task.
Proof.
  unfold normalizeTask, fixEmptyColumnID.
  destruct task as [id ti de du pr [v|] dl hi]; simpl; [|done].
  destruct (String.eqb v "") eqn:He; simpl; [done | by rewrite He].
Qed.

Lemma normalizeTask_clear task :
  normalizeTask (Task.setColumnID None task) = Task.setColumnID None task.
Proof. done. Qed.

Lemma normalizeTask_idem task :
  normalizeTask (normalizeTask task) = normalizeTask task.
Proof.
  unfold normalizeTask.
  destruct task as [id ti de du pr [v|] dl hi]; simpl; [|done].
  destruct (String.eqb v "" || String.eqb v "unassigned") eqn:He; simpl; [done|].
  by rewrite He.
Qed.

Lemma normalizeTask_ID task : Task.ID (normalizeTask task) = Task.ID task.
Proof.
  unfold normalizeTask. destruct (Task.ColumnID task) as [v|]; [|done].
  by destruct (String.eqb v "" || String.eqb v "unassigned").
Qed.

Lemma normalizeTask_Deleted task : Task.Deleted (normalizeTask task) = Task.Deleted task.
Proof.
  unfold normalizeTask. destruct (Task.ColumnID task) as [v|]; [|done].
  by destruct (String.eqb v "" || String.eqb v "unassigned").
Qed.

Lemma normalizeTask_ColumnID task :
  Task.ColumnID (normalizeTask task) ≠ Some ""
  ∧ Task.ColumnID (normalizeTask task) ≠ Some "unassigned".
Proof.
  unfold normalizeTask. destruct (Task.ColumnID task) as [v|] eqn:Hv; [|by rewrite Hv].
  destruct (String.eqb v "" || String.eqb v "unassigned") eqn:He; [done|].
  rewrite Hv. apply orb_false_elim in He as [H1 H2].
  apply String.eqb_neq in H1, H2. split; congruence.
Qed.

(** A task keeps its column under the normalisation when that column is a
    proper id. *)
Lemma normalizeTask_assigned task v :
  Task.ColumnID task = Some v → v ≠ "" → v ≠ "unassigned" → normalizeTask task = task.
Proof.
  intros Hv H1 H2. unfold normalizeTask. rewrite Hv.
  apply String.eqb_neq in H1, H2. by rewrite H1, H2.
Qed.

(** The task list of the merged snapshot. *)
Lemma merge_Tasks pkg serverData clientData :
  Tasks (mergeKanbanData pkg range_order serverData clientData)
  = map normalizeTask (Tasks clientData)
    ++ map (Task.setColumnID None) (UnassignedTasks clientData)
    ++ map normalizeTask
         (filter (λ task, Task.ID task ∉ taskIDs clientData) (Tasks serverData))
    ++ map (Task.setColumnID None)
         (filter (λ task, Task.ID task ∉ taskIDs clientData)
                 (UnassignedTasks serverData)).
Proof.
  rewrite merge_package. unfold Handlers.mergeKanbanData. simpl.
  rewrite finalPass_map, addServerUnassigned_map, addServerTasks_map,
    addClientUnassigned_map, addClientTasks_map. simpl.
  rewrite !map_app, !map_map.
  assert (Hfilter : ∀ l : list Task.t,
    filter (λ task, negb (readFlag
      (if (0 <? length (UnassignedTasks clientData))%nat
       then recordTaskIDs (recordTaskIDs ∅ (Tasks clientData))
              (UnassignedTasks clientData)
       else recordTaskIDs ∅ (Tasks clientData)) (Task.ID task)) = true) l
    = filter (λ task, Task.ID task ∉ taskIDs clientData) l).
  { intros l. apply list_filter_iff. intros task.
    rewrite <- readFlag_allTaskIDs, negb_true_iff, not_true_iff_false. done. }
  rewrite !Hfilter, <- !app_assoc.
  assert (Hfix : ∀ l : list Task.t,
    map (λ task, normalizeTask (fixEmptyColumnID task)) l = map normalizeTask l)
    by (intros l; apply map_ext, normalizeTask_fixEmpty).
  rewrite !Hfix. reflexivity.
Qed.

(** The column list of the merged snapshot. *)
Lemma merge_Columns pkg serverData clientData :
  Columns (mergeKanbanData pkg range_order serverData clientData)
  = Columns clientData
    ++ map snd (filter (λ it, it.1 ∉ columnIDs clientData)
                  (range_order (populateColumns (Columns serverData)))).
Proof.
  rewrite merge_package. unfold Handlers.mergeKanbanData. simpl.
  rewrite addServerColumns_map. f_equal. f_equal.
  apply list_filter_iff. intros [id col]. simpl.
  by rewrite populateColumns_lookup, lastWithID_None.
Qed.

Lemma merge_UnassignedTasks pkg serverData clientData :
  UnassignedTasks (mergeKanbanData pkg range_order serverData clientData) = [].
Proof. by rewrite merge_package. Qed.

Lemma merge_UnassignedCollapsed pkg serverData clientData :
  UnassignedCollapsed (mergeKanbanData pkg range_order serverData clientData)
  = UnassignedCollapsed clientData.
Proof. by rewrite merge_package. Qed.

End merge_facts.

(** ** Ranging over the server-column map *)

Lemma mapOrder_enumerates {V : Type} : enumerates (@mapOrder V).
Proof. intros m. reflexivity. Qed.

Lemma KanbanData_eta (data : KanbanData) :
  data = mkKanbanData (Columns data) (Tasks data) (UnassignedTasks data)
           (UnassignedCollapsed data).
Proof. by destruct data. Qed.

Section enumeration.
Variable range_order : gmap string Column.t → list (string * Column.t).
Hypothesis range_order_ok : enumerates range_order.

Lemma range_order_elem (cols : list Column.t) (id : string) (col : Column.t) :
  (id, col) ∈ range_order (populateColumns cols) ↔ lastWithID id cols = Some col.
Proof.
  rewrite (range_order_ok (populateColumns cols)), elem_of_map_to_list.
  by rewrite populateColumns_lookup.
Qed.

Lemma range_order_NoDup (m : gmap string Column.t) : NoDup (range_order m).*1.
Proof. rewrite (range_order_ok m). apply NoDup_fst_map_to_list. Qed.

Lemma range_order_ID (cols : list Column.t) (it : string * Column.t) :
  it ∈ range_order (populateColumns cols) → Column.ID it.2 = it.1.
Proof.
  destruct it as [id col]. rewrite range_order_elem. intros H.
  by apply lastWithID_Some_inv in H as [_ ?].
Qed.

Lemma merge_Columns_split pkg serverData clientData :
  Columns (mergeKanbanData pkg range_order serverData clientData)
  = Columns clientData ++ serverOnlyColumns range_order serverData clientData.
Proof. apply merge_Columns. Qed.

Lemma elem_of_serverOnlyColumns serverData clientData (col : Column.t) :
  col ∈ serverOnlyColumns range_order serverData clientData
  ↔ lastWithID (Column.ID col) (Columns serverData) = Some col
    ∧ Column.ID col ∉ columnIDs clientData.
Proof.
  unfold serverOnlyColumns. rewrite list_elem_of_fmap. split.
  - intros ([id c] & -> & Hin). apply list_elem_of_filter in Hin as [Hid Hin].
    pose proof (range_order_ID _ _ Hin) as Heq. simpl in *. subst id.
    by apply range_order_elem in Hin.
  - intros [Hlast Hid]. exists (Column.ID col, col). split; [done|].
    apply list_elem_of_filter. split; [done|]. by apply range_order_elem.
Qed.

Lemma serverOnlyColumns_IDs serverData clientData :
  map Column.ID (serverOnlyColumns range_order serverData clientData)
  = (filter (λ it, it.1 ∉ columnIDs clientData)
       (range_order (populateColumns (Columns serverData)))).*1.
Proof.
  unfold serverOnlyColumns. rewrite map_map.
  apply map_ext_in. intros it Hin. apply list_elem_of_In in Hin.
  apply list_elem_of_filter in Hin as [_ Hin].
  by apply range_order_ID in Hin.
Qed.

Lemma serverOnlyColumns_NoDup serverData clientData :
  NoDup (map Column.ID (serverOnlyColumns range_order serverData clientData)).
Proof.
  rewrite serverOnlyColumns_IDs.
  eapply sublist_NoDup; [apply range_order_NoDup|].
  apply fmap_sublist, sublist_filter.
Qed.

Lemma serverOnlyColumns_self data :
  serverOnlyColumns range_order data data = [].
Proof.
  destruct (serverOnlyColumns range_order data data) as [|col l] eqn:Heq; [done|].
  assert (col ∈ serverOnlyColumns range_order data data) as Hin by (rewrite Heq; left).
  apply elem_of_serverOnlyColumns in Hin as [Hlast Hnot].
  apply lastWithID_Some_inv in Hlast as [Hin _].
  exfalso. apply Hnot. apply list_elem_of_fmap. eauto.
Qed.

(** With pairwise distinct server column ids nothing is shadowed in the
    map. *)
Lemma serverOnlyColumns_distinct serverData clientData :
  NoDup (columnIDs serverData) →
  serverOnlyColumns range_order serverData clientData
  ≡ₚ filter (λ col, Column.ID col ∉ columnIDs clientData) (Columns serverData).
Proof.
  intros Hnd. apply NoDup_Permutation.
  - eapply NoDup_fmap_1, serverOnlyColumns_NoDup.
  - apply NoDup_filter. eapply NoDup_fmap_1, Hnd.
  - intros col. rewrite elem_of_serverOnlyColumns, list_elem_of_filter. split.
    + intros [Hlast Hid]. split; [done|]. by apply lastWithID_Some_inv in Hlast as [? _].
    + intros [Hid Hin]. split; [|done]. by apply lastWithID_NoDup.
Qed.

End enumeration.

(** ** Properties of the merge engine *)

Ltac by_evaluation :=
  match goal with
  | |- ?P => apply (@bool_decide_unpack P _); vm_compute; exact I
  end.

Lemma filter_none {A : Type} (P : A → Prop) `{∀ x, Decision (P x)} (l : list A) :
  (∀ x, x ∈ l → ¬ P x) → filter P l = [].
Proof.
  intros Hall. induction l as [|x l IH]; [done|].
  rewrite filter_cons, decide_False by (apply Hall; left).
  apply IH. intros y Hy. apply Hall. by right.
Qed.

Lemma elem_of_merge_Tasks range_order pkg serverData clientData (task : Task.t) :
  task ∈ Tasks (mergeKanbanData pkg range_order serverData clientData)
  ↔ (∃ t, t ∈ Tasks clientData ∧ task = normalizeTask t)
    ∨ (∃ t, t ∈ UnassignedTasks clientData ∧ task = Task.setColumnID None t)
    ∨ (∃ t, t ∈ Tasks serverData ∧ (Task.ID t ∉ taskIDs clientData)
            ∧ task = normalizeTask t)
    ∨ (∃ t, t ∈ UnassignedTasks serverData ∧ (Task.ID t ∉ taskIDs clientData)
            ∧ task = Task.setColumnID None t).
Proof.
  rewrite merge_Tasks, !elem_of_app, !list_elem_of_fmap.
  setoid_rewrite list_elem_of_filter. naive_solver.
Qed.

Lemma merge_self range_order (Hro : enumerates range_order) pkg (S : KanbanData) :
  mergeKanbanData pkg range_order S S
  = mkKanbanData (Columns S)
      (map normalizeTask (Tasks S) ++ map (Task.setColumnID None) (UnassignedTasks S))
      [] (UnassignedCollapsed S).
Proof.
  rewrite (KanbanData_eta (mergeKanbanData pkg range_order S S)).
  rewrite merge_Tasks, merge_Columns_split, merge_UnassignedTasks,
    merge_UnassignedCollapsed, serverOnlyColumns_self by done.
  rewrite !filter_none, !app_nil_r; [done| |].
  - intros t Ht Hnot. apply Hnot. unfold taskIDs. rewrite elem_of_app. right.
    apply list_elem_of_fmap. eauto.
  - intros t Ht Hnot. apply Hnot. unfold taskIDs. rewrite elem_of_app. left.
    apply list_elem_of_fmap. eauto.
Qed.

Lemma normalizeData_idem (S : KanbanData) :
  normalizeData (normalizeData S) = normalizeData S.
Proof.
  unfold normalizeData. simpl. f_equal. rewrite map_map.
  apply map_ext. apply normalizeTask_idem.
Qed.

(** C1, as amended.  Merging a snapshot with itself keeps its columns and its
    UI flag, normalises its task list, appends the tasks of its legacy list
    with their column id cleared and returns an empty legacy list.  Hence, for
    every snapshot whose legacy list is empty, [mergeKanbanData S S] is [S]
    modulo the empty-string/"unassigned" normalisation, and that
    normalisation is idempotent. *)
Theorem merge_same_snapshot
    (pkg : package) (range_order : gmap string Column.t → list (string * Column.t))
    (Hro : enumerates range_order) (S : KanbanData) :
  mergeKanbanData pkg range_order S S
  = mkKanbanData (Columns S)
      (map normalizeTask (Tasks S) ++ map (Task.setColumnID None) (UnassignedTasks S))
      [] (UnassignedCollapsed S)
  ∧ (UnassignedTasks S = [] →
       mergeKanbanData pkg range_order S S = normalizeData S
       ∧ equalModuloNormalization (mergeKanbanData pkg range_order S S) S)
  ∧ normalizeData (normalizeData S) = normalizeData S.
Proof.
  split; [by apply merge_self|]. split; [|apply normalizeData_idem].
  intros Hlegacy.
  assert (mergeKanbanData pkg range_order S S = normalizeData S) as Heq.
  { rewrite merge_self by done. unfold normalizeData.
    by rewrite Hlegacy, app_nil_r. }
  split; [done|]. unfold equalModuloNormalization.
  rewrite Heq. apply normalizeData_idem.
Qed.

Lemma merge_same_snapshot_witness :
  UnassignedTasks tidySnapshot = []
  ∧ mergeKanbanData PkgMain mapOrder tidySnapshot tidySnapshot
    = normalizeData tidySnapshot.
Proof.
  split; [reflexivity|].
  pose proof (merge_same_snapshot PkgMain mapOrder (λ m, reflexivity _) tidySnapshot)
    as (_ & Hidem & _).
  apply Hidem. reflexivity.
Defined.

(** C1 as stated fails on a snapshot that still carries a legacy list: the
    merge of [legacySnapshot] with itself has the legacy task in its task
    list and no legacy list. *)
Lemma merge_same_snapshot_legacy_differs :
  ¬ equalModuloNormalization
      (mergeKanbanData PkgHandlers mapOrder legacySnapshot legacySnapshot)
      legacySnapshot.
Proof.
  unfold equalModuloNormalization.
  rewrite (merge_self mapOrder mapOrder_enumerates). discriminate.
Qed.

(** C2, as amended.  For an id carried by both snapshots the merged snapshot
    holds the client's entries and no entry of the server.  A client Column
    is taken over verbatim.  A client Task is taken over with every field
    from the client, except that its column id is normalised: an entry of the
    task list with column id [""] or ["unassigned"], and every entry of the
    legacy list, gets an absent column id. *)
Theorem client_entry_wins
    (pkg : package) (range_order : gmap string Column.t → list (string * Column.t))
    (Hro : enumerates range_order) (serverData clientData : KanbanData)
    (id : string) :
  (id ∈ taskIDs serverData → id ∈ taskIDs clientData →
     (∀ t, t ∈ Tasks clientData → Task.ID t = id →
        normalizeTask t ∈ Tasks (mergeKanbanData pkg range_order serverData clientData))
     ∧ (∀ t, t ∈ UnassignedTasks clientData → Task.ID t = id →
        Task.setColumnID None t
          ∈ Tasks (mergeKanbanData pkg range_order serverData clientData))
     ∧ (∀ t', t' ∈ Tasks (mergeKanbanData pkg range_order serverData clientData) →
        Task.ID t' = id →
        (∃ t, t ∈ Tasks clientData ∧ t' = normalizeTask t)
        ∨ (∃ t, t ∈ UnassignedTasks clientData ∧ t' = Task.setColumnID None t)))
  ∧ (id ∈ columnIDs serverData → id ∈ columnIDs clientData →
     (∀ col, col ∈ Columns clientData → Column.ID col = id →
        col ∈ Columns (mergeKanbanData pkg range_order serverData clientData))
     ∧ (∀ col, col ∈ Columns (mergeKanbanData pkg range_order serverData clientData) →
        Column.ID col = id → col ∈ Columns clientData)).
Proof.
  split.
  - intros _ Hclient. split; [|split].
    + intros t Ht _. apply elem_of_merge_Tasks. left. eauto.
    + intros t Ht _. apply elem_of_merge_Tasks. right. left. eauto.
    + intros t' Ht' Hid. apply elem_of_merge_Tasks in Ht'.
      destruct Ht' as [?|[?|[(t & _ & Hnot & ->)|(t & _ & Hnot & ->)]]]; [by left|by right| |].
      * rewrite normalizeTask_ID in Hid. by subst id.
      * simpl in Hid. by subst id.
  - intros _ Hclient. split.
    + intros col Hcol _. rewrite merge_Columns_split, elem_of_app. by left.
    + intros col Hcol Hid. rewrite merge_Columns_split, elem_of_app in Hcol.
      destruct Hcol as [?|Hcol]; [done|].
      apply elem_of_serverOnlyColumns in Hcol as [_ Hnot]; [|done].
      by subst id.
Qed.

Lemma client_entry_wins_witness :
  sampleColumn "c1" "Client" false
    ∈ Columns (mergeKanbanData PkgHandlers mapOrder serverB clientB)
  ∧ normalizeTask (sampleTask "t2" (Some "") false)
    ∈ Tasks (mergeKanbanData PkgHandlers mapOrder serverB clientB).
Proof.
  pose proof (client_entry_wins PkgHandlers mapOrder (λ m, reflexivity _)
                serverB clientB "c1") as [_ Hcolumns].
  pose proof (client_entry_wins PkgHandlers mapOrder (λ m, reflexivity _)
                serverB clientB "t2") as [Htasks _].
  destruct Hcolumns as [Hcol _]; [by_evaluation | by_evaluation |].
  destruct Htasks as [Htask _]; [by_evaluation | by_evaluation |].
  split.
  - apply Hcol; [left | reflexivity].
  - apply Htask; [left | reflexivity].
Defined.

(** C2 as stated fails: the client's task [t2] has the column id [""], the
    server also has [t2], and the merged snapshot does not contain the
    client's entry with its field values as sent. *)
Lemma client_entry_wins_not_verbatim :
  "t2" ∈ taskIDs serverB ∧ "t2" ∈ taskIDs clientB
  ∧ sampleTask "t2" (Some "") false ∈ Tasks clientB
  ∧ sampleTask "t2" (Some "") false
      ∉ Tasks (mergeKanbanData PkgHandlers mapOrder serverB clientB).
Proof.
  split; [by_evaluation|]. split; [by_evaluation|]. split; [left|].
  rewrite elem_of_merge_Tasks. unfold serverB, clientB, board. simpl.
  intros [(t & Ht & Heq)|[(t & Ht & _)|[(t & Ht & Hnot & _)|(t & Ht & _)]]].
  - apply list_elem_of_singleton in Ht as ->. discriminate Heq.
  - by apply elem_of_nil in Ht.
  - apply list_elem_of_singleton in Ht as ->. apply Hnot. by_evaluation.
  - by apply elem_of_nil in Ht.
Qed.

(** C3.  Of the tasks whose id is in none of the client's task lists, one of
    the server's main task list is in the merged snapshot unchanged after
    normalisation, and one of the server's legacy list is in the merged
    snapshot with its column id made absent, whatever column id it carried;
    in particular a task [t1] in column ["c1"] of the server's task list that
    the client does not know is in the merged snapshot as it is. *)
Theorem server_only_task_recovered
    (pkg : package) (range_order : gmap string Column.t → list (string * Column.t))
    (serverData clientData : KanbanData) (t : Task.t) :
  (t ∈ Tasks serverData → Task.ID t ∉ taskIDs clientData →
     normalizeTask t ∈ Tasks (mergeKanbanData pkg range_order serverData clientData))
  ∧ (t ∈ UnassignedTasks serverData → Task.ID t ∉ taskIDs clientData →
     Task.setColumnID None t
       ∈ Tasks (mergeKanbanData pkg range_order serverData clientData))
  ∧ (t ∈ Tasks serverData → Task.ID t = "t1" → Task.ColumnID t = Some "c1" →
     "t1" ∉ taskIDs clientData →
     t ∈ Tasks (mergeKanbanData pkg range_order serverData clientData)).
Proof.
  split; [|split].
  - intros Ht Hnot. apply elem_of_merge_Tasks. right. right. left. eauto.
  - intros Ht Hnot. apply elem_of_merge_Tasks. right. right. right. eauto.
  - intros Ht Hid Hcol Hnot. apply elem_of_merge_Tasks. right. right. left.
    exists t. rewrite Hid. split; [done|]. split; [done|].
    symmetry. by apply (normalizeTask_assigned t "c1").
Qed.

Lemma server_only_task_recovered_witness :
  sampleTask "t1" (Some "c1") false
    ∈ Tasks (mergeKanbanData PkgHandlers mapOrder serverA clientA).
Proof.
  pose proof (server_only_task_recovered PkgHandlers mapOrder serverA clientA
                (sampleTask "t1" (Some "c1") false)) as (_ & _ & Hscenario).
  apply Hscenario; [left | reflexivity | reflexivity | by_evaluation].
Defined.

(** C3 as stated fails for the server's legacy list: the server holds [t1]
    with column id ["c1"] there, the client has no task [t1], normalisation
    leaves that task as it is, and the merged snapshot holds [t1] without a
    column id instead. *)
Lemma server_only_legacy_task_loses_column :
  sampleTask "t1" (Some "c1") false ∈ UnassignedTasks legacyServerA
  ∧ "t1" ∈ taskIDs legacyServerA ∧ ("t1" ∉ taskIDs clientA)
  ∧ normalizeTask (sampleTask "t1" (Some "c1") false)
    = sampleTask "t1" (Some "c1") false
  ∧ Tasks (mergeKanbanData PkgHandlers mapOrder legacyServerA clientA)
    = [sampleTask "t9" None false; sampleTask "t1" None false]
  ∧ (normalizeTask (sampleTask "t1" (Some "c1") false)
       ∉ Tasks (mergeKanbanData PkgHandlers mapOrder legacyServerA clientA))
  ∧ normalizeTask (sampleTask "t1" (Some "c1") false)
      ∉ Tasks (mergeKanbanData PkgMain mapOrder legacyServerA clientA).
Proof.
  split; [left|]. split; [by_evaluation|]. split; [by_evaluation|].
  split; [reflexivity|]. split; [reflexivity|].
  split; by_evaluation.
Qed.

(** C4.  No task of the merged snapshot has the empty string or the token
    ["unassigned"] as its column id. *)
Theorem merged_columnId_never_unassigned
    (pkg : package) (range_order : gmap string Column.t → list (string * Column.t))
    (serverData clientData : KanbanData) :
  Forall (λ t, Task.ColumnID t ≠ Some "" ∧ Task.ColumnID t ≠ Some "unassigned")
         (Tasks (mergeKanbanData pkg range_order serverData clientData)).
Proof.
  apply Forall_forall. intros t Ht. apply elem_of_merge_Tasks in Ht.
  destruct Ht as [(t0 & _ & ->)|[(t0 & _ & ->)|[(t0 & _ & _ & ->)|(t0 & _ & _ & ->)]]];
    try apply normalizeTask_ColumnID; done.
Qed.

(** C5, as amended.  A tombstone survives the merge when it is the client's:
    every deleted Task or Column of the client snapshot is in the merged
    snapshot with [deleted=true].  A deleted Task of the server whose id the
    client does not carry is kept deleted, and so is a deleted server Column
    that is the last one under an id the client does not carry.  No id of
    either input is missing from the merged snapshot.  (For an id in both
    inputs the client's copy decides whether the item is deleted.) *)
Theorem tombstones_kept
    (pkg : package) (range_order : gmap string Column.t → list (string * Column.t))
    (Hro : enumerates range_order) (serverData clientData : KanbanData) :
  (∀ t, t ∈ Tasks clientData ++ UnassignedTasks clientData → Task.Deleted t = true →
     ∃ t', t' ∈ Tasks (mergeKanbanData pkg range_order serverData clientData)
           ∧ Task.ID t' = Task.ID t ∧ Task.Deleted t' = true)
  ∧ (∀ t, t ∈ Tasks serverData ++ UnassignedTasks serverData →
     Task.ID t ∉ taskIDs clientData → Task.Deleted t = true →
     ∃ t', t' ∈ Tasks (mergeKanbanData pkg range_order serverData clientData)
           ∧ Task.ID t' = Task.ID t ∧ Task.Deleted t' = true)
  ∧ (∀ col, col ∈ Columns clientData → Column.Deleted col = true →
     col ∈ Columns (mergeKanbanData pkg range_order serverData clientData))
  ∧ (∀ col, lastWithID (Column.ID col) (Columns serverData) = Some col →
     Column.ID col ∉ columnIDs clientData → Column.Deleted col = true →
     col ∈ Columns (mergeKanbanData pkg range_order serverData clientData))
  ∧ (∀ id, id ∈ taskIDs serverData ++ taskIDs clientData →
     id ∈ map Task.ID (Tasks (mergeKanbanData pkg range_order serverData clientData)))
  ∧ (∀ id, id ∈ columnIDs serverData ++ columnIDs clientData →
     id ∈ map Column.ID
            (Columns (mergeKanbanData pkg range_order serverData clientData))).
Proof.
  assert (Hclient : ∀ t, t ∈ Tasks clientData ++ UnassignedTasks clientData →
    ∃ t', t' ∈ Tasks (mergeKanbanData pkg range_order serverData clientData)
          ∧ Task.ID t' = Task.ID t ∧ Task.Deleted t' = Task.Deleted t).
  { intros t Ht. apply elem_of_app in Ht as [Ht|Ht].
    - exists (normalizeTask t). rewrite elem_of_merge_Tasks.
      split; [left; eauto|]. by rewrite normalizeTask_ID, normalizeTask_Deleted.
    - exists (Task.setColumnID None t). rewrite elem_of_merge_Tasks.
      split; [right; left; eauto|done]. }
  assert (Hserver : ∀ t, t ∈ Tasks serverData ++ UnassignedTasks serverData →
    Task.ID t ∉ taskIDs clientData →
    ∃ t', t' ∈ Tasks (mergeKanbanData pkg range_order serverData clientData)
          ∧ Task.ID t' = Task.ID t ∧ Task.Deleted t' = Task.Deleted t).
  { intros t Ht Hnot. apply elem_of_app in Ht as [Ht|Ht].
    - exists (normalizeTask t). rewrite elem_of_merge_Tasks.
      split; [right; right; left; eauto|].
      by rewrite normalizeTask_ID, normalizeTask_Deleted.
    - exists (Task.setColumnID None t). rewrite elem_of_merge_Tasks.
      split; [right; right; right; eauto|done]. }
  split; [|split; [|split; [|split; [|split]]]].
  - intros t Ht Hdel. destruct (Hclient t Ht) as (t' & ? & ? & Hd).
    exists t'. by rewrite Hd.
  - intros t Ht Hnot Hdel. destruct (Hserver t Ht Hnot) as (t' & ? & ? & Hd).
    exists t'. by rewrite Hd.
  - intros col Hcol _. rewrite merge_Columns_split, elem_of_app. by left.
  - intros col Hlast Hnot _. rewrite merge_Columns_split, elem_of_app. right.
    by apply elem_of_serverOnlyColumns.
  - intros id Hid. apply list_elem_of_fmap.
    destruct (decide (id ∈ taskIDs clientData)) as [Hin|Hnot].
    + unfold taskIDs in Hin. rewrite <- fmap_app in Hin.
      apply list_elem_of_fmap in Hin as (t & -> & Ht).
      destruct (Hclient t Ht) as (t' & ? & ? & _). eauto.
    + apply elem_of_app in Hid as [Hid|Hid]; [|done].
      unfold taskIDs in Hid. rewrite <- fmap_app in Hid.
      apply list_elem_of_fmap in Hid as (t & -> & Ht).
      destruct (Hserver t Ht Hnot) as (t' & ? & ? & _). eauto.
  - intros id Hid. rewrite merge_Columns_split, fmap_app, elem_of_app.
    destruct (decide (id ∈ columnIDs clientData)) as [Hin|Hnot]; [by left|right].
    apply elem_of_app in Hid as [Hid|Hid]; [|done].
    destruct (lastWithID id (Columns serverData)) as [col|] eqn:Hlast;
      [|by apply lastWithID_None in Hlast].
    apply lastWithID_Some_inv in Hlast as Hcol. destruct Hcol as [_ <-].
    apply list_elem_of_fmap. exists col. split; [done|].
    by apply elem_of_serverOnlyColumns.
Qed.

Lemma tombstones_kept_witness :
  ∃ t', t' ∈ Tasks (mergeKanbanData PkgHandlers mapOrder staleServerD deletingClientD)
        ∧ Task.ID t' = "t1" ∧ Task.Deleted t' = true.
Proof.
  pose proof (tombstones_kept PkgHandlers mapOrder (λ m, reflexivity _)
                staleServerD deletingClientD) as (Hclient & _).
  apply (Hclient (sampleTask "t1" (Some "c1") true)); [left | reflexivity].
Defined.

(** C5 as stated fails: the server holds the tombstone of [t1], the client a
    stale copy that is not deleted; the id is in both inputs and the merged
    snapshot has no deleted [t1]. *)
Lemma tombstone_resurrected_by_stale_client :
  sampleTask "t1" (Some "c1") true ∈ Tasks serverD
  ∧ "t1" ∈ taskIDs serverD ∧ "t1" ∈ taskIDs clientD
  ∧ ¬ ∃ t', t' ∈ Tasks (mergeKanbanData PkgHandlers mapOrder serverD clientD)
            ∧ Task.ID t' = "t1" ∧ Task.Deleted t' = true.
Proof.
  split; [left|]. split; [by_evaluation|]. split; [by_evaluation|].
  intros (t' & Ht' & _ & Hdel). rewrite elem_of_merge_Tasks in Ht'.
  unfold serverD, clientD, board in Ht'. simpl in Ht'.
  destruct Ht' as [(t & Ht & ->)|[(t & Ht & _)|[(t & Ht & Hnot & _)|(t & Ht & _)]]].
  - apply list_elem_of_singleton in Ht as ->. discriminate Hdel.
  - by apply elem_of_nil in Ht.
  - apply list_elem_of_singleton in Ht as ->. apply Hnot. by_evaluation.
  - by apply elem_of_nil in Ht.
Qed.

(** C6, as amended.  The column list of the merged snapshot is the client's
    column list verbatim, followed, in the order in which the server-column
    map is enumerated, by one Column for each id that the server carries and
    the client does not: the last server Column with that id.  When the
    server's column ids are pairwise distinct these are all the server
    Columns whose id is not a client column id. *)
Theorem merged_columns
    (pkg : package) (range_order : gmap string Column.t → list (string * Column.t))
    (Hro : enumerates range_order) (serverData clientData : KanbanData) :
  ∃ fromServer : list Column.t,
    Columns (mergeKanbanData pkg range_order serverData clientData)
    = Columns clientData ++ fromServer
    ∧ NoDup (map Column.ID fromServer)
    ∧ (∀ col, col ∈ fromServer
         ↔ lastWithID (Column.ID col) (Columns serverData) = Some col
           ∧ Column.ID col ∉ columnIDs clientData)
    ∧ (NoDup (columnIDs serverData) →
       fromServer
       ≡ₚ filter (λ col, Column.ID col ∉ columnIDs clientData) (Columns serverData)).
Proof.
  exists (serverOnlyColumns range_order serverData clientData).
  split; [apply merge_Columns_split|]. split; [by apply serverOnlyColumns_NoDup|].
  split; [intros col; by apply elem_of_serverOnlyColumns|].
  by apply serverOnlyColumns_distinct.
Qed.

Lemma merged_columns_witness :
  ∃ fromServer : list Column.t,
    Columns (mergeKanbanData PkgHandlers mapOrder serverB clientA)
    = Columns clientA ++ fromServer
    ∧ fromServer
      ≡ₚ filter (λ col, Column.ID col ∉ columnIDs clientA) (Columns serverB).
Proof.
  destruct (merged_columns PkgHandlers mapOrder (λ m, reflexivity _) serverB clientA)
    as (fromServer & Heq & _ & _ & Hperm).
  exists fromServer. split; [exact Heq|]. apply Hperm. by_evaluation.
Defined.

(** C6 as stated fails when the server carries two Columns under one id: of
    the two Columns ["a"] of [serverE] only one is in the merged snapshot. *)
Lemma merged_columns_shadowed_duplicate :
  ¬ ∃ fromServer : list Column.t,
      Columns (mergeKanbanData PkgHandlers mapOrder serverE clientE)
      = Columns clientE ++ fromServer
      ∧ fromServer
        ≡ₚ filter (λ col, Column.ID col ∉ columnIDs clientE) (Columns serverE).
Proof.
  intros (fromServer & Heq & Hperm).
  pose proof (serverOnlyColumns_NoDup mapOrder mapOrder_enumerates serverE clientE)
    as Hnd.
  rewrite (merge_Columns_split mapOrder) in Heq.
  apply app_inv_head in Heq. rewrite Heq, Hperm in Hnd. vm_compute in Hnd.
  apply NoDup_cons in Hnd as [Hnot _]. apply Hnot. left.
Qed.

(** C10.  The merge engines of package [main] and of package [handlers]
    return equal snapshots on equal inputs, under the same enumeration order
    of the server-column map. *)
Theorem merge_packages_agree
    (range_order : gmap string Column.t → list (string * Column.t))
    (serverData clientData : KanbanData) :
  Main.mergeKanbanData range_order serverData clientData
  = Handlers.mergeKanbanData range_order serverData clientData.
Proof. apply Main_merge_Handlers. Qed.

(** ** The hub's broadcast loop *)

Module HubFacts.
Import Hub.

Lemma userCodec_ok : codec_ok userMarshal userDecode.
Proof.
  intros message jsonMessage [= <-]. eexists. split; [reflexivity|].
  simpl. apply string_of_list_byte_of_string.
Qed.

Lemma keyOrder_enumerates : enumerates_clients keyOrder.
Proof. intros m. reflexivity. Qed.

Section loop.
Variable excludeEmail : string.
Variable message : list byte.

(** One pass of the loop body over a live client with an open queue. *)
Lemma offer_open (h : t) (client : ptr) (c : Client) :
  store h !! client = Some c → closed (Send c) = false →
  offer excludeEmail message h client
  = Done (mk (if dropped excludeEmail c then delete client (Clients h) else Clients h)
             (<[client := afterOffer excludeEmail message c]> (store h))).
Proof.
  intros Hc Hopen. unfold offer, afterOffer, dropped, excluded, trySend, close, full.
  rewrite Hc, Hopen.
  destruct (negb (String.eqb excludeEmail "") && String.eqb (Email c) excludeEmail);
    simpl.
  - rewrite insert_id by done. by destruct h.
  - by destruct (length (buf (Send c)) <? cap (Send c))%nat.
Qed.

(** The whole loop over an enumeration without repetitions. *)
Lemma forEach_offer (l : list ptr) :
  NoDup l → ∀ h : t,
  (∀ client, client ∈ l →
     ∃ c, store h !! client = Some c ∧ closed (Send c) = false) →
  ∃ h', forEach (offer excludeEmail message) l h = Done h'
    ∧ (∀ client c, client ∈ l → store h !! client = Some c →
         store h' !! client = Some (afterOffer excludeEmail message c)
         ∧ Clients h' !! client
           = if dropped excludeEmail c then None else Clients h !! client)
    ∧ (∀ client, client ∉ l →
         store h' !! client = store h !! client
         ∧ Clients h' !! client = Clients h !! client).
Proof.
  induction 1 as [|p l Hp Hnd IH]; intros h Hopen.
  - exists h. split; [done|]. split; [|done].
    intros client c Hin. by apply elem_of_nil in Hin.
  - destruct (Hopen p) as (c & Hc & Hclosed); [left|].
    simpl. rewrite (offer_open h p c Hc Hclosed). simpl.
    set (h1 := mk (if dropped excludeEmail c then delete p (Clients h) else Clients h)
                  (<[p := afterOffer excludeEmail message c]> (store h))).
    assert (Hstore1 : ∀ q, q ≠ p → store h1 !! q = store h !! q).
    { intros q Hq. simpl. by rewrite lookup_insert_ne. }
    assert (Hclients1 : ∀ q, q ≠ p → Clients h1 !! q = Clients h !! q).
    { intros q Hq. simpl. destruct (dropped excludeEmail c); [|done].
      by rewrite lookup_delete_ne. }
    destruct (IH h1) as (h' & Hrun & Hin & Hout).
    { intros q Hq. rewrite Hstore1 by (intros ->; done). apply Hopen. by right. }
    exists h'. split; [done|]. split.
    + intros q cq Hq Hcq. apply elem_of_cons in Hq as [->|Hq].
      * destruct (Hout p Hp) as [Hs Hl]. rewrite Hs, Hl. simpl.
        rewrite lookup_insert_eq. replace cq with c by congruence.
        split; [done|]. destruct (dropped excludeEmail c); [|done].
        by rewrite lookup_delete_eq.
      * assert (q ≠ p) as Hne by (intros ->; done).
        destruct (Hin q cq Hq) as [Hs Hl]; [by rewrite Hstore1|].
        by rewrite Hs, Hl, Hclients1.
    + intros q Hq. apply not_elem_of_cons in Hq as [Hne Hq].
      destruct (Hout q Hq) as [Hs Hl].
      by rewrite Hs, Hl, Hstore1, Hclients1.
Qed.
End loop.

Section run.
Variable marshal : WebSocketMessage → option (list byte).
Variable decode : list byte → option WebSocketMessage.
Variable range_clients : gmap ptr bool → list ptr.
Hypothesis codec : codec_ok marshal decode.
Hypothesis range_clients_ok : enumerates_clients range_clients.

Lemma range_clients_elem (m : gmap ptr bool) (client : ptr) :
  client ∈ range_clients m ↔ is_Some (m !! client).
Proof.
  rewrite (range_clients_ok m), list_elem_of_fmap. split.
  - intros ([q flag] & -> & Hin). apply elem_of_map_to_list in Hin. eauto.
  - intros [flag Hflag]. exists (client, flag). split; [done|].
    by apply elem_of_map_to_list.
Qed.

Lemma range_clients_NoDup (m : gmap ptr bool) : NoDup (range_clients m).
Proof. rewrite (range_clients_ok m). apply NoDup_fst_map_to_list. Qed.

(** A broadcast, from the call of [Broadcast] to the end of the turn of [Run]
    that handles it, on a hub whose live sessions have open queues. *)
Lemma processBroadcast_open (msg : WebSocketMessage) (excludeEmail : string)
    (h : t) (jsonMessage : list byte) :
  live_open h → marshal (setUser excludeEmail msg) = Some jsonMessage →
  ∃ h', processBroadcast marshal decode range_clients msg excludeEmail h = Done h'
    ∧ (∀ client c, is_Some (Clients h !! client) → store h !! client = Some c →
         store h' !! client = Some (afterOffer excludeEmail jsonMessage c)
         ∧ Clients h' !! client
           = if dropped excludeEmail c then None else Clients h !! client)
    ∧ (∀ client, Clients h !! client = None →
         store h' !! client = store h !! client ∧ Clients h' !! client = None).
Proof.
  intros Hlive Hjson. unfold processBroadcast, Broadcast. rewrite Hjson. simpl.
  destruct (codec _ _ Hjson) as (wsMessage & -> & Huser). simpl in Huser.
  rewrite Huser.
  destruct (forEach_offer excludeEmail jsonMessage (range_clients (Clients h))
              (range_clients_NoDup _) h) as (h' & Hrun & Hin & Hout).
  { intros client Hclient. apply range_clients_elem in Hclient as [flag Hflag].
    by apply (Hlive client flag). }
  exists h'. split; [done|]. split.
  - intros client c Hclient. apply Hin. by apply range_clients_elem.
  - intros client Hnone. destruct (Hout client) as [Hs Hl].
    + rewrite range_clients_elem, Hnone. by intros [? ?].
    + by rewrite Hs, Hl.
Qed.

(** The invariant of the live set: it holds of a new hub and every turn of
    [Run] keeps it, as long as the clients that register come with an open
    queue. *)
Lemma NewHub_live_open (clients : gmap ptr Client) : live_open (NewHub clients).
Proof. intros client flag Hflag. simpl in Hflag. by rewrite lookup_empty in Hflag. Qed.

Lemma Run_step_live_open (ev : event) (h h' : t) :
  live_open h →
  (∀ client, ev = OnRegister client →
     ∃ c, store h !! client = Some c ∧ closed (Send c) = false) →
  Run_step decode range_clients ev h = Done h' → live_open h'.
Proof.
  intros Hlive Hreg Hstep. destruct ev as [client|client|jsonMessage]; simpl in Hstep.
  - destruct (store h !! client) as [c0|]; [|done].
    injection Hstep as <-. intros q flag Hq. simpl in *.
    destruct (decide (q = client)) as [->|Hne]; [by apply Hreg|].
    rewrite lookup_insert_ne in Hq by done. by apply (Hlive q flag).
  - destruct (Clients h !! client) as [flag|] eqn:Hclient; [|by injection Hstep as <-].
    destruct (Hlive client flag Hclient) as (c & Hc & Hopen).
    rewrite Hc in Hstep. unfold close in Hstep. rewrite Hopen in Hstep.
    simpl in Hstep. injection Hstep as <-. intros q flag' Hq. simpl in *.
    destruct (decide (q = client)) as [->|Hne]; [by rewrite lookup_delete_eq in Hq|].
    rewrite lookup_delete_ne in Hq by done. rewrite lookup_insert_ne by done.
    by apply (Hlive q flag').
  - destruct (decode jsonMessage) as [wsMessage|]; [|by injection Hstep as <-].
    destruct (forEach_offer (User wsMessage) jsonMessage (range_clients (Clients h))
                (range_clients_NoDup _) h) as (h1 & Hrun & Hin & Hout).
    { intros client Hclient. apply range_clients_elem in Hclient as [flag Hflag].
      by apply (Hlive client flag). }
    rewrite Hrun in Hstep. injection Hstep as <-. intros q flag Hq.
    destruct (Clients h !! q) as [flag0|] eqn:Hq0.
    + destruct (Hlive q flag0 Hq0) as (c & Hc & Hopen).
      destruct (Hin q c) as [Hs Hl]; [by apply range_clients_elem|done|].
      rewrite Hs. rewrite Hl in Hq. unfold dropped, afterOffer in *.
      destruct (excluded (User wsMessage) c); simpl in *; [eauto|].
      destruct (full (Send c)); [done|]. eexists. split; [done|]. done.
    + destruct (Hout q) as [_ Hl]; [|congruence].
      rewrite range_clients_elem, Hq0. by intros [? ?].
Qed.

End run.
End HubFacts.

(** ** Properties of the hub *)

Lemma hubABC_clients (h : Hub.t) (client : Hub.ptr) :
  Hub.Clients h = Hub.Clients Hub.hubABC →
  is_Some (Hub.Clients h !! client) →
  client = 1%positive ∨ client = 2%positive ∨ client = 3%positive.
Proof.
  intros -> [flag Hflag]. simpl in Hflag.
  destruct (decide (client = 1%positive)) as [->|H1]; [by left|].
  destruct (decide (client = 2%positive)) as [->|H2]; [by right; left|].
  destruct (decide (client = 3%positive)) as [->|H3]; [by right; right|].
  by rewrite !lookup_insert_ne, lookup_singleton_ne in Hflag.
Qed.

Lemma hubABC_live_open : Hub.live_open Hub.hubABC.
Proof.
  intros client flag Hflag.
  assert (is_Some (Hub.Clients Hub.hubABC !! client)) as Hlive by (by eexists).
  destruct (hubABC_clients Hub.hubABC client eq_refl Hlive) as [-> | [-> | ->] ];
    [exists (Hub.session "a@example.org" [])
    |exists (Hub.session "b@example.org" [])
    |exists (Hub.session "c@example.org" [])]; split; reflexivity.
Qed.

Lemma hubFull_live_open : Hub.live_open Hub.hubFull.
Proof.
  intros client flag Hflag.
  assert (is_Some (Hub.Clients Hub.hubFull !! client)) as Hlive by (by eexists).
  destruct (hubABC_clients Hub.hubFull client eq_refl Hlive) as [-> | [-> | ->] ];
    [exists (Hub.session "a@example.org" [])
    |exists (Hub.session "b@example.org" [[x00]; [x01]])
    |exists (Hub.session "c@example.org" [])]; split; reflexivity.
Qed.

(** C7.  On a hub whose live sessions have open queues, none of them full, a
    broadcast of [msg] with exclusion [e] leaves the live set as it is and
    puts the serialised message on the queue of every live session when [e]
    is empty, and otherwise on the queue of exactly the live sessions whose
    email differs from [e]; the queues of the sessions of [e] stay as they
    are. *)
Theorem broadcast_delivery
    (marshal : Hub.WebSocketMessage → option (list byte))
    (decode : list byte → option Hub.WebSocketMessage)
    (range_clients : gmap Hub.ptr bool → list Hub.ptr)
    (Hcodec : Hub.codec_ok marshal decode)
    (Hrange : Hub.enumerates_clients range_clients)
    (msg : Hub.WebSocketMessage) (e : string) (h : Hub.t) (jsonMessage : list byte) :
  Hub.live_open h →
  (∀ client c, is_Some (Hub.Clients h !! client) → Hub.store h !! client = Some c →
     Hub.full (Hub.Send c) = false) →
  marshal (Hub.setUser e msg) = Some jsonMessage →
  ∃ h', Hub.processBroadcast marshal decode range_clients msg e h = Hub.Done h'
    ∧ Hub.Clients h' = Hub.Clients h
    ∧ (∀ client c,
         is_Some (Hub.Clients h !! client) → Hub.store h !! client = Some c →
         (e = "" → Hub.store h' !! client = Some (Hub.enqueue jsonMessage c))
         ∧ (e ≠ "" → Hub.Email c ≠ e →
            Hub.store h' !! client = Some (Hub.enqueue jsonMessage c))
         ∧ (e ≠ "" → Hub.Email c = e → Hub.store h' !! client = Some c)).
Proof.
  intros Hlive Hroom Hjson.
  destruct (HubFacts.processBroadcast_open marshal decode range_clients Hcodec Hrange
              msg e h jsonMessage Hlive Hjson) as (h' & Hrun & Hin & Hout).
  exists h'. split; [done|]. split.
  - apply map_eq. intros client.
    destruct (Hub.Clients h !! client) as [flag|] eqn:Hflag.
    + destruct (Hlive client flag Hflag) as (c & Hc & _).
      destruct (Hin client c) as [_ Hl]; [by rewrite Hflag|done|].
      rewrite Hl, Hflag. unfold Hub.dropped.
      rewrite (Hroom client c) by (by rewrite ?Hflag). by rewrite andb_false_r.
    + by destruct (Hout client Hflag) as [_ ->].
  - intros client c Hclient Hc. destruct (Hin client c Hclient Hc) as [Hs _].
    rewrite Hs. unfold Hub.afterOffer, Hub.excluded.
    rewrite (Hroom client c Hclient Hc).
    split; [|split].
    + intros ->. done.
    + intros _ Hne. apply String.eqb_neq in Hne. rewrite Hne.
      by rewrite andb_false_r.
    + intros Hne Heq. apply String.eqb_neq in Hne. apply String.eqb_eq in Heq.
      by rewrite Hne, Heq.
Qed.

Lemma broadcast_delivery_witness :
  (∃ h', Hub.processBroadcast Hub.userMarshal Hub.userDecode Hub.keyOrder
           Hub.pingAll "" Hub.hubABC = Hub.Done h'
     ∧ Hub.store h' !! 1%positive = Some (Hub.session "a@example.org" [[]])
     ∧ Hub.store h' !! 2%positive = Some (Hub.session "b@example.org" [[]])
     ∧ Hub.store h' !! 3%positive = Some (Hub.session "c@example.org" [[]]))
  ∧ (∃ h', Hub.processBroadcast Hub.userMarshal Hub.userDecode Hub.keyOrder
             Hub.pingAll "a@example.org" Hub.hubABC = Hub.Done h'
       ∧ Hub.store h' !! 1%positive = Some (Hub.session "a@example.org" [])
       ∧ Hub.store h' !! 2%positive
         = Some (Hub.enqueue (list_byte_of_string "a@example.org")
                   (Hub.session "b@example.org" []))
       ∧ Hub.store h' !! 3%positive
         = Some (Hub.enqueue (list_byte_of_string "a@example.org")
                   (Hub.session "c@example.org" []))).
Proof.
  assert (Hroom : ∀ client c, is_Some (Hub.Clients Hub.hubABC !! client) →
            Hub.store Hub.hubABC !! client = Some c → Hub.full (Hub.Send c) = false).
  { intros client c Hclient Hc.
    destruct (hubABC_clients Hub.hubABC client eq_refl Hclient) as [-> | [-> | ->] ];
      vm_compute in Hc; injection Hc as <-; reflexivity. }
  split.
  - destruct (broadcast_delivery Hub.userMarshal Hub.userDecode Hub.keyOrder
                HubFacts.userCodec_ok HubFacts.keyOrder_enumerates
                Hub.pingAll "" Hub.hubABC [] hubABC_live_open Hroom eq_refl)
      as (h' & Hrun & _ & Hall).
    exists h'. split; [exact Hrun|].
    pose proof (Hall 1%positive _ (ex_intro _ true eq_refl) eq_refl) as (HA & _).
    pose proof (Hall 2%positive _ (ex_intro _ true eq_refl) eq_refl) as (HB & _).
    pose proof (Hall 3%positive _ (ex_intro _ true eq_refl) eq_refl) as (HC & _).
    split; [|split]; [apply HA | apply HB | apply HC]; reflexivity.
  - destruct (broadcast_delivery Hub.userMarshal Hub.userDecode Hub.keyOrder
                HubFacts.userCodec_ok HubFacts.keyOrder_enumerates
                Hub.pingAll "a@example.org" Hub.hubABC
                (list_byte_of_string "a@example.org")
                hubABC_live_open Hroom eq_refl)
      as (h' & Hrun & _ & Hall).
    exists h'. split; [exact Hrun|].
    pose proof (Hall 1%positive _ (ex_intro _ true eq_refl) eq_refl) as (_ & _ & HA).
    pose proof (Hall 2%positive _ (ex_intro _ true eq_refl) eq_refl) as (_ & HB & _).
    pose proof (Hall 3%positive _ (ex_intro _ true eq_refl) eq_refl) as (_ & HC & _).
    split; [|split]; [apply HA | apply HB | apply HC];
      first [reflexivity | discriminate].
Defined.

(** C8.  When, in one broadcast, the hub attempts delivery to a live session
    whose queue is full, the turn of [Run] completes without a panic, that
    session's queue is closed and the session is no longer in the live set,
    and every live session that is not excluded and whose queue has room
    still gets the message and stays live. *)
Theorem full_queue_drops_session
    (marshal : Hub.WebSocketMessage → option (list byte))
    (decode : list byte → option Hub.WebSocketMessage)
    (range_clients : gmap Hub.ptr bool → list Hub.ptr)
    (Hcodec : Hub.codec_ok marshal decode)
    (Hrange : Hub.enumerates_clients range_clients)
    (msg : Hub.WebSocketMessage) (e : string) (h : Hub.t) (jsonMessage : list byte)
    (client : Hub.ptr) (c : Hub.Client) :
  Hub.live_open h →
  marshal (Hub.setUser e msg) = Some jsonMessage →
  is_Some (Hub.Clients h !! client) → Hub.store h !! client = Some c →
  Hub.excluded e c = false → Hub.full (Hub.Send c) = true →
  ∃ h', Hub.processBroadcast marshal decode range_clients msg e h = Hub.Done h'
    ∧ Hub.Clients h' !! client = None
    ∧ Hub.store h' !! client = Some (Hub.closeQueue c)
    ∧ (∀ other c',
         is_Some (Hub.Clients h !! other) → Hub.store h !! other = Some c' →
         Hub.excluded e c' = false → Hub.full (Hub.Send c') = false →
         Hub.store h' !! other = Some (Hub.enqueue jsonMessage c')
         ∧ Hub.Clients h' !! other = Hub.Clients h !! other).
Proof.
  intros Hlive Hjson Hclient Hc Hexcl Hfull.
  destruct (HubFacts.processBroadcast_open marshal decode range_clients Hcodec Hrange
              msg e h jsonMessage Hlive Hjson) as (h' & Hrun & Hin & _).
  exists h'. split; [done|].
  destruct (Hin client c Hclient Hc) as [Hs Hl].
  unfold Hub.afterOffer, Hub.dropped in Hs, Hl. rewrite Hexcl, Hfull in Hs, Hl.
  split; [done|]. split; [done|].
  intros other c' Hother Hc' Hexcl' Hroom'.
  destruct (Hin other c' Hother Hc') as [Hs' Hl'].
  unfold Hub.afterOffer, Hub.dropped in Hs', Hl'. rewrite Hexcl', Hroom' in Hs', Hl'.
  done.
Qed.

Lemma full_queue_drops_session_witness :
  ∃ h', Hub.processBroadcast Hub.userMarshal Hub.userDecode Hub.keyOrder
          Hub.pingAll "" Hub.hubFull = Hub.Done h'
    ∧ Hub.Clients h' !! 2%positive = None
    ∧ Hub.store h' !! 2%positive
      = Some (Hub.mkClient "b@example.org" (Hub.mkChan [[x00]; [x01]] 2 true))
    ∧ Hub.store h' !! 1%positive = Some (Hub.session "a@example.org" [[]])
    ∧ Hub.Clients h' !! 1%positive = Some true
    ∧ Hub.store h' !! 3%positive = Some (Hub.session "c@example.org" [[]])
    ∧ Hub.Clients h' !! 3%positive = Some true.
Proof.
  destruct (full_queue_drops_session Hub.userMarshal Hub.userDecode Hub.keyOrder
              HubFacts.userCodec_ok HubFacts.keyOrder_enumerates
              Hub.pingAll "" Hub.hubFull [] 2%positive
              (Hub.session "b@example.org" [[x00]; [x01]])
              hubFull_live_open eq_refl (ex_intro _ true eq_refl)
              eq_refl eq_refl eq_refl)
    as (h' & Hrun & Hgone & Hclosed & Hothers).
  exists h'. split; [exact Hrun|]. split; [exact Hgone|]. split; [exact Hclosed|].
  destruct (Hothers 1%positive (Hub.session "a@example.org" [])
              (ex_intro _ true eq_refl) eq_refl eq_refl eq_refl) as [HA HA'].
  destruct (Hothers 3%positive (Hub.session "c@example.org" [])
              (ex_intro _ true eq_refl) eq_refl eq_refl eq_refl) as [HC HC'].
  repeat split; assumption.
Defined.

(** ** Properties of [SyncData] *)

Section sync_facts.
Variable range_order : gmap string Column.t → list (string * Column.t).
Variable marshal : Hub.WebSocketMessage → option (list byte).
Variables Request Store error : Type.
Variable contextEmail : Request → option string.
Variable authorization : Request → string.
Variable errorText : error → string.
Variable VerifyJWT : string → error + string.
Variable decodeBody : Request → option KanbanData.
Variable GetUserData : Store → string → error + KanbanData.
Variable SaveUserData : Store → string → KanbanData → Store * option error.

Local Abbreviation syncHandlers :=
  (Handlers.SyncData range_order marshal contextEmail decodeBody GetUserData
     SaveUserData).
Local Abbreviation syncMain :=
  (Main.SyncData range_order marshal authorization errorText VerifyJWT decodeBody
     GetUserData SaveUserData).
Local Abbreviation authenticateMain := (Main.authenticate authorization errorText VerifyJWT).

(** C9.  In both packages: when [SaveUserData] returns an error for the
    merged snapshot, [SyncData] puts nothing on the hub's broadcast channel
    and answers "Failed to save data" with status 500; conversely, a request
    that puts a message on the broadcast channel or is answered with status
    200 is one whose merged snapshot was saved without error. *)
Theorem failed_save_not_committed (r : Request) (w : world Store) :
  (∀ email clientData serverData db' err,
     contextEmail r = Some email → decodeBody r = Some clientData →
     GetUserData (db w) email = inr serverData →
     SaveUserData (db w) email
       (Handlers.mergeKanbanData range_order serverData clientData) = (db', Some err) →
     broadcast (syncHandlers r w).1 = broadcast w
     ∧ (syncHandlers r w).2 = HttpError "Failed to save data" StatusInternalServerError
     ∧ statusCode (syncHandlers r w).2 = 500%nat)
  ∧ (∀ email clientData serverData db' err,
     authenticateMain r = inr email → decodeBody r = Some clientData →
     GetUserData (db w) email = inr serverData →
     SaveUserData (db w) email
       (Main.mergeKanbanData range_order serverData clientData) = (db', Some err) →
     broadcast (syncMain r w).1 = broadcast w
     ∧ (syncMain r w).2 = HttpError "Failed to save data" StatusInternalServerError
     ∧ statusCode (syncMain r w).2 = 500%nat)
  ∧ (broadcast (syncHandlers r w).1 ≠ broadcast w
     ∨ statusCode (syncHandlers r w).2 = 200%nat →
     ∃ email clientData serverData,
       contextEmail r = Some email ∧ decodeBody r = Some clientData
       ∧ GetUserData (db w) email = inr serverData
       ∧ (SaveUserData (db w) email
            (Handlers.mergeKanbanData range_order serverData clientData)).2 = None)
  ∧ (broadcast (syncMain r w).1 ≠ broadcast w
     ∨ statusCode (syncMain r w).2 = 200%nat →
     ∃ email clientData serverData,
       authenticateMain r = inr email ∧ decodeBody r = Some clientData
       ∧ GetUserData (db w) email = inr serverData
       ∧ (SaveUserData (db w) email
            (Main.mergeKanbanData range_order serverData clientData)).2 = None).
Proof.
  split; [|split; [|split]].
  - intros email clientData serverData db' err Hemail Hbody Hget Hsave.
    unfold Handlers.SyncData. by rewrite Hemail, Hbody, Hget, Hsave.
  - intros email clientData serverData db' err Hemail Hbody Hget Hsave.
    unfold Main.SyncData. by rewrite Hemail, Hbody, Hget, Hsave.
  - unfold Handlers.SyncData.
    destruct (contextEmail r) as [email|]; [|simpl; intros [?|?]; done].
    destruct (decodeBody r) as [clientData|]; [|simpl; intros [?|?]; done].
    destruct (GetUserData (db w) email) as [?|serverData] eqn:Hget;
      [simpl; intros [?|?]; done|].
    destruct (SaveUserData (db w) email _) as [db' [err|]] eqn:Hsave;
      [simpl; intros [?|?]; done|].
    intros _. exists email, clientData, serverData. by rewrite Hsave.
  - unfold Main.SyncData.
    destruct (authenticateMain r) as [?|email]; [simpl; intros [?|?]; done|].
    destruct (decodeBody r) as [clientData|]; [|simpl; intros [?|?]; done].
    destruct (GetUserData (db w) email) as [?|serverData] eqn:Hget;
      [simpl; intros [?|?]; done|].
    destruct (SaveUserData (db w) email _) as [db' [err|]] eqn:Hsave;
      [simpl; intros [?|?]; done|].
    intros _. exists email, clientData, serverData. by rewrite Hsave.
Qed.

End sync_facts.

Lemma failed_save_not_committed_witness :
  broadcast (Handlers.SyncData mapOrder Hub.userMarshal fst snd sampleGet failingSave
               (Some "a@example.org", Some clientA) sampleWorld).1 = []
  ∧ statusCode
      (Handlers.SyncData mapOrder Hub.userMarshal fst snd sampleGet failingSave
         (Some "a@example.org", Some clientA) sampleWorld).2 = 500%nat
  ∧ ∃ email clientData serverData,
      (Some email, Some clientData) = (Some "a@example.org", Some clientA)
      ∧ sampleGet (db sampleWorld) email = inr serverData
      ∧ (workingSave (db sampleWorld) email
           (Handlers.mergeKanbanData mapOrder serverData clientData)).2 = None.
Proof.
  pose proof (failed_save_not_committed mapOrder Hub.userMarshal sampleRequest
                (gmap string KanbanData) unit fst (λ _, "") (λ _, "") inr snd
                sampleGet failingSave (Some "a@example.org", Some clientA) sampleWorld)
    as (Hfail & _).
  destruct (Hfail "a@example.org" clientA serverA (db sampleWorld) tt
              eq_refl eq_refl eq_refl eq_refl) as (Hquiet & _ & Hstatus).
  pose proof (failed_save_not_committed mapOrder Hub.userMarshal sampleRequest
                (gmap string KanbanData) unit fst (λ _, "") (λ _, "") inr snd
                sampleGet workingSave (Some "a@example.org", Some clientA) sampleWorld)
    as (_ & _ & Hcommitted & _).
  destruct Hcommitted as (email & clientData & serverData & Hemail & Hbody & Hget & Hsave);
    [right; reflexivity|].
  split; [exact Hquiet|]. split; [exact Hstatus|].
  exists email, clientData, serverData. simpl in Hemail, Hbody.
  split; [by rewrite <- Hemail, <- Hbody|]. by split.
Defined.

(** ** The model on the sample data *)

Example scenario_A_tasks :
  Tasks (mergeKanbanData PkgHandlers mapOrder serverA clientA)
  = [sampleTask "t9" None false; sampleTask "t1" (Some "c1") false].
Proof. vm_compute. reflexivity. Qed.

Example scenario_B_tasks :
  Tasks (mergeKanbanData PkgHandlers mapOrder serverB clientB)
  = [sampleTask "t2" None false].
Proof. vm_compute. reflexivity. Qed.

Example legacy_list_is_folded_in :
  mergeKanbanData PkgMain mapOrder legacySnapshot legacySnapshot
  = board [] [sampleTask "t1" None false] [].
Proof. vm_compute. reflexivity. Qed.

Example stale_client_copy_wins :
  Tasks (mergeKanbanData PkgMain mapOrder serverD clientD)
  = [sampleTask "t1" (Some "c1") false].
Proof. vm_compute. reflexivity. Qed.

Example one_column_per_server_id :
  Columns (mergeKanbanData PkgMain mapOrder serverE clientE)
  = [sampleColumn "a" "second" false].
Proof. vm_compute. reflexivity. Qed.

Example Split_keeps_empty_pieces : Split "Bearer  x" = ["Bearer"; ""; "x"].
Proof. reflexivity. Qed.

Example full_session_leaves_live_set :
  match Hub.processBroadcast Hub.userMarshal Hub.userDecode Hub.keyOrder
          Hub.pingAll "" Hub.hubFull with
  | Hub.Done h' => Hub.keyOrder (Hub.Clients h') = [3%positive; 1%positive]
  | Hub.Panic => False
  end.
Proof. vm_compute. reflexivity. Qed.

Example sync_with_working_save :
  Handlers.SyncData mapOrder Hub.userMarshal fst snd sampleGet workingSave
    (Some "a@example.org", Some clientA) sampleWorld
  = (mkWorld (<["a@example.org" :=
                 Handlers.mergeKanbanData mapOrder serverA clientA]> (db sampleWorld))
             [[]],
     HttpSuccess (Handlers.mergeKanbanData mapOrder serverA clientA)).
Proof. vm_compute. reflexivity. Qed.

(** ** Further properties of the hub and its sessions *)

Module ConnFacts.
Import Hub Conn.

Section run.
Variable decode : list byte → option WebSocketMessage.
Variable range_clients : gmap ptr bool → list ptr.
Hypothesis range_clients_ok : enumerates_clients range_clients.

(** The broadcast turn of [Run] on a hub whose live sessions have open
    queues. *)
Lemma Run_broadcast_open (jsonMessage : list byte) (wsMessage : WebSocketMessage)
    (h : t) :
  live_open h → decode jsonMessage = Some wsMessage →
  ∃ h', Run_step decode range_clients (OnBroadcast jsonMessage) h = Done h'
    ∧ (∀ client c, is_Some (Clients h !! client) → store h !! client = Some c →
         store h' !! client = Some (afterOffer (User wsMessage) jsonMessage c)
         ∧ Clients h' !! client
           = if dropped (User wsMessage) c then None else Clients h !! client)
    ∧ (∀ client, Clients h !! client = None →
         store h' !! client = store h !! client ∧ Clients h' !! client = None).
Proof.
  intros Hlive Hdecode. simpl. rewrite Hdecode.
  destruct (HubFacts.forEach_offer (User wsMessage) jsonMessage
              (range_clients (Clients h))
              (HubFacts.range_clients_NoDup _ range_clients_ok _) h)
    as (h' & Hrun & Hin & Hout).
  { intros client Hclient.
    apply (HubFacts.range_clients_elem _ range_clients_ok) in Hclient as [flag Hflag].
    by apply (Hlive client flag). }
  exists h'. split; [done|]. split.
  - intros client c Hclient. apply Hin.
    by apply (HubFacts.range_clients_elem _ range_clients_ok).
  - intros client Hnone. destruct (Hout client) as [Hs Hl].
    + rewrite (HubFacts.range_clients_elem _ range_clients_ok), Hnone. by intros [? ?].
    + by rewrite Hs, Hl.
Qed.

(** On such a hub no turn of [Run] panics, unless the client that registers
    is nil. *)
Lemma Run_step_Done (ev : event) (h : t) :
  live_open h →
  (∀ client, ev = OnRegister client → is_Some (store h !! client)) →
  ∃ h', Run_step decode range_clients ev h = Done h'.
Proof.
  intros Hlive Hreg. destruct ev as [client|client|jsonMessage]; simpl.
  - destruct (Hreg client eq_refl) as [c ->]. eauto.
  - destruct (Clients h !! client) as [flag|] eqn:Hclient; [|eauto].
    destruct (Hlive client flag Hclient) as (c & -> & Hopen).
    unfold close. rewrite Hopen. simpl. eauto.
  - destruct (decode jsonMessage) as [wsMessage|] eqn:Hdecode; [|eauto].
    destruct (Run_broadcast_open jsonMessage wsMessage h Hlive Hdecode)
      as (h' & Hrun & _).
    simpl in Hrun. rewrite Hdecode in Hrun. eauto.
Qed.

Lemma afterOffer_moves (excludeEmail : string) (message : list byte) (c : Client) :
  closed (Send c) = false → queue_moves c (afterOffer excludeEmail message c).
Proof.
  intros Hopen. unfold afterOffer, full.
  destruct (excluded excludeEmail c); [by split; [|split; [|left]]|].
  destruct (length (buf (Send c)) <? cap (Send c))%nat eqn:Hroom; simpl.
  - split; [done|]. split; [done|]. right. right.
    apply Nat.ltb_lt in Hroom. eauto.
  - split; [done|]. split; [done|]. right. by left.
Qed.

Lemma Run_step_store (ev : event) (h h' : t) :
  live_open h → Run_step decode range_clients ev h = Done h' →
  ∀ client, (store h' !! client = store h !! client)
            ∨ (∃ c c', store h !! client = Some c ∧ store h' !! client = Some c'
                       ∧ queue_moves c c').
Proof.
  intros Hlive Hstep client0.
  destruct ev as [client|client|jsonMessage]; simpl in Hstep.
  - destruct (store h !! client) as [c0|]; [|done].
    injection Hstep as <-. by left.
  - destruct (Clients h !! client) as [flag|] eqn:Hclient;
      [|injection Hstep as <-; by left].
    destruct (Hlive client flag Hclient) as (c & Hc & Hopen).
    rewrite Hc in Hstep. unfold close in Hstep. rewrite Hopen in Hstep.
    simpl in Hstep. injection Hstep as <-. simpl.
    destruct (decide (client0 = client)) as [->|Hne];
      [|left; by rewrite lookup_insert_ne].
    right. exists c. eexists. rewrite lookup_insert_eq.
    split; [done|]. split; [done|]. split; [done|]. split; [done|].
    right. by left.
  - destruct (decode jsonMessage) as [wsMessage|] eqn:Hdecode;
      [|injection Hstep as <-; by left].
    destruct (Run_broadcast_open jsonMessage wsMessage h Hlive Hdecode)
      as (h1 & Hrun & Hin & Hout).
    simpl in Hrun. rewrite Hdecode in Hrun. rewrite Hrun in Hstep.
    injection Hstep as <-.
    destruct (Clients h !! client0) as [flag|] eqn:Hclient.
    + destruct (Hlive client0 flag Hclient) as (c & Hc & Hopen).
      destruct (Hin client0 c) as [Hs _]; [by rewrite Hclient|done|].
      right. exists c. eexists. split; [done|]. split; [done|].
      by apply afterOffer_moves.
    + left. by destruct (Hout client0 Hclient) as [-> _].
Qed.

Lemma queue_moves_open (c c' : Client) (flag : bool) :
  queue_moves c c' → closed (Send c') = false → closed (Send c) = false.
Proof.
  intros (_ & _ & [->|[[Hopen _]|[Hopen _]]]); done.
Qed.

Lemma queue_moves_bounded (c c' : Client) :
  queue_moves c c' →
  cap (Send c) = sendBuffer ∧ (length (buf (Send c)) ≤ sendBuffer)%nat →
  cap (Send c') = sendBuffer ∧ (length (buf (Send c')) ≤ sendBuffer)%nat.
Proof.
  intros (_ & Hcap & Hmove) [Hc Hlen]. rewrite Hcap. split; [done|].
  destruct Hmove as [->|[[_ ->]|(_ & Hroom & message & ->)]]; simpl; [done|done|].
  rewrite length_app. simpl. lia.
Qed.

Lemma Run_step_bounded (ev : event) (h h' : t) :
  live_open h → bounded h →
  Run_step decode range_clients ev h = Done h' → bounded h'.
Proof.
  intros Hlive Hbounded Hstep client c' Hc'.
  destruct (Run_step_store ev h h' Hlive Hstep client) as [Hsame|(c & c0 & Hc & Hc0 & Hmove)].
  - apply (Hbounded client). by rewrite <- Hsame.
  - replace c' with c0 by congruence.
    apply (queue_moves_bounded c); [done|]. by apply (Hbounded client).
Qed.

(** The write pump takes messages off its queue and leaves the rest of the
    channel as it is. *)
Lemma WritePump_step_queue (ok1 ok2 ok3 : bool) (case : wake) (c : chan) (w : written) :
  WritePump_step ok1 ok2 ok3 case c = Some w →
  closed (queue w) = closed c ∧ cap (queue w) = cap c
  ∧ (length (buf (queue w)) ≤ length (buf c))%nat.
Proof.
  unfold WritePump_step. destruct case.
  - destruct (buf c) as [|message queued] eqn:Hbuf.
    + destruct (closed c) eqn:Hclosed; [|done]. intros [= <-]. simpl.
      by rewrite Hbuf, Hclosed.
    + destruct ok1; simpl; [destruct ok2|]; intros [= <-]; simpl;
        (split; [done|split; [done|lia]]).
  - destruct ok3; intros [= <-]; simpl; done.
Qed.

(** A turn of the read pump that goes on either leaves the hub as it is, or
    puts a pong on the client's own open queue, or is a broadcast turn of
    [Run]. *)
Lemma ReadPump_step_Continue unmarshal marshal now timestamp
    (client : ptr) (input : inbound) (h h' : t) :
  ReadPump_step unmarshal marshal decode range_clients now timestamp client input h
  = Continue h' →
  h' = h
  ∨ (∃ c pongJSON, store h !! client = Some c ∧ closed (Send c) = false
       ∧ (length (buf (Send c)) < cap (Send c))%nat
       ∧ h' = mk (Clients h) (<[client := enqueue pongJSON c]> (store h)))
  ∨ (∃ jsonMessage,
       Run_step decode range_clients (OnBroadcast jsonMessage) h = Done h').
Proof.
  unfold ReadPump_step.
  destruct (store h !! client) as [c|] eqn:Hc; [|done].
  destruct input as [|message].
  { by destruct (Run_step _ _ (OnUnregister client) h). }
  destruct (unmarshal message) as [wsMessage|]; [|intros [= <-]; by left].
  destruct (String.eqb (Type_ (setUser (Email c) wsMessage)) "ping").
  - destruct (marshal _) as [pongJSON|]; [|intros [= <-]; by left].
    unfold trySend. destruct (closed (Send c)) eqn:Hopen; [done|].
    destruct (length (buf (Send c)) <? cap (Send c))%nat eqn:Hroom; [|done].
    intros [= <-]. right. left. exists c, pongJSON.
    apply Nat.ltb_lt in Hroom. done.
  - destruct (marshal _) as [jsonMessage|]; [|intros [= <-]; by left].
    destruct (Run_step _ _ (OnBroadcast jsonMessage) h) as [h1|] eqn:Hrun; [|done].
    intros [= <-]. right. right. eauto.
Qed.

Lemma ReadPump_step_Return unmarshal marshal now timestamp
    (client : ptr) (input : inbound) (h h' : t) :
  ReadPump_step unmarshal marshal decode range_clients now timestamp client input h
  = Return h' →
  Run_step decode range_clients (OnUnregister client) h = Done h'.
Proof.
  unfold ReadPump_step.
  destruct (store h !! client) as [c|] eqn:Hc; [|done].
  destruct input as [|message].
  { destruct (Run_step _ _ (OnUnregister client) h); [|done]. by intros [= <-]. }
  destruct (unmarshal message) as [wsMessage|]; [|done].
  destruct (String.eqb (Type_ (setUser (Email c) wsMessage)) "ping").
  - destruct (marshal _) as [pongJSON|]; [|done].
    by destruct (trySend pongJSON (Send c)).
  - destruct (marshal _) as [jsonMessage|]; [|done].
    by destruct (Run_step _ _ (OnBroadcast jsonMessage) h).
Qed.

(** Replacing the queue of one client by one with the same [closed] flag
    keeps the live sessions' queues open. *)
Lemma live_open_requeue (h : t) (client : ptr) (c c' : Client) :
  live_open h → store h !! client = Some c →
  closed (Send c') = closed (Send c) →
  live_open (mk (Clients h) (<[client := c']> (store h))).
Proof.
  intros Hlive Hc Hsame q flag Hq. simpl in *.
  destruct (Hlive q flag Hq) as (cq & Hcq & Hopen).
  destruct (decide (q = client)) as [->|Hne].
  - exists c'. rewrite lookup_insert_eq. split; [done|]. congruence.
  - exists cq. by rewrite lookup_insert_ne.
Qed.

Lemma bounded_requeue (h : t) (client : ptr) (c' : Client) :
  bounded h →
  cap (Send c') = sendBuffer ∧ (length (buf (Send c')) ≤ sendBuffer)%nat →
  bounded (mk (Clients h) (<[client := c']> (store h))).
Proof.
  intros Hbounded Hc' q cq Hq. simpl in Hq.
  destruct (decide (q = client)) as [->|Hne].
  - rewrite lookup_insert_eq in Hq. by injection Hq as <-.
  - rewrite lookup_insert_ne in Hq by done. by apply (Hbounded q).
Qed.

Lemma evolves_invariant (h h' : t) :
  evolves decode range_clients h h' →
  live_open h ∧ bounded h → live_open h' ∧ bounded h'.
Proof.
  intros Hstep [Hlive Hbounded].
  destruct Hstep as [email h client h' Hserve|client h h' Hrun|message h h' Hrun
                    |client c ok1 ok2 ok3 case w h Hc Hw
                    |unmarshal marshal now timestamp client input h h' Hread
                    |unmarshal marshal now timestamp client input h h' Hread].
  - unfold HandleWebSocket, Run_step in Hserve. cbn [store Clients] in Hserve.
    rewrite lookup_insert_eq in Hserve. injection Hserve as <- <-.
    set (client := fresh (dom (store h))).
    assert (Hfresh : store h !! client = None).
    { apply not_elem_of_dom. apply is_fresh. }
    split.
    + intros q flag Hq. simpl in *.
      destruct (decide (q = client)) as [->|Hne].
      * exists (newClient email). by rewrite lookup_insert_eq.
      * rewrite lookup_insert_ne in Hq by done. rewrite lookup_insert_ne by done.
        by apply (Hlive q flag).
    + intros q cq Hq. simpl in Hq.
      destruct (decide (q = client)) as [->|Hne].
      * rewrite lookup_insert_eq in Hq. injection Hq as <-. simpl.
        split; [done|]. unfold sendBuffer. lia.
      * rewrite lookup_insert_ne in Hq by done. by apply (Hbounded q).
  - split; [|by eapply Run_step_bounded].
    apply (HubFacts.Run_step_live_open decode range_clients range_clients_ok
             (OnUnregister client) h h'); [done|done|done].
  - split; [|by eapply Run_step_bounded].
    apply (HubFacts.Run_step_live_open decode range_clients range_clients_ok
             (OnBroadcast message) h h'); [done|done|done].
  - apply WritePump_step_queue in Hw as (Hclosed & Hcap & Hlen).
    destruct (Hbounded client c Hc) as [Hcap0 Hlen0]. split.
    + by apply (live_open_requeue h client c).
    + apply bounded_requeue; [done|]. simpl. split; [congruence|lia].
  - apply ReadPump_step_Continue in Hread
      as [->|[(c & pongJSON & Hc & Hopen & Hroom & ->)|(jsonMessage & Hrun)]]; [done| |].
    + destruct (Hbounded client c Hc) as [Hcap0 Hlen0]. split.
      * by apply (live_open_requeue h client c).
      * apply bounded_requeue; [done|]. simpl. split; [done|].
        rewrite length_app. simpl. lia.
    + split; [|by eapply Run_step_bounded].
      apply (HubFacts.Run_step_live_open decode range_clients range_clients_ok
               (OnBroadcast jsonMessage) h h'); [done|done|done].
  - apply ReadPump_step_Return in Hread. split; [|by eapply Run_step_bounded].
    apply (HubFacts.Run_step_live_open decode range_clients range_clients_ok
             (OnUnregister client) h h'); [done|done|done].
Qed.

Lemma reachable_invariant (h : t) :
  reachable decode range_clients h → live_open h ∧ bounded h.
Proof.
  unfold reachable. intros Hreach.
  eapply (rtc_ind_r (λ h, live_open h ∧ bounded h) (NewHub ∅)); [| |exact Hreach].
  - split; [by apply HubFacts.NewHub_live_open|].
    intros client c Hc. simpl in Hc. by rewrite lookup_empty in Hc.
  - intros h1 h2 _ Hstep IH. by apply (evolves_invariant h1 h2).
Qed.

(** Broadcasts pass by a client that is not in the live set. *)
Lemma Run_broadcasts_absent (messages : list (list byte)) (h : t) (client : ptr) :
  live_open h → Clients h !! client = None →
  ∃ h', Run_broadcasts decode range_clients messages h = Done h'
    ∧ store h' !! client = store h !! client ∧ Clients h' !! client = None.
Proof.
  revert h. induction messages as [|message messages IH]; intros h Hlive Hnone.
  - exists h. done.
  - destruct (Run_step_Done (OnBroadcast message) h Hlive) as (h1 & Hrun);
      [discriminate|].
    assert (Hlive1 : live_open h1).
    { by apply (HubFacts.Run_step_live_open decode range_clients range_clients_ok
                  (OnBroadcast message) h h1). }
    assert (Hsame : store h1 !! client = store h !! client ∧ Clients h1 !! client = None).
    { simpl in Hrun. destruct (decode message) as [wsMessage|] eqn:Hdecode.
      - destruct (Run_broadcast_open message wsMessage h Hlive Hdecode)
          as (h2 & Hrun2 & _ & Hout).
        simpl in Hrun2. rewrite Hdecode in Hrun2. rewrite Hrun in Hrun2.
        injection Hrun2 as ->. by apply Hout.
      - by injection Hrun as <-. }
    destruct Hsame as [Hs Hl].
    destruct (IH h1 Hlive1 Hl) as (h' & Hrest & Hs' & Hl').
    exists h'. cbn [Run_broadcasts]. rewrite Hrun. simpl.
    split; [done|]. split; [congruence|done].
Qed.

Lemma Run_broadcasts_capacity (messages : list (list byte)) :
  ∀ (h : t) (client : ptr) (c : Client),
  live_open h → is_Some (Clients h !! client) → store h !! client = Some c →
  (length (buf (Send c)) ≤ cap (Send c))%nat →
  Forall (λ message, ∃ wsMessage, decode message = Some wsMessage
                                  ∧ excluded (User wsMessage) c = false) messages →
  ∃ h', Run_broadcasts decode range_clients messages h = Done h'
    ∧ ((length messages ≤ cap (Send c) - length (buf (Send c)))%nat →
       store h' !! client
       = Some (setSend (mkChan (buf (Send c) ++ messages) (cap (Send c)) false) c)
       ∧ Clients h' !! client = Clients h !! client)
    ∧ ((cap (Send c) - length (buf (Send c)) < length messages)%nat →
       store h' !! client
       = Some (setSend (mkChan (buf (Send c)
                                ++ take (cap (Send c) - length (buf (Send c))) messages)
                         (cap (Send c)) true) c)
       ∧ Clients h' !! client = None).
Proof.
  induction messages as [|message messages IH];
    intros h client c Hlive Hclient Hc Hlen Hall.
  - exists h. split; [done|]. split; [|simpl; lia].
    intros _. rewrite app_nil_r. split; [|done].
    destruct (Hlive client) with (flag := default true (Clients h !! client))
      as (c0 & Hc0 & Hopen).
    { by destruct Hclient as [flag ->]. }
    replace c0 with c in Hopen by congruence.
    rewrite Hc. f_equal. destruct c as [email [queued capacity isClosed]].
    simpl in *. by subst isClosed.
  - apply Forall_cons in Hall as [(wsMessage & Hdecode & Hexcl) Hall].
    destruct (Run_broadcast_open message wsMessage h Hlive Hdecode)
      as (h1 & Hrun & Hin & _).
    assert (Hlive1 : live_open h1).
    { by apply (HubFacts.Run_step_live_open decode range_clients range_clients_ok
                  (OnBroadcast message) h h1). }
    destruct (Hin client c Hclient Hc) as [Hs Hl].
    unfold afterOffer, dropped in Hs, Hl. rewrite Hexcl in Hs, Hl. simpl in Hl.
    cbn [Run_broadcasts]. rewrite Hrun. simpl.
    destruct (full (Send c)) eqn:Hfull.
    + (* no room: the session is dropped now *)
      destruct (Run_broadcasts_absent messages h1 client Hlive1 Hl)
        as (h' & Hrest & Hs' & Hl').
      unfold full in Hfull. apply negb_true_iff, Nat.ltb_ge in Hfull.
      exists h'. split; [done|]. split; [simpl; lia|].
      intros _. replace (cap (Send c) - length (buf (Send c)))%nat with 0%nat by lia.
      rewrite take_0, app_nil_r. by rewrite Hs', Hs.
    + unfold full in Hfull. apply negb_false_iff, Nat.ltb_lt in Hfull.
      destruct (IH h1 client (enqueue message c)) as (h' & Hrest & Hfits & Hover).
      * done.
      * rewrite Hl. done.
      * done.
      * simpl. rewrite length_app. simpl. lia.
      * apply (Forall_impl _ _ _ Hall). intros m (ws & Hd & He).
        exists ws. split; [exact Hd | exact He].
      * simpl in Hfits, Hover. rewrite length_app in Hfits, Hover.
        simpl in Hfits, Hover. rewrite <- app_assoc in Hfits, Hover.
        simpl in Hfits, Hover.
        exists h'. split; [done|]. split.
        -- intros Hle. simpl in Hle. destruct Hfits as [Hs' Hl']; [lia|].
           split; [done|]. by rewrite Hl', Hl.
        -- intros Hgt. simpl in Hgt. destruct Hover as [Hs' Hl']; [lia|].
           split; [|done]. rewrite Hs'. unfold setSend. simpl.
           replace (cap (Send c) - length (buf (Send c)))%nat
             with (S (cap (Send c) - (length (buf (Send c)) + 1)))%nat by lia.
           done.
Qed.

End run.
End ConnFacts.

Lemma hubOne_reachable : Conn.reachable Hub.userDecode Hub.keyOrder hubOne.
Proof.
  apply rtc_once. by apply (Conn.evolves_connect _ _ "a@example.org" _ 1%positive).
Qed.

(** X1.  In every state the hub can reach from [NewHub] — by connections made
    through [HandleWebSocket], by turns of [Run], and by what the read and
    write pumps do to the queues — every live session has an open queue and
    every queue holds at most 256 messages.  In such a state a turn of [Run]
    panics for one event only: the registration of a nil client, whose
    [Email] the log line reads.  No unregister event, no broadcast and no
    registration of an allocated client makes it panic. *)
Theorem hub_panics_only_for_nil_client
    (decode : list byte → option Hub.WebSocketMessage)
    (range_clients : gmap Hub.ptr bool → list Hub.ptr)
    (Hrange : Hub.enumerates_clients range_clients) (h : Hub.t) :
  Conn.reachable decode range_clients h →
  Hub.live_open h ∧ Conn.bounded h
  ∧ (∀ ev, (∀ client, ev = Hub.OnRegister client → is_Some (Hub.store h !! client)) →
       ∃ h', Hub.Run_step decode range_clients ev h = Hub.Done h')
  ∧ (∀ client, Hub.store h !! client = None →
       Hub.Run_step decode range_clients (Hub.OnRegister client) h = Hub.Panic).
Proof.
  intros Hreach.
  destruct (ConnFacts.reachable_invariant decode range_clients Hrange h Hreach)
    as [Hlive Hbounded].
  split; [done|]. split; [done|]. split.
  - intros ev Hreg. by apply ConnFacts.Run_step_Done.
  - intros client Hnil. simpl. by rewrite Hnil.
Qed.

Lemma hub_panics_only_for_nil_client_witness :
  (∃ h', Hub.Run_step Hub.userDecode Hub.keyOrder (Hub.OnBroadcast []) hubOne
         = Hub.Done h')
  ∧ (∃ h', Hub.Run_step Hub.userDecode Hub.keyOrder (Hub.OnRegister 1%positive) hubOne
           = Hub.Done h')
  ∧ Hub.Run_step Hub.userDecode Hub.keyOrder (Hub.OnRegister 2%positive) hubOne
    = Hub.Panic.
Proof.
  destruct (hub_panics_only_for_nil_client Hub.userDecode Hub.keyOrder
              HubFacts.keyOrder_enumerates hubOne hubOne_reachable)
    as (_ & _ & Hsafe & Hnil).
  split; [|split].
  - apply Hsafe. discriminate.
  - apply Hsafe. intros client [= <-]. by eexists.
  - apply Hnil. reflexivity.
Defined.

(** X2.  Unregistering is idempotent and safe: on a hub whose live sessions
    have open queues the unregister turn of [Run] never panics, takes the
    client out of the live set and closes its queue if it was live, changes
    nothing if it was not, touches no other client, and a second unregister
    of the same client changes nothing more. *)
Theorem unregister_idempotent
    (decode : list byte → option Hub.WebSocketMessage)
    (range_clients : gmap Hub.ptr bool → list Hub.ptr)
    (h : Hub.t) (client : Hub.ptr) :
  Hub.live_open h →
  ∃ h', Hub.Run_step decode range_clients (Hub.OnUnregister client) h = Hub.Done h'
    ∧ Hub.Run_step decode range_clients (Hub.OnUnregister client) h' = Hub.Done h'
    ∧ Hub.Clients h' = delete client (Hub.Clients h)
    ∧ (∀ c, is_Some (Hub.Clients h !! client) → Hub.store h !! client = Some c →
         Hub.store h' !! client = Some (Hub.closeQueue c))
    ∧ (Hub.Clients h !! client = None → h' = h)
    ∧ (∀ other, other ≠ client → Hub.store h' !! other = Hub.store h !! other).
Proof.
  intros Hlive. simpl.
  destruct (Hub.Clients h !! client) as [flag|] eqn:Hclient.
  - destruct (Hlive client flag Hclient) as (c & Hc & Hopen).
    rewrite Hc. unfold Hub.close. rewrite Hopen. simpl.
    eexists. split; [reflexivity|]. simpl. rewrite lookup_delete_eq.
    split; [done|]. split; [done|]. split; [|split; [done|]].
    + intros c' _ [= <-]. by rewrite lookup_insert_eq.
    + intros other Hne. by rewrite lookup_insert_ne.
  - exists h. rewrite Hclient. split; [done|]. split; [done|].
    split; [by rewrite delete_id|]. split; [by intros c [? ?]|]. done.
Qed.

Lemma unregister_idempotent_witness :
  ∃ h', Hub.Run_step Hub.userDecode Hub.keyOrder (Hub.OnUnregister 2%positive)
          Hub.hubABC = Hub.Done h'
    ∧ Hub.Run_step Hub.userDecode Hub.keyOrder (Hub.OnUnregister 2%positive) h'
      = Hub.Done h'
    ∧ Hub.store h' !! 2%positive
      = Some (Hub.closeQueue (Hub.session "b@example.org" [])).
Proof.
  destruct (unregister_idempotent Hub.userDecode Hub.keyOrder Hub.hubABC 2%positive
              hubABC_live_open) as (h' & Hfirst & Hsecond & _ & Hclosed & _).
  exists h'. split; [exact Hfirst|]. split; [exact Hsecond|].
  apply Hclosed; [by exists true | reflexivity].
Defined.

(** X3.  A live session that is not excluded and whose write pump takes
    nothing off its queue receives the broadcasts in order as long as there
    is room; the broadcast that finds its queue at capacity drops it, with
    the messages queued so far left in the closed queue, and later broadcasts
    pass it by. *)
Theorem undrained_session_capacity
    (decode : list byte → option Hub.WebSocketMessage)
    (range_clients : gmap Hub.ptr bool → list Hub.ptr)
    (Hrange : Hub.enumerates_clients range_clients)
    (messages : list (list byte)) (h : Hub.t) (client : Hub.ptr) (c : Hub.Client) :
  Hub.live_open h → is_Some (Hub.Clients h !! client) →
  Hub.store h !! client = Some c →
  (length (Hub.buf (Hub.Send c)) ≤ Hub.cap (Hub.Send c))%nat →
  Forall (λ message, ∃ wsMessage, decode message = Some wsMessage
                       ∧ Hub.excluded (Hub.User wsMessage) c = false) messages →
  ∃ h', Conn.Run_broadcasts decode range_clients messages h = Hub.Done h'
    ∧ ((length messages ≤ Hub.cap (Hub.Send c) - length (Hub.buf (Hub.Send c)))%nat →
       Hub.store h' !! client
       = Some (Hub.setSend
                 (Hub.mkChan (Hub.buf (Hub.Send c) ++ messages)
                    (Hub.cap (Hub.Send c)) false) c)
       ∧ Hub.Clients h' !! client = Hub.Clients h !! client)
    ∧ ((Hub.cap (Hub.Send c) - length (Hub.buf (Hub.Send c)) < length messages)%nat →
       Hub.store h' !! client
       = Some (Hub.setSend
                 (Hub.mkChan
                    (Hub.buf (Hub.Send c)
                     ++ take (Hub.cap (Hub.Send c) - length (Hub.buf (Hub.Send c)))
                          messages)
                    (Hub.cap (Hub.Send c)) true) c)
       ∧ Hub.Clients h' !! client = None).
Proof.
  intros. by apply ConnFacts.Run_broadcasts_capacity.
Qed.

Lemma undrained_session_capacity_witness :
  ∃ h', Conn.Run_broadcasts Hub.userDecode Hub.keyOrder [[x61]; [x62]; [x63]]
          Hub.hubABC = Hub.Done h'
    ∧ Hub.store h' !! 1%positive
      = Some (Hub.mkClient "a@example.org" (Hub.mkChan [[x61]; [x62]] 2 true))
    ∧ Hub.Clients h' !! 1%positive = None.
Proof.
  destruct (undrained_session_capacity Hub.userDecode Hub.keyOrder
              HubFacts.keyOrder_enumerates [[x61]; [x62]; [x63]] Hub.hubABC
              1%positive (Hub.session "a@example.org" [])
              hubABC_live_open (ex_intro _ true eq_refl) eq_refl)
    as (h' & Hrun & _ & Hover).
  - simpl. lia.
  - repeat constructor; eexists; (split; [reflexivity|reflexivity]).
  - exists h'. split; [exact Hrun|]. apply Hover. simpl. lia.
Defined.

(** X4.  [HandleWebSocket] adds a session and takes none away: the new client
    gets an address no client had, an open empty queue of 256 slots and a
    place in the live set, every other entry of the live set and of the store
    stays as it is (also sessions of the same user), and the next broadcast
    that does not exclude its email is put on its queue. *)
Theorem new_session_receives_broadcasts
    (marshal : Hub.WebSocketMessage → option (list byte))
    (decode : list byte → option Hub.WebSocketMessage)
    (range_clients : gmap Hub.ptr bool → list Hub.ptr)
    (Hcodec : Hub.codec_ok marshal decode)
    (Hrange : Hub.enumerates_clients range_clients)
    (h : Hub.t) (email : string)
    (msg : Hub.WebSocketMessage) (e : string) (jsonMessage : list byte) :
  Hub.live_open h →
  marshal (Hub.setUser e msg) = Some jsonMessage →
  Hub.excluded e (Conn.newClient email) = false →
  ∃ client h1 h2,
    Conn.HandleWebSocket decode range_clients (Some email) true h
    = Conn.Serving client (Hub.Done h1)
    ∧ Hub.store h !! client = None
    ∧ Hub.Clients h1 = <[client := true]> (Hub.Clients h)
    ∧ Hub.store h1 = <[client := Conn.newClient email]> (Hub.store h)
    ∧ Hub.live_open h1
    ∧ Hub.processBroadcast marshal decode range_clients msg e h1 = Hub.Done h2
    ∧ Hub.store h2 !! client = Some (Hub.enqueue jsonMessage (Conn.newClient email))
    ∧ Hub.Clients h2 !! client = Some true.
Proof.
  intros Hlive Hjson Hexcl.
  set (client := fresh (dom (Hub.store h))).
  set (h1 := Hub.mk (<[client := true]> (Hub.Clients h))
                    (<[client := Conn.newClient email]> (Hub.store h))).
  assert (Hfresh : Hub.store h !! client = None).
  { apply not_elem_of_dom. apply is_fresh. }
  assert (Hlive1 : Hub.live_open h1).
  { intros q flag Hq. simpl in *.
    destruct (decide (q = client)) as [->|Hne].
    - exists (Conn.newClient email). by rewrite lookup_insert_eq.
    - rewrite lookup_insert_ne in Hq by done. rewrite lookup_insert_ne by done.
      by apply (Hlive q flag). }
  destruct (HubFacts.processBroadcast_open marshal decode range_clients Hcodec Hrange
              msg e h1 jsonMessage Hlive1 Hjson) as (h2 & Hrun & Hin & _).
  exists client, h1, h2. split.
  { unfold Conn.HandleWebSocket, Hub.Run_step. cbn [Hub.store Hub.Clients].
    fold client. by rewrite lookup_insert_eq. }
  split; [done|]. split; [done|].
  split; [done|]. split; [done|]. split; [done|].
  destruct (Hin client (Conn.newClient email)) as [Hs Hl].
  - simpl. rewrite lookup_insert_eq. by eexists.
  - simpl. by rewrite lookup_insert_eq.
  - unfold Hub.afterOffer, Hub.dropped in Hs, Hl. rewrite Hexcl in Hs, Hl.
    simpl in Hs, Hl. rewrite lookup_insert_eq in Hl. done.
Qed.

Lemma new_session_receives_broadcasts_witness :
  ∃ client h1 h2,
    Conn.HandleWebSocket Hub.userDecode Hub.keyOrder (Some "a@example.org") true
      Hub.hubABC = Conn.Serving client (Hub.Done h1)
    ∧ Hub.processBroadcast Hub.userMarshal Hub.userDecode Hub.keyOrder
        Hub.pingAll "" h1 = Hub.Done h2
    ∧ Hub.store h2 !! client
      = Some (Hub.enqueue [] (Conn.newClient "a@example.org")).
Proof.
  destruct (new_session_receives_broadcasts Hub.userMarshal Hub.userDecode
              Hub.keyOrder HubFacts.userCodec_ok HubFacts.keyOrder_enumerates
              Hub.hubABC "a@example.org" Hub.pingAll "" []
              hubABC_live_open eq_refl eq_refl)
    as (client & h1 & h2 & Hserve & _ & _ & _ & _ & Hrun & Hqueue & _).
  exists client, h1, h2. split; [exact Hserve|]. split; [exact Hrun|exact Hqueue].
Defined.

(** X5.  A message other than a ping that the read pump of a session takes
    off the connection is handed to the hub with its [user] field set to the
    session's email, whatever the client wrote there.  So, for a session with
    a non-empty email, the relayed message reaches the live sessions of the
    other users and no session of the sender's own email, the sender's other
    connections included. *)
Theorem relayed_message_carries_sender
    (unmarshal : list byte → option Hub.WebSocketMessage)
    (marshal : Hub.WebSocketMessage → option (list byte))
    (decode : list byte → option Hub.WebSocketMessage)
    (range_clients : gmap Hub.ptr bool → list Hub.ptr)
    (Hcodec : Hub.codec_ok marshal decode)
    (Hrange : Hub.enumerates_clients range_clients)
    (now : string) (timestamp : string → Hub.any)
    (h : Hub.t) (client : Hub.ptr) (c : Hub.Client)
    (message : list byte) (wsMessage : Hub.WebSocketMessage)
    (jsonMessage : list byte) :
  Hub.live_open h → Hub.store h !! client = Some c →
  unmarshal message = Some wsMessage → Hub.Type_ wsMessage ≠ "ping" →
  marshal (Hub.setUser (Hub.Email c) wsMessage) = Some jsonMessage →
  ∃ h', Conn.ReadPump_step unmarshal marshal decode range_clients now timestamp
          client (Conn.Message message) h = Conn.Continue h'
    ∧ (∃ relayed, decode jsonMessage = Some relayed
                  ∧ Hub.User relayed = Hub.Email c)
    ∧ (∀ other c', is_Some (Hub.Clients h !! other) →
         Hub.store h !! other = Some c' →
         Hub.store h' !! other = Some (Hub.afterOffer (Hub.Email c) jsonMessage c')
         ∧ Hub.Clients h' !! other
           = if Hub.dropped (Hub.Email c) c' then None else Hub.Clients h !! other)
    ∧ (Hub.Email c ≠ "" →
       ∀ other c', Hub.store h !! other = Some c' → Hub.Email c' = Hub.Email c →
         Hub.store h' !! other = Some c'
         ∧ Hub.Clients h' !! other = Hub.Clients h !! other).
Proof.
  intros Hlive Hc Hunmarshal Hping Hjson.
  destruct (Hcodec _ _ Hjson) as (relayed & Hdecode & Huser). simpl in Huser.
  destruct (ConnFacts.Run_broadcast_open decode range_clients Hrange
              jsonMessage relayed h Hlive Hdecode) as (h' & Hrun & Hin & Hout).
  rewrite Huser in Hin.
  exists h'. split; [|split; [eauto|split; [exact Hin|]]].
  - unfold Conn.ReadPump_step. rewrite Hc, Hunmarshal.
    change (Hub.Type_ (Hub.setUser (Hub.Email c) wsMessage))
      with (Hub.Type_ wsMessage).
    apply String.eqb_neq in Hping. rewrite Hping, Hjson, Hrun. done.
  - intros Hne other c' Hc' Hsame.
    destruct (Hub.Clients h !! other) as [flag|] eqn:Hother.
    + destruct (Hin other c') as [Hs Hl]; [by rewrite Hother|done|].
      assert (Hub.excluded (Hub.Email c) c' = true) as Hexcl.
      { unfold Hub.excluded. apply String.eqb_neq in Hne.
        rewrite Hne, Hsame, String.eqb_refl. done. }
      unfold Hub.afterOffer, Hub.dropped in Hs, Hl. rewrite Hexcl in Hs, Hl.
      simpl in Hl. by rewrite Hs, Hl, Hother.
    + destruct (Hout other Hother) as [Hs Hl]. by rewrite Hs, Hl.
Qed.

Lemma relayed_message_carries_sender_witness :
  ∃ h', Conn.ReadPump_step Hub.userDecode Hub.userMarshal Hub.userDecode Hub.keyOrder
          "" stamp 1%positive (Conn.Message [x62]) Hub.hubABC = Conn.Continue h'
    ∧ Hub.store h' !! 1%positive = Some (Hub.session "a@example.org" [])
    ∧ Hub.store h' !! 2%positive
      = Some (Hub.session "b@example.org" [list_byte_of_string "a@example.org"]).
Proof.
  destruct (relayed_message_carries_sender Hub.userDecode Hub.userMarshal
              Hub.userDecode Hub.keyOrder
              HubFacts.userCodec_ok HubFacts.keyOrder_enumerates "" stamp
              Hub.hubABC 1%positive (Hub.session "a@example.org" []) [x62]
              (Hub.mkMessage "" (Hub.AnyJSON [x62]) "b")
              (list_byte_of_string "a@example.org")
              hubABC_live_open eq_refl eq_refl)
    as (h' & Hrun & _ & Hothers & Hown); [discriminate | reflexivity |].
  exists h'. split; [exact Hrun|]. split.
  - apply (Hown ltac:(discriminate) 1%positive); reflexivity.
  - apply (Hothers 2%positive (Hub.session "b@example.org" []));
      [by exists true | reflexivity].
Defined.

(** X6.  A ping is answered on the session's own queue and goes nowhere else:
    when that queue is open and has room the turn of the read pump appends
    the pong to it and leaves the live set and every other client as they
    are; when the queue is full the pump blocks; and when the hub has just
    dropped the session for a full queue, the pump's send of the pong
    panics. *)
Theorem ping_answered_privately
    (unmarshal : list byte → option Hub.WebSocketMessage)
    (marshal : Hub.WebSocketMessage → option (list byte))
    (decode : list byte → option Hub.WebSocketMessage)
    (range_clients : gmap Hub.ptr bool → list Hub.ptr)
    (Hcodec : Hub.codec_ok marshal decode)
    (Hrange : Hub.enumerates_clients range_clients)
    (now : string) (timestamp : string → Hub.any)
    (h : Hub.t) (client : Hub.ptr) (c : Hub.Client)
    (message : list byte) (wsMessage : Hub.WebSocketMessage) (pongJSON : list byte) :
  Hub.store h !! client = Some c →
  unmarshal message = Some wsMessage → Hub.Type_ wsMessage = "ping" →
  marshal (Hub.mkMessage "pong" (timestamp now) "") = Some pongJSON →
  (Hub.closed (Hub.Send c) = false → Hub.full (Hub.Send c) = false →
     Conn.ReadPump_step unmarshal marshal decode range_clients now timestamp
       client (Conn.Message message) h
     = Conn.Continue
         (Hub.mk (Hub.Clients h) (<[client := Hub.enqueue pongJSON c]> (Hub.store h))))
  ∧ (Hub.closed (Hub.Send c) = false → Hub.full (Hub.Send c) = true →
     Conn.ReadPump_step unmarshal marshal decode range_clients now timestamp
       client (Conn.Message message) h = Conn.Blocks)
  ∧ (∀ msg e jsonMessage h',
       Hub.live_open h → is_Some (Hub.Clients h !! client) →
       Hub.excluded e c = false → Hub.full (Hub.Send c) = true →
       marshal (Hub.setUser e msg) = Some jsonMessage →
       Hub.processBroadcast marshal decode range_clients msg e h = Hub.Done h' →
       Conn.ReadPump_step unmarshal marshal decode range_clients now timestamp
         client (Conn.Message message) h' = Conn.Panics).
Proof.
  intros Hc Hunmarshal Hping Hpong.
  assert (Hstep : ∀ h0 c0, Hub.store h0 !! client = Some c0 →
    Conn.ReadPump_step unmarshal marshal decode range_clients now timestamp
      client (Conn.Message message) h0
    = match Hub.trySend pongJSON (Hub.Send c0) with
      | Hub.Sent ch =>
          Conn.Continue (Hub.mk (Hub.Clients h0)
                           (<[client := Hub.setSend ch c0]> (Hub.store h0)))
      | Hub.NotReady => Conn.Blocks
      | Hub.SendPanics => Conn.Panics
      end).
  { intros h0 c0 Hc0. unfold Conn.ReadPump_step.
    rewrite Hc0, Hunmarshal. simpl. rewrite Hping. simpl. by rewrite Hpong. }
  split; [|split].
  - intros Hopen Hroom. rewrite (Hstep h c Hc). unfold Hub.trySend, Hub.full in *.
    rewrite Hopen. apply negb_false_iff in Hroom. by rewrite Hroom.
  - intros Hopen Hfull. rewrite (Hstep h c Hc). unfold Hub.trySend, Hub.full in *.
    rewrite Hopen. apply negb_true_iff in Hfull. by rewrite Hfull.
  - intros msg e jsonMessage h' Hlive Hclient Hexcl Hfull Hjson Hrun.
    destruct (HubFacts.processBroadcast_open marshal decode range_clients Hcodec
                Hrange msg e h jsonMessage Hlive Hjson) as (h1 & Hrun1 & Hin & _).
    rewrite Hrun in Hrun1. injection Hrun1 as <-.
    destruct (Hin client c Hclient Hc) as [Hs _].
    unfold Hub.afterOffer in Hs. rewrite Hexcl, Hfull in Hs.
    by rewrite (Hstep h' _ Hs).
Qed.

Lemma ping_answered_privately_witness :
  Conn.ReadPump_step readAsPing Hub.userMarshal Hub.userDecode Hub.keyOrder
    "" stamp 1%positive (Conn.Message []) Hub.hubABC
  = Conn.Continue
      (Hub.mk (Hub.Clients Hub.hubABC)
         (<[1%positive := Hub.session "a@example.org" [[]]]> (Hub.store Hub.hubABC)))
  ∧ ∃ h', Hub.processBroadcast Hub.userMarshal Hub.userDecode Hub.keyOrder
            Hub.pingAll "" Hub.hubFull = Hub.Done h'
      ∧ Conn.ReadPump_step readAsPing Hub.userMarshal Hub.userDecode Hub.keyOrder
          "" stamp 2%positive (Conn.Message []) h' = Conn.Panics.
Proof.
  split.
  - destruct (ping_answered_privately readAsPing Hub.userMarshal Hub.userDecode
                Hub.keyOrder HubFacts.userCodec_ok HubFacts.keyOrder_enumerates
                "" stamp Hub.hubABC 1%positive (Hub.session "a@example.org" [])
                [] (Hub.mkMessage "ping" (Hub.AnyJSON []) "") []
                eq_refl eq_refl eq_refl eq_refl) as (Hpong & _).
    apply Hpong; reflexivity.
  - destruct (ConnFacts.Run_step_Done Hub.userDecode Hub.keyOrder
                HubFacts.keyOrder_enumerates (Hub.OnBroadcast []) Hub.hubFull
                hubFull_live_open) as (h' & Hrun); [discriminate|].
    exists h'. split; [exact Hrun|].
    destruct (ping_answered_privately readAsPing Hub.userMarshal Hub.userDecode
                Hub.keyOrder HubFacts.userCodec_ok HubFacts.keyOrder_enumerates
                "" stamp Hub.hubFull 2%positive
                (Hub.session "b@example.org" [[x00]; [x01]])
                [] (Hub.mkMessage "ping" (Hub.AnyJSON []) "") []
                eq_refl eq_refl eq_refl eq_refl) as (_ & _ & Hpanic).
    apply (Hpanic Hub.pingAll "" [] h' hubFull_live_open);
      [by exists true | reflexivity | reflexivity | reflexivity | exact Hrun].
Defined.

(** ** The write pump's batches *)

Lemma batch_flat (message : list byte) (queued : list (list byte)) :
  Conn.batch message queued
  = message ++ flat_map (λ next, Conn.newline :: next) queued.
Proof.
  unfold Conn.batch. revert message.
  induction queued as [|next queued IH]; intros message; simpl.
  - by rewrite app_nil_r.
  - rewrite IH. by rewrite <- app_assoc.
Qed.

Lemma lines_nonempty (payload : list byte) : Conn.lines payload ≠ [].
Proof.
  destruct payload as [|b rest]; simpl; [done|].
  destruct (Byte.eqb b Conn.newline); [done|].
  by destruct (Conn.lines rest).
Qed.

Lemma lines_first (line rest : list byte) :
  Conn.newline ∉ line →
  Conn.lines (line ++ Conn.newline :: rest) = line :: Conn.lines rest.
Proof.
  induction line as [|b line IH]; intros Hnot; simpl.
  - reflexivity.
  - apply not_elem_of_cons in Hnot as [Hb Hnot].
    assert (Byte.eqb b Conn.newline = false) as ->.
    { destruct (Byte.eqb b Conn.newline) eqn:Heq; [|done].
      apply Byte.byte_dec_bl in Heq. congruence. }
    by rewrite IH.
Qed.

Lemma lines_single (line : list byte) :
  Conn.newline ∉ line → Conn.lines line = [line].
Proof.
  induction line as [|b line IH]; intros Hnot; simpl; [done|].
  apply not_elem_of_cons in Hnot as [Hb Hnot].
  assert (Byte.eqb b Conn.newline = false) as ->.
  { destruct (Byte.eqb b Conn.newline) eqn:Heq; [|done].
    apply Byte.byte_dec_bl in Heq. congruence. }
  by rewrite IH.
Qed.

Lemma lines_batch (message : list byte) (queued : list (list byte)) :
  Forall (λ m, Conn.newline ∉ m) (message :: queued) →
  Conn.lines (Conn.batch message queued) = message :: queued.
Proof.
  rewrite batch_flat. revert message.
  induction queued as [|next queued IH]; intros message Hall.
  - simpl. rewrite app_nil_r. apply lines_single. by apply Forall_cons in Hall as [? _].
  - apply Forall_cons in Hall as [Hm Hall]. simpl.
    rewrite lines_first by done. f_equal. by apply IH.
Qed.

(** X7.  The write pump loses and reorders nothing: with a connection that
    accepts the writes, one turn on a non-empty queue empties the queue and
    writes a single text frame whose lines are the queued messages in order
    (no message holding a newline).  A queue the hub has closed is still
    written out that way before the pump, on its next turn, sends the close
    frame and returns. *)
Theorem write_pump_batches_in_order
    (pingOk : bool) (c : Hub.chan) (message : list byte) (queued : list (list byte)) :
  Hub.buf c = message :: queued →
  Forall (λ m, Conn.newline ∉ m) (message :: queued) →
  ∃ payload,
    Conn.WritePump_step true true pingOk Conn.FromSend c
    = Some (Conn.mkWritten [Conn.TextMessage payload]
              (Hub.mkChan [] (Hub.cap c) (Hub.closed c)) true)
    ∧ Conn.lines payload = message :: queued
    ∧ (Hub.closed c = true →
       Conn.WritePump_step true true pingOk Conn.FromSend
         (Hub.mkChan [] (Hub.cap c) (Hub.closed c))
       = Some (Conn.mkWritten [Conn.CloseMessage]
                 (Hub.mkChan [] (Hub.cap c) (Hub.closed c)) false))
    ∧ (Hub.closed c = false →
       Conn.WritePump_step true true pingOk Conn.FromSend
         (Hub.mkChan [] (Hub.cap c) (Hub.closed c)) = None).
Proof.
  intros Hbuf Hall. exists (Conn.batch message queued).
  split; [|split; [by apply lines_batch|split]].
  - unfold Conn.WritePump_step. by rewrite Hbuf.
  - intros Hclosed. unfold Conn.WritePump_step. simpl. by rewrite Hclosed.
  - intros Hopen. unfold Conn.WritePump_step. simpl. by rewrite Hopen.
Qed.

Lemma write_pump_batches_in_order_witness :
  ∃ payload,
    Conn.WritePump_step true true true Conn.FromSend
      (Hub.mkChan [[x61]; [x62; x63]] 256 true)
    = Some (Conn.mkWritten [Conn.TextMessage payload] (Hub.mkChan [] 256 true) true)
    ∧ Conn.lines payload = [[x61]; [x62; x63]].
Proof.
  destruct (write_pump_batches_in_order true
              (Hub.mkChan [[x61]; [x62; x63]] 256 true) [x61] [[x62; x63]] eq_refl)
    as (payload & Hstep & Hlines & _).
  - assert (Hfree : ∀ m, m = [x61] ∨ m = [x62; x63] → Conn.newline ∉ m).
    { intros m [->| ->] Hin;
        repeat (apply elem_of_cons in Hin as [Hin|Hin]; [discriminate|]);
        by apply elem_of_nil in Hin. }
    constructor; [apply Hfree; by left|].
    constructor; [apply Hfree; by right|]. constructor.
  - exists payload. split; [exact Hstep | exact Hlines].
Defined.

(** ** Further properties of the merge engine *)

Lemma filter_all {A : Type} (P : A → Prop) `{∀ x, Decision (P x)} (l : list A) :
  (∀ x, x ∈ l → P x) → filter P l = l.
Proof.
  intros Hall. induction l as [|x l IH]; [done|].
  rewrite filter_cons, decide_True by (apply Hall; left).
  f_equal. apply IH. intros y Hy. apply Hall. by right.
Qed.

Lemma map_normalizeTask_idem (tasks : list Task.t) :
  map normalizeTask (map normalizeTask tasks) = map normalizeTask tasks.
Proof. rewrite map_map. apply map_ext. apply normalizeTask_idem. Qed.

Lemma merge_Tasks_normalized range_order pkg serverData clientData :
  map normalizeTask (Tasks (mergeKanbanData pkg range_order serverData clientData))
  = Tasks (mergeKanbanData pkg range_order serverData clientData).
Proof.
  rewrite merge_Tasks, !map_app, !map_normalizeTask_idem.
  by rewrite !map_map.
Qed.

Lemma merge_Tasks_IDs range_order pkg serverData clientData :
  map Task.ID (Tasks (mergeKanbanData pkg range_order serverData clientData))
  = taskIDs clientData
    ++ map Task.ID (filter (λ task, Task.ID task ∉ taskIDs clientData)
                      (Tasks serverData))
    ++ map Task.ID (filter (λ task, Task.ID task ∉ taskIDs clientData)
                      (UnassignedTasks serverData)).
Proof.
  rewrite merge_Tasks. unfold taskIDs. rewrite !map_app, !map_map, <- !app_assoc.
  f_equal; [apply map_ext, normalizeTask_ID|]. f_equal. f_equal.
  apply map_ext, normalizeTask_ID.
Qed.

(** X8.  The merged snapshot carries exactly the ids of its inputs: a task id
    (a column id) occurs in the result if and only if it occurs in the server
    or in the client snapshot; every merged task is an input task with its
    column id normalised or cleared, and every merged column is an input
    column as it is. *)
Theorem merge_invents_nothing
    (pkg : package) (range_order : gmap string Column.t → list (string * Column.t))
    (Hro : enumerates range_order) (serverData clientData : KanbanData) :
  (∀ id, id ∈ map Task.ID (Tasks (mergeKanbanData pkg range_order serverData clientData))
         ↔ id ∈ taskIDs serverData ∨ id ∈ taskIDs clientData)
  ∧ (∀ id, id ∈ map Column.ID
                  (Columns (mergeKanbanData pkg range_order serverData clientData))
           ↔ id ∈ columnIDs serverData ∨ id ∈ columnIDs clientData)
  ∧ Forall (λ t', ∃ t, t ∈ Tasks clientData ++ UnassignedTasks clientData
                         ++ Tasks serverData ++ UnassignedTasks serverData
                       ∧ (t' = normalizeTask t ∨ t' = Task.setColumnID None t))
           (Tasks (mergeKanbanData pkg range_order serverData clientData))
  ∧ Forall (λ col, col ∈ Columns clientData ++ Columns serverData)
           (Columns (mergeKanbanData pkg range_order serverData clientData)).
Proof.
  split; [|split; [|split]].
  - intros id. rewrite merge_Tasks_IDs, !elem_of_app, !list_elem_of_fmap.
    setoid_rewrite list_elem_of_filter. split.
    + intros [?|[(t & -> & _ & Ht)|(t & -> & _ & Ht)]]; [by right| |]; left;
        unfold taskIDs; rewrite elem_of_app, !list_elem_of_fmap; eauto.
    + intros [Hs|?]; [|by left].
      destruct (decide (id ∈ taskIDs clientData)) as [?|Hnot]; [by left|right].
      unfold taskIDs in Hs. rewrite elem_of_app, !list_elem_of_fmap in Hs.
      destruct Hs as [(t & -> & Ht)|(t & -> & Ht)]; [left|right]; eauto.
  - intros id. rewrite merge_Columns_split, fmap_app, elem_of_app. split.
    + intros [?|Hin]; [by right|left].
      apply list_elem_of_fmap in Hin as (col & -> & Hcol).
      apply elem_of_serverOnlyColumns in Hcol as [Hlast _]; [|done].
      apply lastWithID_Some_inv in Hlast as [Hin _].
      apply list_elem_of_fmap. eauto.
    + intros [Hs|?]; [|by left].
      destruct (decide (id ∈ columnIDs clientData)) as [?|Hnot]; [by left|right].
      destruct (lastWithID id (Columns serverData)) as [col|] eqn:Hlast;
        [|by apply lastWithID_None in Hlast].
      apply lastWithID_Some_inv in Hlast as Hcol. destruct Hcol as [_ <-].
      apply list_elem_of_fmap. exists col. split; [done|].
      by apply elem_of_serverOnlyColumns.
  - apply Forall_forall. intros t' Ht'. apply elem_of_merge_Tasks in Ht'.
    destruct Ht' as [(t & Ht & ->)|[(t & Ht & ->)|[(t & Ht & _ & ->)|(t & Ht & _ & ->)]]];
      exists t; rewrite !elem_of_app; tauto.
  - apply Forall_forall. intros col Hcol.
    rewrite merge_Columns_split in Hcol. rewrite elem_of_app in *.
    destruct Hcol as [?|Hcol]; [by left|right].
    apply elem_of_serverOnlyColumns in Hcol as [Hlast _]; [|done].
    by apply lastWithID_Some_inv in Hlast as [? _].
Qed.

Lemma merge_invents_nothing_witness :
  Forall (λ col, col ∈ Columns clientM ++ Columns serverM)
         (Columns (mergeKanbanData PkgHandlers mapOrder serverM clientM)).
Proof.
  pose proof (merge_invents_nothing PkgHandlers mapOrder (λ m, reflexivity _)
                serverM clientM) as (_ & _ & _ & Hcolumns).
  exact Hcolumns.
Defined.

(** X9.  The merge keeps ids unique: when no task id occurs twice in the
    server snapshot and none occurs twice in the client snapshot (main and
    legacy list taken together), no task id occurs twice in the merged task
    list; when no column id occurs twice in the client snapshot, none occurs
    twice in the merged column list, whatever the server's columns are. *)
Theorem merge_keeps_ids_unique
    (pkg : package) (range_order : gmap string Column.t → list (string * Column.t))
    (Hro : enumerates range_order) (serverData clientData : KanbanData) :
  (NoDup (taskIDs serverData) → NoDup (taskIDs clientData) →
     NoDup (map Task.ID (Tasks (mergeKanbanData pkg range_order serverData clientData))))
  ∧ (NoDup (columnIDs clientData) →
     NoDup (map Column.ID
              (Columns (mergeKanbanData pkg range_order serverData clientData)))).
Proof.
  split.
  - intros Hserver Hclient. rewrite merge_Tasks_IDs.
    apply NoDup_app. split; [done|]. split.
    + intros id Hid Hin. rewrite elem_of_app, !list_elem_of_fmap in Hin.
      destruct Hin as [(t & -> & Ht)|(t & -> & Ht)];
        apply list_elem_of_filter in Ht as [Hnot _]; done.
    + eapply sublist_NoDup; [exact Hserver|]. unfold taskIDs.
      apply sublist_app; apply fmap_sublist, sublist_filter.
  - intros Hclient. rewrite merge_Columns_split, fmap_app.
    apply NoDup_app. split; [done|]. split.
    + intros id Hid Hin. apply list_elem_of_fmap in Hin as (col & -> & Hcol).
      by apply elem_of_serverOnlyColumns in Hcol as [_ Hnot].
    + by apply serverOnlyColumns_NoDup.
Qed.

Lemma merge_keeps_ids_unique_witness :
  NoDup (map Task.ID (Tasks (mergeKanbanData PkgMain mapOrder serverM clientM)))
  ∧ NoDup (map Column.ID (Columns (mergeKanbanData PkgMain mapOrder serverM clientM))).
Proof.
  pose proof (merge_keeps_ids_unique PkgMain mapOrder (λ m, reflexivity _)
                serverM clientM) as [Htasks Hcolumns].
  split; [apply Htasks | apply Hcolumns]; by_evaluation.
Defined.

Lemma lastWithID_app_absent (id : string) (before after : list Column.t) :
  id ∉ map Column.ID before →
  lastWithID id (before ++ after) = lastWithID id after.
Proof.
  intros Hnot. unfold lastWithID. rewrite filter_app.
  apply lastWithID_None in Hnot. unfold lastWithID in Hnot.
  apply last_None in Hnot. by rewrite Hnot.
Qed.

Lemma lastWithID_unique (id : string) (cols : list Column.t) (col : Column.t) :
  NoDup (map Column.ID cols) →
  lastWithID id cols = Some col ↔ col ∈ cols ∧ Column.ID col = id.
Proof.
  intros Hnd. split; [apply lastWithID_Some_inv|].
  intros [Hin <-]. by apply lastWithID_NoDup.
Qed.

Section repush.
Variable range_order : gmap string Column.t → list (string * Column.t).
Hypothesis range_order_ok : enumerates range_order.

(** The server-only columns of a merge are again the server-only columns
    when its result is merged with the same client snapshot. *)
Lemma serverOnlyColumns_again pkg serverData clientData :
  serverOnlyColumns range_order
    (mergeKanbanData pkg range_order serverData clientData) clientData
  ≡ₚ serverOnlyColumns range_order serverData clientData.
Proof.
  pose proof (serverOnlyColumns_NoDup range_order range_order_ok serverData clientData)
    as Hnd.
  apply NoDup_Permutation.
  - eapply NoDup_fmap_1. by apply serverOnlyColumns_NoDup.
  - by eapply NoDup_fmap_1.
  - intros col. rewrite !elem_of_serverOnlyColumns by done.
    rewrite merge_Columns_split. split.
    + intros [Hlast Hnot]. rewrite lastWithID_app_absent in Hlast by done.
      apply lastWithID_Some_inv in Hlast as [Hin _].
      by apply elem_of_serverOnlyColumns in Hin.
    + intros [Hlast Hnot]. split; [|done].
      rewrite lastWithID_app_absent by done.
      apply lastWithID_unique; [done|]. split; [|done].
      by apply elem_of_serverOnlyColumns.
Qed.

Lemma merge_Tasks_again pkg serverData clientData :
  Tasks (mergeKanbanData pkg range_order
           (mergeKanbanData pkg range_order serverData clientData) clientData)
  = Tasks (mergeKanbanData pkg range_order serverData clientData).
Proof.
  rewrite (merge_Tasks range_order pkg
             (mergeKanbanData pkg range_order serverData clientData)).
  rewrite merge_UnassignedTasks, filter_nil. simpl. rewrite app_nil_r.
  rewrite (merge_Tasks range_order pkg serverData clientData).
  rewrite !filter_app.
  rewrite (filter_none _ (map normalizeTask (Tasks clientData))).
  2:{ intros t Ht Hnot. apply Hnot. apply list_elem_of_fmap in Ht as (t0 & -> & Ht0).
      rewrite normalizeTask_ID. unfold taskIDs. rewrite elem_of_app. left.
      apply list_elem_of_fmap. eauto. }
  rewrite (filter_none _ (map (Task.setColumnID None) (UnassignedTasks clientData))).
  2:{ intros t Ht Hnot. apply Hnot. apply list_elem_of_fmap in Ht as (t0 & -> & Ht0).
      unfold taskIDs. rewrite elem_of_app. right. apply list_elem_of_fmap.
      exists t0. split; [reflexivity | exact Ht0]. }
  rewrite (filter_all _ (map normalizeTask _)).
  2:{ intros t Ht. apply list_elem_of_fmap in Ht as (t0 & -> & Ht0).
      apply list_elem_of_filter in Ht0 as [Hnot _]. by rewrite normalizeTask_ID. }
  rewrite (filter_all _ (map (Task.setColumnID None) _)).
  2:{ intros t Ht. apply list_elem_of_fmap in Ht as (t0 & -> & Ht0).
      by apply list_elem_of_filter in Ht0 as [Hnot _]. }
  simpl. rewrite map_app, map_normalizeTask_idem. by rewrite map_map.
Qed.

End repush.

(** X10.  Pushing the same client snapshot again changes nothing but the
    order of the columns taken from the server: merging the result of a merge
    with the same client snapshot gives the same task list, the same legacy
    list and UI flag, and the client's columns followed by a permutation of
    the same server-only columns. *)
Theorem repeated_push_is_stable
    (pkg : package) (range_order : gmap string Column.t → list (string * Column.t))
    (Hro : enumerates range_order) (serverData clientData : KanbanData) :
  let merged := mergeKanbanData pkg range_order serverData clientData in
  let again := mergeKanbanData pkg range_order merged clientData in
  Tasks again = Tasks merged
  ∧ UnassignedTasks again = UnassignedTasks merged
  ∧ UnassignedCollapsed again = UnassignedCollapsed merged
  ∧ ∃ fromServer fromServer',
      Columns merged = Columns clientData ++ fromServer
      ∧ Columns again = Columns clientData ++ fromServer'
      ∧ fromServer' ≡ₚ fromServer.
Proof.
  cbv zeta. split; [by apply merge_Tasks_again|].
  split; [by rewrite !merge_UnassignedTasks|].
  split; [by rewrite !merge_UnassignedCollapsed|].
  exists (serverOnlyColumns range_order serverData clientData),
         (serverOnlyColumns range_order
            (mergeKanbanData pkg range_order serverData clientData) clientData).
  split; [apply merge_Columns_split|]. split; [apply merge_Columns_split|].
  by apply serverOnlyColumns_again.
Qed.

Lemma repeated_push_is_stable_witness :
  Tasks (mergeKanbanData PkgHandlers mapOrder
           (mergeKanbanData PkgHandlers mapOrder serverM clientM) clientM)
  = Tasks (mergeKanbanData PkgHandlers mapOrder serverM clientM).
Proof.
  pose proof (repeated_push_is_stable PkgHandlers mapOrder (λ m, reflexivity _)
                serverM clientM) as (Htasks & _).
  exact Htasks.
Defined.

(** X11.  What a merge returns is a fixed point of the merge: merging a
    merged snapshot with itself returns it unchanged. *)
Theorem merged_snapshot_is_fixed_point
    (pkg : package) (range_order : gmap string Column.t → list (string * Column.t))
    (Hro : enumerates range_order) (serverData clientData : KanbanData) :
  let merged := mergeKanbanData pkg range_order serverData clientData in
  mergeKanbanData pkg range_order merged merged = merged.
Proof.
  cbv zeta. rewrite (merge_self range_order Hro).
  rewrite merge_Tasks_normalized, merge_UnassignedTasks. simpl.
  rewrite app_nil_r.
  rewrite (KanbanData_eta (mergeKanbanData pkg range_order serverData clientData)) at 4.
  by rewrite merge_UnassignedTasks.
Qed.

Lemma merged_snapshot_is_fixed_point_witness :
  mergeKanbanData PkgMain mapOrder
    (mergeKanbanData PkgMain mapOrder serverM clientM)
    (mergeKanbanData PkgMain mapOrder serverM clientM)
  = mergeKanbanData PkgMain mapOrder serverM clientM.
Proof.
  exact (merged_snapshot_is_fixed_point PkgMain mapOrder (λ m, reflexivity _)
           serverM clientM).
Defined.

Lemma range_order_empty range_order (Hro : enumerates range_order) :
  range_order (∅ : gmap string Column.t) = [].
Proof.
  apply Permutation_nil_r. rewrite (Hro ∅). by rewrite map_to_list_empty.
Qed.

(** X12.  Merging with an empty side.  Against the empty board that
    [GetUserData] returns for a new user, the merge returns the client's
    columns and UI flag, its task list normalised and its legacy tasks with
    the column id cleared: the same snapshot as merging the client snapshot
    with itself.  Against a client that holds nothing, it returns the server's
    tasks (normalised, legacy ones cleared), the client's UI flag, and one
    column per server column id; with distinct server column ids these are
    the server's columns in some order. *)
Theorem merge_with_empty_side
    (pkg : package) (range_order : gmap string Column.t → list (string * Column.t))
    (Hro : enumerates range_order) (data : KanbanData) (collapsed : bool) :
  mergeKanbanData pkg range_order emptyData data
  = mergeKanbanData pkg range_order data data
  ∧ mergeKanbanData pkg range_order emptyData data
    = mkKanbanData (Columns data)
        (map normalizeTask (Tasks data)
         ++ map (Task.setColumnID None) (UnassignedTasks data))
        [] (UnassignedCollapsed data)
  ∧ Tasks (mergeKanbanData pkg range_order data (blankClient collapsed))
    = map normalizeTask (Tasks data)
      ++ map (Task.setColumnID None) (UnassignedTasks data)
  ∧ UnassignedCollapsed (mergeKanbanData pkg range_order data (blankClient collapsed))
    = collapsed
  ∧ (NoDup (columnIDs data) →
     Columns (mergeKanbanData pkg range_order data (blankClient collapsed))
     ≡ₚ Columns data).
Proof.
  assert (Hempty : mergeKanbanData pkg range_order emptyData data
                   = mkKanbanData (Columns data)
                       (map normalizeTask (Tasks data)
                        ++ map (Task.setColumnID None) (UnassignedTasks data))
                       [] (UnassignedCollapsed data)).
  { rewrite (KanbanData_eta (mergeKanbanData pkg range_order emptyData data)).
    rewrite merge_Tasks, merge_Columns, merge_UnassignedTasks,
      merge_UnassignedCollapsed. simpl.
    change (populateColumns []) with (∅ : gmap string Column.t).
    rewrite (range_order_empty range_order Hro). simpl.
    by rewrite !app_nil_r. }
  split; [by rewrite Hempty, (merge_self range_order Hro)|]. split; [done|].
  split; [|split].
  - rewrite merge_Tasks. simpl. f_equal; f_equal; apply filter_all;
      intros t _ Hin; by apply elem_of_nil in Hin.
  - by rewrite merge_UnassignedCollapsed.
  - intros Hnd. rewrite merge_Columns_split. simpl.
    rewrite (serverOnlyColumns_distinct range_order Hro) by done.
    rewrite filter_all; [done|]. intros col _ Hin. by apply elem_of_nil in Hin.
Qed.

Lemma merge_with_empty_side_witness :
  Columns (mergeKanbanData PkgHandlers mapOrder serverM (blankClient true))
  ≡ₚ Columns serverM.
Proof.
  pose proof (merge_with_empty_side PkgHandlers mapOrder (λ m, reflexivity _)
                serverM true) as (_ & _ & _ & _ & Hcolumns).
  apply Hcolumns. by_evaluation.
Defined.

(** ** Bearer headers *)

Lemma prefix_space (c : ascii) (rest : string) :
  String.prefix " " (String c rest) = Ascii.eqb c " ".
Proof.
  change (String.prefix " " (String c rest))
    with (if ascii_dec " " c then String.prefix "" rest else false).
  destruct (ascii_dec " " c) as [<-|Hne].
  - rewrite Ascii.eqb_refl. by destruct rest.
  - symmetry. apply Ascii.eqb_neq. congruence.
Qed.

Lemma Contains_space_cons (c : ascii) (rest : string) :
  Contains (String c rest) " " = Ascii.eqb c " " || Contains rest " ".
Proof. cbn [Contains]. by rewrite prefix_space. Qed.

Lemma spaceless_cons (c : ascii) (rest : string) :
  spaceless (String c rest) ↔ Ascii.eqb c " " = false ∧ spaceless rest.
Proof. unfold spaceless. rewrite Contains_space_cons. apply orb_false_iff. Qed.

Lemma Split_nonempty (s : string) : Split s ≠ [].
Proof.
  destruct s as [|c rest]; simpl; [done|].
  destruct (Ascii.eqb c " "); [done|]. by destruct (Split rest).
Qed.

Lemma Join_cons (piece : string) (pieces : list string) :
  pieces ≠ [] → Join (piece :: pieces) = (piece ++ " " ++ Join pieces)%string.
Proof. by destruct pieces. Qed.

Lemma Join_Split (s : string) : Join (Split s) = s.
Proof.
  induction s as [|c rest IH]; [done|]. cbn [Split].
  destruct (Ascii.eqb c " ") eqn:Hc.
  - apply Ascii.eqb_eq in Hc as ->.
    rewrite Join_cons by apply Split_nonempty. simpl. by rewrite IH.
  - destruct (Split rest) as [|piece pieces] eqn:Hsplit;
      [by apply Split_nonempty in Hsplit|].
    destruct pieces as [|piece' pieces]; simpl in *; by rewrite <- IH.
Qed.

Lemma Split_spaceless (s : string) : Forall spaceless (Split s).
Proof.
  induction s as [|c rest IH]; [by repeat constructor|]. cbn [Split].
  destruct (Ascii.eqb c " ") eqn:Hc; [by constructor|].
  destruct (Split rest) as [|piece pieces].
  { constructor; [|constructor]. by apply spaceless_cons. }
  apply Forall_cons in IH as [Hpiece Hpieces].
  constructor; [|done]. by apply spaceless_cons.
Qed.

Lemma Split_single (s : string) : spaceless s → Split s = [s].
Proof.
  induction s as [|c rest IH]; [done|]. intros [Hc Hrest]%spaceless_cons.
  cbn [Split]. by rewrite Hc, IH.
Qed.

Lemma Split_first (piece rest : string) :
  spaceless piece → Split (piece ++ " " ++ rest) = piece :: Split rest.
Proof.
  induction piece as [|c piece IH]; [done|]. intros [Hc Hpiece]%spaceless_cons.
  simpl. rewrite Hc. simpl in IH. by rewrite IH.
Qed.

(** A header splits into the scheme [Bearer] and one more piece exactly when
    it is [Bearer], one space and a token without a space. *)
Lemma Split_Bearer (authHeader tokenString : string) :
  Split authHeader = ["Bearer"; tokenString]
  ↔ authHeader = ("Bearer " ++ tokenString)%string ∧ spaceless tokenString.
Proof.
  split.
  - intros Hsplit. split.
    + by rewrite <- (Join_Split authHeader), Hsplit.
    + pose proof (Split_spaceless authHeader) as Hall. rewrite Hsplit in Hall.
      by apply Forall_cons in Hall as [_ [? _]%Forall_cons].
  - intros [-> Htoken].
    change ("Bearer " ++ tokenString)%string
      with ("Bearer" ++ " " ++ tokenString)%string.
    rewrite Split_first by done. by rewrite Split_single.
Qed.

(** X13.  [authenticate] accepts a request exactly when its Authorization
    header is the word [Bearer], a single space, and a token without a space
    that [VerifyJWT] accepts; the email it returns is the one [VerifyJWT]
    reports.  (So a missing header, another scheme, a second space or a
    rejected token all end in an error.) *)
Theorem authenticate_accepts_bearer
    (Request error : Type) (authorization : Request → string)
    (errorText : error → string) (VerifyJWT : string → error + string)
    (r : Request) (email : string) :
  Main.authenticate authorization errorText VerifyJWT r = inr email
  ↔ ∃ tokenString,
      authorization r = ("Bearer " ++ tokenString)%string
      ∧ spaceless tokenString ∧ VerifyJWT tokenString = inr email.
Proof.
  unfold Main.authenticate. split.
  - destruct (String.eqb (authorization r) ""); [done|].
    destruct (Split (authorization r)) as [|scheme [|tokenString [|? ?]]] eqn:Hsplit;
      [done|done| |done].
    destruct (String.eqb scheme "Bearer") eqn:Hscheme; [|done]. simpl.
    apply String.eqb_eq in Hscheme as ->.
    destruct (VerifyJWT tokenString) as [err|email'] eqn:Hverify; [done|].
    intros [= ->]. exists tokenString.
    apply Split_Bearer in Hsplit as [? ?]. done.
  - intros (tokenString & Hheader & Htoken & Hverify).
    rewrite (proj2 (Split_Bearer _ tokenString)) by done.
    rewrite Hheader. simpl. by rewrite Hverify.
Qed.

(** X14.  The three places that check a bearer header agree: [VerifyToken]
    answers "valid" with an email, [authenticate] returns that email, and the
    middleware [Auth] passes the request on with that email, for exactly the
    same headers; and whatever [VerifyToken] or [Auth] writes instead is an
    error with status 401. *)
Theorem bearer_checks_agree
    (error : Type) (errorText badVerb : error → string)
    (VerifyJWT : string → error + string) (authHeader email : string) :
  (AuthHandler.VerifyToken error VerifyJWT authHeader = AuthHandler.TokenValid email
   ↔ Main.authenticate (λ r : string, r) errorText VerifyJWT authHeader = inr email)
  ∧ (AuthHandler.Auth error VerifyJWT badVerb authHeader = inr email
     ↔ Main.authenticate (λ r : string, r) errorText VerifyJWT authHeader = inr email)
  ∧ match AuthHandler.VerifyToken error VerifyJWT authHeader with
    | AuthHandler.Error _ code => code = StatusUnauthorized
    | AuthHandler.TokenValid _ => True
    | _ => False
    end
  ∧ match AuthHandler.Auth error VerifyJWT badVerb authHeader with
    | inl (AuthHandler.Error _ code) => code = StatusUnauthorized
    | inl _ => False
    | inr _ => True
    end.
Proof.
  unfold AuthHandler.VerifyToken, AuthHandler.Auth, Main.authenticate.
  destruct (String.eqb authHeader ""); [by repeat split|].
  destruct (Split authHeader) as [|scheme [|tokenString [|? ?]]];
    [by repeat split|by repeat split| |by repeat split].
  destruct (String.eqb scheme "Bearer"); simpl; [|by repeat split].
  destruct (VerifyJWT tokenString) as [err|email']; [by repeat split|].
  repeat split; congruence.
Qed.

Lemma authenticate_accepts_bearer_witness :
  Main.authenticate (λ r : string, r) (λ err : string, err) (λ token, inr token)
    "Bearer abc" = inr "abc".
Proof.
  apply (authenticate_accepts_bearer string string (λ r, r) (λ err, err)
           (λ token, inr token) "Bearer abc" "abc").
  exists "abc". split; [reflexivity|]. split; reflexivity.
Defined.

(** ** Magic links *)

Lemma prefix_app (sub rest : string) : String.prefix sub (sub ++ rest) = true.
Proof.
  induction sub as [|c sub IH]; simpl; [by destruct rest|].
  destruct (ascii_dec c c); [done|congruence].
Qed.

Lemma string_app_assoc (a b c : string) :
  (a ++ (b ++ c))%string = ((a ++ b) ++ c)%string.
Proof.
  induction a as [|x a IH]; [reflexivity|].
  change (String x (a ++ (b ++ c))%string = String x ((a ++ b) ++ c)%string).
  by rewrite IH.
Qed.

Lemma Contains_prefix (s sub : string) :
  String.prefix sub s = true → Contains s sub = true.
Proof. destruct s; simpl; [done|]. by intros ->. Qed.

Lemma Contains_app (before sub after : string) :
  Contains (before ++ sub ++ after) sub = true.
Proof.
  induction before as [|c before IH].
  - change (Contains (sub ++ after) sub = true).
    apply Contains_prefix. apply prefix_app.
  - change (Contains (String c (before ++ sub ++ after)) sub = true).
    cbn [Contains]. rewrite IH. apply orb_true_r.
Qed.

Lemma Contains_here (sub after : string) : Contains (sub ++ after) sub = true.
Proof. apply (Contains_app "" sub after). Qed.

Lemma Contains_right (before s sub : string) :
  Contains s sub = true → Contains (before ++ s) sub = true.
Proof.
  intros Hs. induction before as [|c before IH]; [exact Hs|].
  change (Contains (String c (before ++ s)) sub = true).
  cbn [Contains]. rewrite IH. apply orb_true_r.
Qed.

(** X15.  A magic link works once: after [GenerateMagicLink] has drawn a
    token, the link it returns is the base URL, the path
    [/api/auth/magic-link?token=] and that token; [VerifyMagicLinkToken]
    returns the email the link was made for and removes the token, so that a
    second verification of the same token fails; the tokens of other pending
    links are not touched. *)
Theorem magic_link_is_one_time
    (sendMail : AuthService.mail → bool) (token email baseURL : string)
    (s : AuthService.t) :
  let '(s1, link, _) :=
    AuthService.GenerateMagicLink sendMail (inr token) s email baseURL in
  let '(s2, first) := AuthService.VerifyMagicLinkToken token s1 in
  let '(s3, second) := AuthService.VerifyMagicLinkToken token s2 in
  link = inr (baseURL ++ "/api/auth/magic-link?token=" ++ token)%string
  ∧ first = inr email
  ∧ second = inl "invalid or expired token"
  ∧ s3 = s2
  ∧ AuthService.tokens s2 = delete token (AuthService.tokens s)
  ∧ ∀ other, other ≠ token →
      AuthService.tokens s1 !! other = AuthService.tokens s !! other
      ∧ AuthService.tokens s2 !! other = AuthService.tokens s !! other.
Proof.
  unfold AuthService.GenerateMagicLink, AuthService.VerifyMagicLinkToken. simpl.
  rewrite lookup_insert_eq. simpl. rewrite lookup_delete_eq.
  split; [done|]. split; [done|]. split; [done|]. split; [done|].
  split; [by rewrite delete_insert_eq|].
  intros other Hne. rewrite lookup_delete_ne, lookup_insert_ne by done. done.
Qed.

(** X16.  The login endpoints, end to end.  [Login] with an email that is
    empty or has no [@] answers 400, stores no token and sends no mail.
    With a proper email it answers with the link
    [scheme://host/api/auth/magic-link?token=...]; [HandleMagicLink] with
    that token redirects (302) to [/?token=<jwt>&email=<email>], and the same
    link used again is answered with 400 "Invalid or expired token". *)
Theorem login_then_magic_link
    (sendMail : AuthService.mail → bool) (error : Type)
    (CreateJWT : string → error + string)
    (token email host jwtToken : string) (tls : bool) (s : AuthService.t) :
  (∀ drawn bad, bad = "" ∨ Contains bad "@" = false →
     AuthHandler.Login sendMail drawn (Some bad) tls host s
     = (s, AuthHandler.Error "Invalid email address" StatusBadRequest, None))
  ∧ (email ≠ "" → Contains email "@" = true → token ≠ "" →
     CreateJWT email = inr jwtToken →
     ∃ s1 sent s2,
       AuthHandler.Login sendMail (inr token) (Some email) tls host s
       = (s1, AuthHandler.LoginLink
                ((if tls then "https" else "http") ++ "://" ++ host
                 ++ "/api/auth/magic-link?token=" ++ token)%string, sent)
       ∧ AuthHandler.HandleMagicLink error CreateJWT token s1
         = (s2, AuthHandler.Redirect
                  ("/?token=" ++ jwtToken ++ "&email=" ++ email)%string
                  AuthHandler.StatusFound)
       ∧ AuthHandler.HandleMagicLink error CreateJWT token s2
         = (s2, AuthHandler.Error "Invalid or expired token" StatusBadRequest)).
Proof.
  split.
  - intros drawn bad Hbad. unfold AuthHandler.Login.
    destruct Hbad as [->|Hat]; [done|]. rewrite Hat. simpl.
    by rewrite orb_true_r.
  - intros Hemail Hat Htoken Hjwt.
    apply String.eqb_neq in Hemail, Htoken.
    unfold AuthHandler.Login, AuthHandler.HandleMagicLink,
      AuthService.GenerateMagicLink, AuthService.VerifyMagicLinkToken.
    rewrite Hemail, Hat, Htoken. simpl.
    eexists _, _, _. split.
    + f_equal. f_equal. f_equal. by rewrite <- !string_app_assoc.
    + simpl. rewrite lookup_insert_eq, Hjwt. simpl.
      split; [reflexivity|]. simpl. by rewrite lookup_delete_eq.
Qed.

Lemma login_then_magic_link_witness :
  ∃ s1 sent s2,
    AuthHandler.Login (λ _, true) (inr "tok") (Some "a@example.org") true
      "todo.example.org" sampleAuth
    = (s1, AuthHandler.LoginLink
             "https://todo.example.org/api/auth/magic-link?token=tok", sent)
    ∧ AuthHandler.HandleMagicLink string (λ email, inr ("jwt-" ++ email)%string)
        "tok" s1
      = (s2, AuthHandler.Redirect "/?token=jwt-a@example.org&email=a@example.org" 302).
Proof.
  destruct (login_then_magic_link (λ _, true) string
              (λ email, inr ("jwt-" ++ email)%string)
              "tok" "a@example.org" "todo.example.org" "jwt-a@example.org" true
              sampleAuth) as (_ & Hflow).
  destruct Hflow as (s1 & sent & s2 & Hlogin & Hfirst & _);
    [discriminate | reflexivity | discriminate | reflexivity |].
  exists s1, sent, s2. split; [exact Hlogin | exact Hfirst].
Defined.

(** X17.  The link does not depend on the mail.  Whenever a token was drawn,
    [GenerateMagicLink] returns the link, whether or not a mail went out.  It
    attempts a mail only when an SMTP host is set; the attempt ends without a
    mail when port, username or password is missing; otherwise the mail is
    addressed to the requesting email, comes from the configured sender (the
    username when none is configured), goes to [host:port], and its text
    contains the returned link. *)
Theorem magic_link_mail
    (sendMail : AuthService.mail → bool) (token email baseURL : string)
    (s : AuthService.t) :
  let cfg := AuthService.smtpConfig s in
  let magicLink := (baseURL ++ "/api/auth/magic-link?token=" ++ token)%string in
  let result := AuthService.GenerateMagicLink sendMail (inr token) s email baseURL in
  let link := result.1.2 in
  let sent := result.2 in
  link = inr magicLink
  ∧ (AuthService.Host cfg = "" → sent = None)
  ∧ (AuthService.Host cfg ≠ "" →
     (AuthService.Port cfg = "" ∨ AuthService.Username cfg = ""
      ∨ AuthService.Password cfg = "") →
     sent = Some AuthService.NotConfigured)
  ∧ (AuthService.Host cfg ≠ "" → AuthService.Port cfg ≠ "" →
     AuthService.Username cfg ≠ "" → AuthService.Password cfg ≠ "" →
     ∃ m, sent = Some (if sendMail m then AuthService.Delivered m
                       else AuthService.SendFailed m)
          ∧ AuthService.to m = email
          ∧ AuthService.addr m
            = (AuthService.Host cfg ++ ":" ++ AuthService.Port cfg)%string
          ∧ AuthService.from m
            = (if String.eqb (AuthService.From cfg) ""
               then AuthService.Username cfg else AuthService.From cfg)
          ∧ Contains (AuthService.message m) magicLink = true).
Proof.
  unfold AuthService.GenerateMagicLink, AuthService.sendMagicLinkEmail. simpl.
  split; [done|]. split; [by intros ->|]. split.
  - intros Hhost%String.eqb_neq Hmissing. rewrite Hhost. simpl.
    destruct Hmissing as [-> | [-> | ->] ]; simpl; by rewrite ?orb_true_r.
  - intros Hhost%String.eqb_neq Hport%String.eqb_neq Huser%String.eqb_neq
      Hpass%String.eqb_neq.
    rewrite Hhost, Hport, Huser, Hpass. simpl.
    eexists. split; [reflexivity|].
    cbn [AuthService.to AuthService.addr AuthService.from AuthService.message].
    split; [done|]. split; [done|]. split; [done|].
    repeat first [apply Contains_here | apply Contains_right].
Qed.

Lemma magic_link_mail_witness :
  ∃ m, (AuthService.GenerateMagicLink (λ _, true) (inr "tok") sampleAuth
          "a@example.org" "https://todo.example.org").2
       = Some (AuthService.Delivered m)
       ∧ AuthService.to m = "a@example.org"
       ∧ AuthService.addr m = "smtp.example.org:587"
       ∧ AuthService.from m = "mailer".
Proof.
  pose proof (magic_link_mail (λ _, true) "tok" "a@example.org"
                "https://todo.example.org" sampleAuth) as (_ & _ & _ & Hmail).
  destruct Hmail as (m & Hsent & Hto & Haddr & Hfrom & _); try discriminate.
  exists m. split; [exact Hsent|]. split; [exact Hto|]. split; [exact Haddr|exact Hfrom].
Defined.

(** ** Storage *)

Lemma sampleBoard_json_ok : DataService.json_ok sampleBoardText sampleBoardRead.
Proof.
  intros data dataJSON. unfold sampleBoardText, sampleBoardRead.
  case_bool_decide as Hdata; [|done]. intros [= <-]. by rewrite Hdata.
Qed.

Section storage.
Variable marshal : KanbanData → option string.
Variable unmarshal : string → option KanbanData.
Variable fails : DataService.stmt → bool.

Lemma SaveUserData_cases (d : DataService.t) (email : string) (data : KanbanData) :
  (∃ err, DataService.SaveUserData marshal fails d email data = (d, Some err))
  ∨ (∃ dataJSON, marshal data = Some dataJSON
       ∧ DataService.SaveUserData marshal fails d email data
         = (DataService.mk
              (if bool_decide (email ∈ DataService.users d)
               then DataService.users d else {[email]} ∪ DataService.users d)
              (<[email := dataJSON]> (DataService.user_data d)), None)).
Proof.
  unfold DataService.SaveUserData.
  destruct (marshal data) as [dataJSON|]; [|left; eauto].
  destruct (fails DataService.Begin); [left; eauto|].
  destruct (fails DataService.SelectUser); [left; eauto|].
  destruct (negb _ && fails DataService.InsertUser); [left; eauto|].
  destruct (fails DataService.UpsertData); [left; eauto|].
  destruct (fails DataService.Commit); [left; eauto|].
  right. eauto.
Qed.

End storage.

(** X18.  What [SaveUserData] stores, [GetUserData] returns.  A save either
    fails and leaves the database as it was, or it succeeds, and then the
    user has a row in [users], [GetUserData] for that user returns the saved
    board, and what it returns for every other user is unchanged.  Either way
    every stored board still belongs to a row of [users].  A user without a
    stored board gets the empty board with [unassignedCollapsed] set, not an
    error. *)
Theorem save_then_load
    (marshal : KanbanData → option string) (unmarshal : string → option KanbanData)
    (fails : DataService.stmt → bool)
    (d : DataService.t) (email : string) (data : KanbanData) :
  DataService.json_ok marshal unmarshal → DataService.foreign_key d →
  fails DataService.SelectData = false →
  let saved := DataService.SaveUserData marshal fails d email data in
  (saved.2 ≠ None → saved.1 = d)
  ∧ (saved.2 = None →
     DataService.GetUserData unmarshal fails saved.1 email = inr data
     ∧ email ∈ DataService.users saved.1
     ∧ ∀ other, other ≠ email →
         DataService.GetUserData unmarshal fails saved.1 other
         = DataService.GetUserData unmarshal fails d other)
  ∧ DataService.foreign_key saved.1
  ∧ (DataService.user_data d !! email = None →
     DataService.GetUserData unmarshal fails d email
     = inr (mkKanbanData [] [] [] true)).
Proof.
  intros Hjson Hfk Hselect. cbv zeta.
  split; [|split; [|split]].
  - destruct (SaveUserData_cases marshal fails d email data)
      as [(err & ->)|(dataJSON & _ & ->)]; simpl; done.
  - destruct (SaveUserData_cases marshal fails d email data)
      as [(err & ->)|(dataJSON & Hdata & ->)]; simpl; [done|]. intros _.
    unfold DataService.GetUserData. rewrite Hselect. simpl.
    rewrite lookup_insert_eq, (Hjson _ _ Hdata).
    split; [done|]. split.
    + case_bool_decide; set_solver.
    + intros other Hne. by rewrite lookup_insert_ne.
  - destruct (SaveUserData_cases marshal fails d email data)
      as [(err & ->)|(dataJSON & _ & ->)]; simpl; [done|].
    intros user Huser. simpl in *.
    destruct (decide (user = email)) as [->|Hne].
    + case_bool_decide; set_solver.
    + rewrite lookup_insert_ne in Huser by done.
      apply Hfk in Huser. case_bool_decide; set_solver.
  - intros Hnone. unfold DataService.GetUserData. by rewrite Hselect, Hnone.
Qed.

Lemma save_then_load_witness :
  DataService.GetUserData sampleBoardRead DataService.noFault
    (DataService.SaveUserData sampleBoardText DataService.noFault
       (DataService.mk ∅ ∅) "a@example.org" boardA).1 "a@example.org"
  = inr boardA.
Proof.
  pose proof (save_then_load sampleBoardText sampleBoardRead DataService.noFault
                (DataService.mk ∅ ∅) "a@example.org" boardA sampleBoard_json_ok)
    as Hsave.
  destruct Hsave as (_ & Hload & _).
  - intros email [text Htext]. simpl in Htext. by rewrite lookup_empty in Htext.
  - reflexivity.
  - apply Hload. reflexivity.
Defined.

(** ** [SyncData] over the storage service and the hub *)

(** X19.  What a sync answers is what is stored.  With a database that fails
    no statement, a [SyncData] request that carries the caller's email and a
    board answers 200 with the merged board, has stored exactly that board
    for that user — [GetUserData] and the [GetData] endpoint return it
    afterwards — leaves what is stored for every other user unchanged, and
    has put on the hub's broadcast channel the ["sync"] message with that
    board and an empty [user] field (nothing, if it does not marshal). *)
Theorem sync_stores_what_it_answers
    (range_order : gmap string Column.t → list (string * Column.t))
    (hubMarshal : Hub.WebSocketMessage → option (list byte))
    (marshal : KanbanData → option string) (unmarshal : string → option KanbanData)
    (Request : Type) (contextEmail : Request → option string)
    (decodeBody : Request → option KanbanData)
    (r : Request) (w : world DataService.t)
    (email : string) (clientData serverData : KanbanData) (text : string) :
  let GetUserData := DataService.GetUserData unmarshal DataService.noFault in
  let SaveUserData := DataService.SaveUserData marshal DataService.noFault in
  let merged := Handlers.mergeKanbanData range_order serverData clientData in
  DataService.json_ok marshal unmarshal →
  contextEmail r = Some email → decodeBody r = Some clientData →
  GetUserData (db w) email = inr serverData →
  marshal merged = Some text →
  ∃ w', Handlers.SyncData range_order hubMarshal contextEmail decodeBody
          GetUserData SaveUserData r w = (w', HttpSuccess merged)
    ∧ GetUserData (db w') email = inr merged
    ∧ DataHandler.GetData contextEmail GetUserData r w' = (w', HttpSuccess merged)
    ∧ (∀ other, other ≠ email →
         GetUserData (db w') other = GetUserData (db w) other)
    ∧ broadcast w'
      = broadcast w
        ++ match hubMarshal (Hub.mkMessage "sync" (Hub.AnyKanban merged) "") with
           | Some jsonMessage => [jsonMessage]
           | None => []
           end.
Proof.
  intros GetUserData SaveUserData merged Hjson Hemail Hbody Hget Htext.
  unfold Handlers.SyncData. rewrite Hemail, Hbody, Hget.
  fold merged.
  assert (Hsave : SaveUserData (db w) email merged
    = (DataService.mk
         (if bool_decide (email ∈ DataService.users (db w))
          then DataService.users (db w) else {[email]} ∪ DataService.users (db w))
         (<[email := text]> (DataService.user_data (db w))), None)).
  { unfold SaveUserData, DataService.SaveUserData. rewrite Htext. simpl.
    by rewrite andb_false_r. }
  rewrite Hsave. eexists. split; [reflexivity|]. simpl.
  assert (Hstored : GetUserData
            (DataService.mk
               (if bool_decide (email ∈ DataService.users (db w))
                then DataService.users (db w)
                else {[email]} ∪ DataService.users (db w))
               (<[email := text]> (DataService.user_data (db w)))) email
          = inr merged).
  { unfold GetUserData, DataService.GetUserData. simpl.
    by rewrite lookup_insert_eq, (Hjson _ _ Htext). }
  split; [exact Hstored|]. split; [|split].
  - unfold DataHandler.GetData. simpl. by rewrite Hemail, Hstored.
  - intros other Hne. unfold GetUserData, DataService.GetUserData. simpl.
    by rewrite lookup_insert_ne.
  - unfold Hub.Broadcast. simpl.
    destruct (hubMarshal _); [done|by rewrite app_nil_r].
Qed.

Lemma sync_stores_what_it_answers_witness :
  ∃ w', Handlers.SyncData mapOrder Hub.userMarshal fst snd
          (DataService.GetUserData sampleBoardRead DataService.noFault)
          (DataService.SaveUserData sampleBoardText DataService.noFault)
          (Some "a@example.org", Some clientA)
          (mkWorld (DataService.mk ∅ {["a@example.org" := "A"]}) [])
        = (w', HttpSuccess (Handlers.mergeKanbanData mapOrder boardA clientA))
    ∧ DataService.GetUserData sampleBoardRead DataService.noFault (db w')
        "a@example.org"
      = inr (Handlers.mergeKanbanData mapOrder boardA clientA).
Proof.
  destruct (sync_stores_what_it_answers mapOrder Hub.userMarshal
              sampleBoardText sampleBoardRead sampleRequest fst snd
              (Some "a@example.org", Some clientA)
              (mkWorld (DataService.mk ∅ {["a@example.org" := "A"]}) [])
              "a@example.org" clientA boardA "A" sampleBoard_json_ok)
    as (w' & Hsync & Hstored & _);
    [reflexivity | reflexivity | vm_compute; reflexivity | vm_compute; reflexivity |].
  exists w'. split; [exact Hsync | exact Hstored].
Defined.

(** X20.  A sync reaches every connection, of whatever user.  The message a
    successful [SyncData] puts on the broadcast channel carries an empty
    [user] field; when [Run] takes it, it is put on the queue of every live
    session that has room — the sender's own sessions and the sessions of
    all other users alike — and the live sessions with a full queue are
    dropped. *)
Theorem sync_is_broadcast_to_all_users
    (range_order : gmap string Column.t → list (string * Column.t))
    (hubMarshal : Hub.WebSocketMessage → option (list byte))
    (decode : list byte → option Hub.WebSocketMessage)
    (range_clients : gmap Hub.ptr bool → list Hub.ptr)
    (Hcodec : Hub.codec_ok hubMarshal decode)
    (Hrange : Hub.enumerates_clients range_clients)
    (Request Store error : Type) (contextEmail : Request → option string)
    (decodeBody : Request → option KanbanData)
    (GetUserData : Store → string → error + KanbanData)
    (SaveUserData : Store → string → KanbanData → Store * option error)
    (r : Request) (w w' : world Store) (merged : KanbanData)
    (jsonMessage : list byte) (h : Hub.t) :
  Handlers.SyncData range_order hubMarshal contextEmail decodeBody
    GetUserData SaveUserData r w = (w', HttpSuccess merged) →
  hubMarshal (Hub.mkMessage "sync" (Hub.AnyKanban merged) "") = Some jsonMessage →
  Hub.live_open h →
  broadcast w' = broadcast w ++ [jsonMessage]
  ∧ ∃ h', Hub.Run_step decode range_clients (Hub.OnBroadcast jsonMessage) h
          = Hub.Done h'
      ∧ ∀ client c, is_Some (Hub.Clients h !! client) →
          Hub.store h !! client = Some c →
          (Hub.full (Hub.Send c) = false →
             Hub.store h' !! client = Some (Hub.enqueue jsonMessage c)
             ∧ Hub.Clients h' !! client = Hub.Clients h !! client)
          ∧ (Hub.full (Hub.Send c) = true →
             Hub.store h' !! client = Some (Hub.closeQueue c)
             ∧ Hub.Clients h' !! client = None).
Proof.
  intros Hsync Hjson Hlive. split.
  - unfold Handlers.SyncData in Hsync.
    destruct (contextEmail r) as [email|]; [|done].
    destruct (decodeBody r) as [clientData|]; [|done].
    destruct (GetUserData (db w) email) as [?|serverData]; [done|].
    destruct (SaveUserData (db w) email _) as [db' [err|]]; [done|].
    injection Hsync as <- <-.
    unfold Hub.Broadcast, Hub.setUser. cbn [Hub.Type_ Hub.Data broadcast].
    by rewrite Hjson.
  - destruct (Hcodec _ _ Hjson) as (wsMessage & Hdecode & Huser). simpl in Huser.
    destruct (ConnFacts.Run_broadcast_open decode range_clients Hrange
                jsonMessage wsMessage h Hlive Hdecode) as (h' & Hrun & Hin & _).
    exists h'. split; [done|]. intros client c Hclient Hc.
    destruct (Hin client c Hclient Hc) as [Hs Hl]. rewrite Huser in Hs, Hl.
    unfold Hub.afterOffer, Hub.dropped, Hub.excluded in Hs, Hl. simpl in Hs, Hl.
    split; intros Hfull; rewrite Hfull in Hs, Hl; done.
Qed.

Lemma sync_is_broadcast_to_all_users_witness :
  ∃ h', Hub.Run_step Hub.userDecode Hub.keyOrder (Hub.OnBroadcast []) Hub.hubFull
        = Hub.Done h'
    ∧ Hub.store h' !! 3%positive = Some (Hub.session "c@example.org" [[]])
    ∧ Hub.Clients h' !! 2%positive = None.
Proof.
  destruct (sync_is_broadcast_to_all_users mapOrder Hub.userMarshal Hub.userDecode
              Hub.keyOrder HubFacts.userCodec_ok HubFacts.keyOrder_enumerates
              sampleRequest (gmap string KanbanData) unit fst snd
              sampleGet workingSave (Some "a@example.org", Some clientA)
              sampleWorld _ _ [] Hub.hubFull eq_refl eq_refl hubFull_live_open)
    as (_ & h' & Hrun & Hall).
  exists h'. split; [exact Hrun|]. split.
  - apply (Hall 3%positive (Hub.session "c@example.org" []));
      [by exists true | reflexivity | reflexivity].
  - apply (Hall 2%positive (Hub.session "b@example.org" [[x00]; [x01]]));
      [by exists true | reflexivity | reflexivity].
Defined.

(** X21.  The two copies of the sync endpoint agree.  For a request that
    [authenticate] of package [main] accepts with some email, [SyncData] of
    package [main] acts on the database and the broadcast channel, and
    answers, exactly as [SyncData] of package [handlers] does for a request
    whose context carries that email; and a request that [authenticate]
    rejects is answered 401 with the database and the channel untouched. *)
Theorem sync_endpoints_agree
    (range_order : gmap string Column.t → list (string * Column.t))
    (marshal : Hub.WebSocketMessage → option (list byte))
    (Request Store error : Type) (authorization : Request → string)
    (errorText : error → string) (VerifyJWT : string → error + string)
    (decodeBody : Request → option KanbanData)
    (GetUserData : Store → string → error + KanbanData)
    (SaveUserData : Store → string → KanbanData → Store * option error)
    (r : Request) (w : world Store) :
  (∀ email, Main.authenticate authorization errorText VerifyJWT r = inr email →
     Main.SyncData range_order marshal authorization errorText VerifyJWT
       decodeBody GetUserData SaveUserData r w
     = Handlers.SyncData range_order marshal (λ _, Some email)
         decodeBody GetUserData SaveUserData r w)
  ∧ (∀ errText, Main.authenticate authorization errorText VerifyJWT r = inl errText →
     Main.SyncData range_order marshal authorization errorText VerifyJWT
       decodeBody GetUserData SaveUserData r w
     = (w, HttpError errText StatusUnauthorized)).
Proof.
  split.
  - intros email Hauth. unfold Main.SyncData, Handlers.SyncData. rewrite Hauth.
    destruct (decodeBody r) as [clientData|]; [|done].
    destruct (GetUserData (db w) email) as [?|serverData]; [done|].
    by rewrite Main_merge_Handlers.
  - intros errText Hauth. unfold Main.SyncData. by rewrite Hauth.
Qed.

Lemma sync_endpoints_agree_witness :
  Main.SyncData mapOrder Hub.userMarshal (λ _ : sampleRequest, "Bearer a@example.org")
    (λ _ : unit, "") (λ token, inr token) snd sampleGet workingSave
    ((None, Some clientA) : sampleRequest) sampleWorld
  = Handlers.SyncData mapOrder Hub.userMarshal (λ _, Some "a@example.org")
      snd sampleGet workingSave ((None, Some clientA) : sampleRequest) sampleWorld.
Proof.
  destruct (sync_endpoints_agree mapOrder Hub.userMarshal sampleRequest
              (gmap string KanbanData) unit (λ _, "Bearer a@example.org")
              (λ _, "") (λ token, inr token) snd sampleGet workingSave
              ((None, Some clientA) : sampleRequest) sampleWorld) as [Hagree _].
  apply (Hagree "a@example.org"). reflexivity.
Defined.
